(** * shelf_track: the bookstore catalogue and its consistency rules

    A shallow embedding of [shelf_track.py].  The program is a terminal
    session over an SQLite file with two tables, [book] and [author].
    Every function of the program becomes a state transformer over

    - the two tables,
    - the lines still to be read from the terminal, and
    - the outcomes the storage engine will give to the next calls,

    and returns, next to its Python result, the list of what it did
    (lines printed, lines read, statements executed). *)

From Stdlib Require Import ZArith List String Ascii Bool Lia.
From Stdlib Require Import DecimalString.
From Stdlib Require DecimalFacts DecimalPos Nnat.
Import ListNotations.
Local Open Scope string_scope.
Local Open Scope Z_scope.
Local Open Scope list_scope.

(** ** Rows and tables *)

(** [book(id, title, authorID, qty)].  [qty] is nullable in the model
    because [get_valid_integer] can hand [None] to the insert and update
    statements. *)
Record book_row := Book {
  b_id : Z;
  b_title : string;
  b_authorID : Z;
  b_qty : option Z
}.

(** [author(id, name, country)]. *)
Record author_row := Author {
  a_id : Z;
  a_name : string;
  a_country : string
}.

(** Both tables, rows in scan order. *)
Record database := Database {
  book : list book_row;
  author : list author_row
}.

(** A line typed at the terminal: the text [input()] returns, and what
    [int()] makes of that text ([None] when it raises [ValueError]).  A
    line is consumed by one prompt, which looks at only one of the two. *)
Record line := Line {
  text : string;
  int_value : option Z
}.

(** ** Statements sent through [execute_sqlite_query] *)

Inductive statement :=
| InsertAuthor (id : Z) (name country : string)
| InsertBook (id : Z) (title : string) (authorID : Z) (qty : option Z)
| UpdateBookQty (qty : option Z) (id : Z)
| UpdateBookTitle (title : string) (id : Z)
| UpdateBookAuthor (authorID : Z) (id : Z)
| UpdateAuthorName (name : string) (id : Z)
| UpdateAuthorCountry (country : string) (id : Z)
| DeleteBook (id : Z)
| DeleteAuthor (id : Z).

(** ** The world *)

Record state := State {
  db : database;
  stdin : list line;
  (** one entry per coming store call: [true] when that call meets an
      [sqlite3.Error]; calls beyond the list meet none *)
  faults : list bool
}.

(** What a run leaves on the console and in the store, in order.
    [QueryFailed] is the line [Query Failed: <query>] with its second
    line [Error: <message>] that the [except] branch of the two store
    functions prints; the message is the engine's, and its text is not
    modelled. *)
Inductive event :=
| Print (s : string)
| Input (prompt : string) (answer : line)
| Eof (prompt : string)
| Exec (q : statement) (ok : bool)
| FetchFailed
| QueryFailed.

Inductive exn := EOFError | TypeError | IndexError | OverflowError.

Inductive result (A : Type) :=
| Ok (a : A)
| Raise (e : exn).
Arguments Ok {A} a.
Arguments Raise {A} e.

Definition M (A : Type) : Type := state -> result A * state * list event.

Definition ret {A} (a : A) : M A := fun s => (Ok a, s, []).

Definition raise {A} (e : exn) : M A := fun s => (Raise e, s, []).

Definition bind {A B} (m : M A) (k : A -> M B) : M B :=
  fun s =>
    match m s with
    | (Ok a, s1, e1) =>
        match k a s1 with
        | (r, s2, e2) => (r, s2, e1 ++ e2)
        end
    | (Raise e, s1, e1) => (Raise e, s1, e1)
    end.

Notation "x <- m ;; k" := (bind m (fun x => k))
  (at level 61, m at next level, right associativity).
Notation "m ;; k" := (bind m (fun _ => k))
  (at level 61, right associativity).

Definition print (msg : string) : M unit := fun s => (Ok tt, s, [Print msg]).

(** ** Python's [str] on the values the program formats *)

Definition str (z : Z) : string := NilZero.string_of_int (Z.to_int z).

Definition str_opt (q : option Z) : string :=
  match q with
  | Some z => str z
  | None => "None"
  end.

Definition nl : string := String (ascii_of_nat 10) EmptyString.

(** [s.lower() == t] for the ASCII literals the program compares with. *)
Definition lower_ascii (c : ascii) : ascii :=
  let n := nat_of_ascii c in
  if (andb (Nat.leb 65 n) (Nat.leb n 90)) then ascii_of_nat (n + 32) else c.

Definition lower (s : string) : string :=
  string_of_list_ascii (map lower_ascii (list_ascii_of_string s)).

(** ** The record store *)

Definition set_db (d : database) (s : state) : state :=
  State d (stdin s) (faults s).

Definition set_stdin (l : list line) (s : state) : state :=
  State (db s) l (faults s).

(** The outcome the engine gives to the call being made. *)
Definition next_fault (s : state) : bool * state :=
  match faults s with
  | [] => (false, s)
  | f :: fs => (f, State (db s) (stdin s) fs)
  end.

(** The sqlite3 module converts a Python [int] parameter to a 64-bit
    integer and raises [OverflowError], which is not an [sqlite3.Error],
    when it does not fit.  Identifiers have passed the four-character
    check before they reach a statement; quantities have not. *)
Definition fits_int64 (q : option Z) : bool :=
  match q with
  | Some z => (- 2 ^ 63 <=? z) && (z <? 2 ^ 63)
  | None => true
  end.

Definition params_fit (q : statement) : bool :=
  match q with
  | InsertBook _ _ _ qty => fits_int64 qty
  | UpdateBookQty qty _ => fits_int64 qty
  | _ => true
  end.

Definition has_book (id : Z) (d : database) : bool :=
  existsb (fun b => b_id b =? id) (book d).

Definition has_author (id : Z) (d : database) : bool :=
  existsb (fun a => a_id a =? id) (author d).

(** [UPDATE book SET authorID = ? WHERE id = ?] *)
Definition reassign_book (authorID id : Z) (d : database) : database :=
  Database
    (map (fun b => if b_id b =? id
                   then Book (b_id b) (b_title b) authorID (b_qty b)
                   else b) (book d))
    (author d).

(** [DELETE FROM book WHERE id = ?] *)
Definition remove_book (id : Z) (d : database) : database :=
  Database (filter (fun b => negb (b_id b =? id)) (book d)) (author d).

(** [DELETE FROM author WHERE id = ?] *)
Definition remove_author (id : Z) (d : database) : database :=
  Database (book d) (filter (fun a => negb (a_id a =? id)) (author d)).

(** What a statement does to the tables; [None] is the integrity error
    of an insert whose primary key is taken.  The schema declares no
    foreign key, so nothing else is checked. *)
Definition apply_statement (q : statement) (d : database) : option database :=
  match q with
  | InsertAuthor id name country =>
      if has_author id d then None
      else Some (Database (book d) (author d ++ [Author id name country]))
  | InsertBook id title authorID qty =>
      if has_book id d then None
      else Some (Database (book d ++ [Book id title authorID qty]) (author d))
  | UpdateBookQty qty id =>
      Some (Database
              (map (fun b => if b_id b =? id
                             then Book (b_id b) (b_title b) (b_authorID b) qty
                             else b) (book d))
              (author d))
  | UpdateBookTitle title id =>
      Some (Database
              (map (fun b => if b_id b =? id
                             then Book (b_id b) title (b_authorID b) (b_qty b)
                             else b) (book d))
              (author d))
  | UpdateBookAuthor authorID id => Some (reassign_book authorID id d)
  | UpdateAuthorName name id =>
      Some (Database (book d)
              (map (fun a => if a_id a =? id
                             then Author (a_id a) name (a_country a)
                             else a) (author d)))
  | UpdateAuthorCountry country id =>
      Some (Database (book d)
              (map (fun a => if a_id a =? id
                             then Author (a_id a) (a_name a) country
                             else a) (author d)))
  | DeleteBook id => Some (remove_book id d)
  | DeleteAuthor id => Some (remove_author id d)
  end.

(** [execute_sqlite_query]: [True] when the statement went through;
    when the engine raised an [sqlite3.Error] the tables are as before,
    the failure line is printed and [False] is returned. *)
Definition execute_sqlite_query (q : statement) : M bool :=
  fun s =>
    let (f, s1) := next_fault s in
    if f then (Ok false, s1, [Exec q false; QueryFailed])
    else if negb (params_fit q) then (Raise OverflowError, s1, [])
    else match apply_statement q (db s1) with
         | Some d => (Ok true, set_db d s1, [Exec q true])
         | None => (Ok false, s1, [Exec q false; QueryFailed])
         end.

(** [retrieve_sqlite_query]: the rows; when the engine raised, the
    failure line is printed and [False] (here [None]) is returned. *)
Definition retrieve_sqlite_query {A} (rows : database -> list A)
  : M (option (list A)) :=
  fun s =>
    let (f, s1) := next_fault s in
    if f then (Ok None, s1, [FetchFailed; QueryFailed])
    else (Ok (Some (rows (db s1))), s1, []).

(** *** The queries of the program *)

(** A row of [book INNER JOIN author ON book.authorID = author.id]; the
    select lists of the program pick their columns out of it. *)
Definition joined_row : Type := book_row * author_row.

Definition select_book_join_author (d : database) : list joined_row :=
  flat_map
    (fun b => map (fun a => (b, a))
                  (filter (fun a => b_authorID b =? a_id a) (author d)))
    (book d).

Definition select_book_join_author_where_id (id : Z) (d : database)
  : list joined_row :=
  filter (fun r => b_id (fst r) =? id) (select_book_join_author d).

Definition select_all_authors (d : database) : list author_row := author d.

Definition select_book_where_id (id : Z) (d : database) : list book_row :=
  filter (fun b => b_id b =? id) (book d).

Definition select_author_where_id (id : Z) (d : database) : list author_row :=
  filter (fun a => a_id a =? id) (author d).

Definition select_book_id_where_authorID (aid : Z) (d : database) : list Z :=
  map b_id (filter (fun b => b_authorID b =? aid) (book d)).

Definition select_book_id_title_where_authorID (aid : Z) (d : database)
  : list (Z * string) :=
  map (fun b => (b_id b, b_title b))
      (filter (fun b => b_authorID b =? aid) (book d)).

(** ** Prompts

    The prompts of the program call themselves again after an input
    they reject.  Here each is a recursion on the lines still to be
    read; running out of lines is the [EOFError] of [input()].  The
    interpreter's bound on the depth of recursion is not modelled: in
    the code a run of about a thousand rejected lines at one prompt
    ends in a [RecursionError].  What is proved of the prompts is
    therefore stated for the runs in which they return. *)

(** [for x in data] and [len(data)] on the [False] of a failed fetch. *)
Definition iterable {A} (data : option (list A)) : M (list A) :=
  match data with
  | Some rows => ret rows
  | None => raise TypeError
  end.

(** [get_valid_option_input(range(n))] *)
Fixpoint get_valid_option_input_from (n : Z) (lines : list line)
  : result Z * list line * list event :=
  let prompt := "Select an option by number " in
  match lines with
  | [] => (Raise EOFError, [], [Eof prompt])
  | l :: rest =>
      let retry :=
        match get_valid_option_input_from n rest with
        | (r, rest', evs) =>
            (r, rest',
             Input prompt l :: Print "Invalid selection, please try again" :: evs)
        end in
      match int_value l with
      | Some k =>
          if (0 <=? k) && (k <? n) then (Ok k, rest, [Input prompt l])
          else retry
      | None => retry
      end
  end.

Definition get_valid_option_input (n : Z) : M Z :=
  fun s =>
    match get_valid_option_input_from n (stdin s) with
    | (r, rest, evs) => (r, set_stdin rest s, evs)
    end.

(** [get_yes_no(input_prompt)] *)
Fixpoint get_yes_no_from (input_prompt : string) (lines : list line)
  : result bool * list line * list event :=
  let prompt := (input_prompt ++ " y/n ")%string in
  match lines with
  | [] => (Raise EOFError, [], [Eof prompt])
  | l :: rest =>
      let user_input := lower (text l) in
      if (user_input =? "y")%string then (Ok true, rest, [Input prompt l])
      else if (user_input =? "")%string then (Ok true, rest, [Input prompt l])
      else if (user_input =? "n")%string then (Ok false, rest, [Input prompt l])
      else
        match get_yes_no_from input_prompt rest with
        | (r, rest', evs) =>
            (r, rest',
             Input prompt l :: Print "Invalid selection, please try again" :: evs)
        end
  end.

Definition get_yes_no (input_prompt : string) : M bool :=
  fun s =>
    match get_yes_no_from input_prompt (stdin s) with
    | (r, rest, evs) => (r, set_stdin rest s, evs)
    end.

(** [get_valid_string(input_prompt)] *)
Fixpoint get_valid_string_from (input_prompt : string) (lines : list line)
  : result string * list line * list event :=
  match lines with
  | [] => (Raise EOFError, [], [Eof input_prompt])
  | l :: rest =>
      if (text l =? "")%string then
        match get_valid_string_from input_prompt rest with
        | (r, rest', evs) =>
            (r, rest',
             Input input_prompt l
               :: Print "Input must contain characters, please try again" :: evs)
        end
      else (Ok (text l), rest, [Input input_prompt l])
  end.

Definition get_valid_string (input_prompt : string) : M string :=
  fun s =>
    match get_valid_string_from input_prompt (stdin s) with
    | (r, rest, evs) => (r, set_stdin rest s, evs)
    end.

(** [get_valid_integer(input_prompt)].  The retry after a [ValueError]
    is called but its value is not returned: the function then falls off
    its end with [None], whatever the retry read. *)
Fixpoint get_valid_integer_from (input_prompt : string) (lines : list line)
  : result (option Z) * list line * list event :=
  match lines with
  | [] => (Raise EOFError, [], [Eof input_prompt])
  | l :: rest =>
      match int_value l with
      | Some z => (Ok (Some z), rest, [Input input_prompt l])
      | None =>
          match get_valid_integer_from input_prompt rest with
          | (r, rest', evs) =>
              (match r with Ok _ => Ok None | Raise e => Raise e end,
               rest',
               Input input_prompt l
                 :: Print "Invalid input, please try again" :: evs)
          end
      end
  end.

Definition get_valid_integer (input_prompt : string) : M (option Z) :=
  fun s =>
    match get_valid_integer_from input_prompt (stdin s) with
    | (r, rest, evs) => (r, set_stdin rest s, evs)
    end.

(** Truth value of a fetch result: [False] and the empty list are falsy. *)
Definition nonempty {A} (data : option (list A)) : bool :=
  match data with
  | Some (_ :: _) => true
  | _ => false
  end.

(** [check_id_exists(table, id)]; [None] is the bare [return] taken for
    an unknown table name. *)
Definition check_id_exists (table : string) (id : Z) : M (option bool) :=
  if (table =? "book")%string then
    matching_id <- retrieve_sqlite_query (select_book_where_id id);;
    ret (Some (nonempty matching_id))
  else if (table =? "author")%string then
    matching_id <- retrieve_sqlite_query (select_author_where_id id);;
    ret (Some (nonempty matching_id))
  else
    print "Error: Table does not exist";;
    ret None.

Definition truthy (b : option bool) : bool :=
  match b with
  | Some true => true
  | _ => false
  end.

(** [len(str(new_id)) != 4] *)
Definition four_chars (id : Z) : bool := (String.length (str id) =? 4)%nat.

(** [get_valid_id(table)] *)
Definition valid_id_prompt (table : string) : string :=
  ("Please input a unique 4 digit " ++ table ++ " id number ")%string.

Fixpoint get_valid_id_from (table : string) (lines : list line) (s : state)
  : result Z * state * list event :=
  let prompt := valid_id_prompt table in
  match lines with
  | [] => (Raise EOFError, set_stdin [] s, [Eof prompt])
  | l :: rest =>
      let retry (msg : string) (s1 : state) (done : list event) :=
        match get_valid_id_from table rest s1 with
        | (r, s2, evs) => (r, s2, done ++ Print msg :: evs)
        end in
      let s0 := set_stdin rest s in
      match int_value l with
      | None =>
          retry "Invalid input, please input a four digit number"
                s0 [Input prompt l]
      | Some new_id =>
          if negb (four_chars new_id) then
            retry "Invalid input, please input a four digit number"
                  s0 [Input prompt l]
          else
            match check_id_exists table new_id s0 with
            | (Ok id_exists, s1, evs) =>
                if truthy id_exists then
                  retry "id number already exists, please input a unique id"
                        s1 (Input prompt l :: evs)
                else (Ok new_id, s1, Input prompt l :: evs)
            | (Raise e, s1, evs) => (Raise e, s1, Input prompt l :: evs)
            end
      end
  end.

Definition get_valid_id (table : string) : M Z :=
  fun s => get_valid_id_from table (stdin s) s.

(** [get_existing_id(table)] *)
Definition existing_id_prompt (table : string) : string :=
  ("Please input " ++ table ++ " ID ")%string.

Fixpoint get_existing_id_from (table : string) (lines : list line) (s : state)
  : result Z * state * list event :=
  let prompt := existing_id_prompt table in
  match lines with
  | [] => (Raise EOFError, set_stdin [] s, [Eof prompt])
  | l :: rest =>
      let retry (msg : string) (s1 : state) (done : list event) :=
        match get_existing_id_from table rest s1 with
        | (r, s2, evs) => (r, s2, done ++ Print msg :: evs)
        end in
      let s0 := set_stdin rest s in
      match int_value l with
      | None =>
          retry "Invalid input, please input a four digit number"
                s0 [Input prompt l]
      | Some new_id =>
          if negb (four_chars new_id) then
            retry "Invalid input, please input a four digit number"
                  s0 [Input prompt l]
          else
            match check_id_exists table new_id s0 with
            | (Ok id_exists, s1, evs) =>
                if truthy id_exists then (Ok new_id, s1, Input prompt l :: evs)
                else
                  retry ("ID does not match any existing " ++ table
                           ++ " IDs, please enter an existing ID")%string
                        s1 (Input prompt l :: evs)
            | (Raise e, s1, evs) => (Raise e, s1, Input prompt l :: evs)
            end
      end
  end.

Definition get_existing_id (table : string) : M Z :=
  fun s => get_existing_id_from table (stdin s) s.

(** ** The similarity matcher *)

(** [thefuzz.process.extract(query, choices)]: every choice is scored
    against the query, and the best-scoring choices are returned with
    their scores, best first.  The program passes neither [scorer] nor
    [limit], so the scorer is the library's default and at most
    [limit = 5] pairs come back.  The score here is the rounded integer
    the library hands back.  The library orders by the score before
    rounding; the order among choices whose rounded scores are equal is
    not modelled (here they keep the order of [choices]), and nothing
    proved below rests on it. *)

Fixpoint insert_by_score (x : string * Z) (l : list (string * Z))
  : list (string * Z) :=
  match l with
  | [] => [x]
  | y :: r => if snd y <=? snd x then x :: l else y :: insert_by_score x r
  end.

Definition sort_by_score (l : list (string * Z)) : list (string * Z) :=
  fold_right insert_by_score [] l.

Definition default_limit : nat := 5.

Section Catalogue.

(** The library's default scorer applied to the processed query and
    choice: an integer from 0 to 100. *)
Variable score : string -> string -> Z.

Definition extract (query : string) (choices : list string)
  : list (string * Z) :=
  firstn default_limit
         (sort_by_score (map (fun c => (c, score query c)) choices)).

(** ** The duplicate detector *)

(** [retrieve_similar_titles(title, excluded_title)]; column 0 of its
    select list is [book.title]. *)
Definition retrieve_similar_titles (title excluded_title : string)
  : M (list joined_row) :=
  fetched <- retrieve_sqlite_query select_book_join_author;;
  book_data <- iterable fetched;;
  let book_titles :=
    map (fun r => b_title (fst r))
        (filter (fun r => negb (b_title (fst r) =? excluded_title)%string)
                book_data) in
  let title_similarity_scores := extract title book_titles in
  ret (flat_map
         (fun score_tuple =>
            if 90 <=? snd score_tuple
            then filter (fun r => (b_title (fst r) =? fst score_tuple)%string)
                        book_data
            else [])
         title_similarity_scores).

(** [retrieve_similar_authors(new_author_name)]; column 1 of
    [SELECT * FROM author] is the name. *)
Definition retrieve_similar_authors (new_author_name : string)
  : M (list author_row) :=
  fetched <- retrieve_sqlite_query select_all_authors;;
  author_data <- iterable fetched;;
  let author_names := map a_name author_data in
  let author_similarity_scores := extract new_author_name author_names in
  ret (flat_map
         (fun score_tuple =>
            if 75 <=? snd score_tuple
            then filter (fun a => (a_name a =? fst score_tuple)%string)
                        author_data
            else [])
         author_similarity_scores).

(** ** Adding authors and books *)

Definition print_all (msgs : list string) : M unit :=
  fun s => (Ok tt, s, map Print msgs).

(** [for index, author in enumerate(similar_authors)] *)
Definition author_menu (similar_authors : list author_row) : list string :=
  map (fun ia =>
         ("Number: " ++ str (Z.of_nat (fst ia)) ++ " Name: " ++ a_name (snd ia)
            ++ ". Country: " ++ a_country (snd ia))%string)
      (combine (seq 0 (List.length similar_authors)) similar_authors).

(** [add_author] from [new_author_country = ...] to its end: the code
    below the [if similar_authors:] block, reached when no similar
    author was found or the user did not want one.  The country and id
    are asked for and the row is inserted. *)
Definition create_author (new_author_name : string) : M (option Z) :=
  new_author_country <-
    get_valid_string "Please input authors country of origin ";;
  new_author_id <- get_valid_id "author";;
  author_created <-
    execute_sqlite_query
      (InsertAuthor new_author_id new_author_name new_author_country);;
  if author_created then ret (Some new_author_id) else ret None.

(** [add_author()]: the id of the author to use, or [None] when the
    insert failed. *)
Definition add_author : M (option Z) :=
  new_author_name <- get_valid_string "Please input author name ";;
  similar_authors <- retrieve_similar_authors new_author_name;;
  match similar_authors with
  | [] => create_author new_author_name
  | _ :: _ =>
      print "Similar Authors found in database";;
      print_all (author_menu similar_authors);;
      use_existing_author <-
        get_yes_no "Do you wish to use an existing author? ";;
      if use_existing_author then
        target_author_index <-
          get_valid_option_input (Z.of_nat (List.length similar_authors));;
        match nth_error similar_authors (Z.to_nat target_author_index) with
        | Some a => ret (Some (a_id a))
        | None => raise IndexError
        end
      else create_author new_author_name
  end.

Definition title_line (entry : joined_row) : string :=
  ("Title: " ++ b_title (fst entry) ++ ", Author: " ++ a_name (snd entry)
     ++ ", Author Country: " ++ a_country (snd entry))%string.

(** [add_book] from [new_book_id = get_valid_id("book")] to its end:
    the code below the [if similar_titles:] block, reached when no
    similar title was found or the user chose to go on. *)
Definition enter_book (new_title : string) : M unit :=
  new_book_id <- get_valid_id "book";;
  author_id <- add_author;;
  match author_id with
  | None => print "Error generating new Author, add book aborted"
  | Some author_id =>
      new_book_quantity <- get_valid_integer "Please input stock quantity ";;
      book_added <-
        execute_sqlite_query
          (InsertBook new_book_id new_title author_id new_book_quantity);;
      if book_added
      then print ("New Book " ++ new_title
                    ++ " added to database successfully")%string
      else print ("Error adding new book " ++ new_title
                    ++ " to database")%string
  end.

(** [add_book()] *)
Definition add_book : M unit :=
  new_title <- get_valid_string "Please input the title ";;
  similar_titles <- retrieve_similar_titles new_title "";;
  match similar_titles with
  | [] => enter_book new_title
  | _ :: _ =>
      print "Book may already exist in database as: ";;
      print_all (map title_line similar_titles);;
      continue_adding <-
        get_yes_no ("Continue adding " ++ new_title ++ " to database? ");;
      if continue_adding then enter_book new_title
      else print "Add Book aborted"
  end.

(** ** The referential integrity guard *)

(** [update_creates_orphan(author_id)]: [len] of a failed fetch raises. *)
Definition update_creates_orphan (author_id : Z) : M bool :=
  fetched <-
    retrieve_sqlite_query (select_book_id_where_authorID author_id);;
  books_by_author <- iterable fetched;;
  if (List.length books_by_author <? 2)%nat then ret true else ret false.

(** [get_affected_books(author_id)] *)
Definition get_affected_books (author_id : Z)
  : M (option (list (Z * string))) :=
  retrieve_sqlite_query (select_book_id_title_where_authorID author_id).

(** ** Updating a book *)

(** The values a function of the program hands back where it mixes
    integers, [None] and [False]. *)
Inductive value :=
| VInt (z : Z)
| VNone
| VFalse.

Definition of_quantity (q : option Z) : value :=
  match q with
  | Some z => VInt z
  | None => VNone
  end.

(** [if v:] *)
Definition is_true (v : value) : bool :=
  match v with
  | VInt z => negb (z =? 0)
  | VNone => false
  | VFalse => false
  end.

Definition str_value (v : value) : string :=
  match v with
  | VInt z => str z
  | VNone => "None"
  | VFalse => "False"
  end.

(** [update_quantity(book_id, current_quant)] *)
Definition update_quantity (book_id : Z) (current_quant : option Z)
  : M value :=
  print ("Current stock is: " ++ str_opt current_quant)%string;;
  new_quant <- get_valid_integer "Please input the new stock quantity ";;
  quant_updated <- execute_sqlite_query (UpdateBookQty new_quant book_id);;
  if quant_updated then ret (of_quantity new_quant) else ret VFalse.

(** [update_title(book_id, current_title)]: the update statement sits
    inside the branch taken when similar titles were found. *)
Definition update_title (book_id : Z) (current_title : string) : M unit :=
  print ("Current title is: " ++ current_title)%string;;
  new_title <- get_valid_string "Please input new title ";;
  similar_titles <- retrieve_similar_titles new_title current_title;;
  match similar_titles with
  | [] => ret tt
  | _ :: _ =>
      print "Book title may already exist in database as:";;
      print_all (map title_line similar_titles);;
      print "To avoid duplication of books consider deleting the current entry rather than changing title";;
      continue_editing <- get_yes_no "Continue editing book title? ";;
      if continue_editing then
        print ("Updating " ++ current_title ++ " to " ++ new_title)%string;;
        title_updated <-
          execute_sqlite_query (UpdateBookTitle new_title book_id);;
        if title_updated
        then print ("Book: " ++ current_title ++ " renamed to " ++ new_title
                      ++ " successfully")%string
        else print ("Error updating title on Book " ++ current_title
                      ++ ", Please contact system admin")%string
      else ret tt
  end.

Definition author_id_menu : string :=
  (nl ++ "--Options--" ++ nl
      ++ "1. Assign book to existing author" ++ nl
      ++ "2. Assign book to new author" ++ nl
      ++ "0. Return to main menu" ++ nl)%string.

Definition orphan_notice (current_auth_name current_auth_country : string)
  : string :=
  ("Changing the current book author id will result in the deletion of Author:"
     ++ current_auth_name ++ " from " ++ current_auth_country)%string.

Definition orphan_removed_msg (current_auth_name current_auth_country : string)
  : string :=
  ("Orphan Author " ++ current_auth_name ++ " from " ++ current_auth_country
     ++ " removed from database")%string.

Definition orphan_not_removed_msg : string :=
  "Removal of Orphan entry unsuccessful, Please contact system administrator".

Definition author_id_error_msg : string :=
  "Error Editing Author ID, please contact system Administrator".

(** The end of both reassignment paths of [update_author_id], which
    the source writes out twice in the same words (from [book_edited =
    execute_sqlite_query(...)] on, under [case 1] and under [case 2]):
    the update of the book, then the removal of the author when the
    check made before said so. *)
Definition reassign (book_id new_id current_auth_id : Z)
    (current_auth_name current_auth_country : string) (orphan : bool)
  : M value :=
  book_edited <- execute_sqlite_query (UpdateBookAuthor new_id book_id);;
  if book_edited then
    (if orphan then
       orphan_removed <- execute_sqlite_query (DeleteAuthor current_auth_id);;
       if orphan_removed
       then print (orphan_removed_msg current_auth_name current_auth_country)
       else print orphan_not_removed_msg
     else ret tt);;
    print "Author ID changed successfully";;
    ret VNone
  else
    print author_id_error_msg;;
    ret VNone.

(** [update_author_id(book_id, current_auth_id, current_auth_name,
    current_auth_country)] *)
Definition update_author_id (book_id current_auth_id : Z)
    (current_auth_name current_auth_country : string) : M value :=
  print author_id_menu;;
  option_selection <- get_valid_option_input 3;;
  if option_selection =? 1 then
    print "--Assigning book to existing Author--";;
    new_id <- get_existing_id "author";;
    orphan <- update_creates_orphan current_auth_id;;
    continue_editing <-
      (if orphan then
         print (orphan_notice current_auth_name current_auth_country);;
         get_yes_no "Continue with author ID change?"
       else ret true);;
    if continue_editing then
      reassign book_id new_id current_auth_id
               current_auth_name current_auth_country orphan
    else
      print "Author ID update aborted, returning to main menu";;
      ret VNone
  else if option_selection =? 2 then
    print "--Assigning book to new author--";;
    orphan <- update_creates_orphan current_auth_id;;
    continue_editing <-
      (if orphan then
         print (orphan_notice current_auth_name current_auth_country);;
         get_yes_no "Continue with author ID change?"
       else ret true);;
    if continue_editing then
      print "-Please provide author details-";;
      new_id <- add_author;;
      match new_id with
      | None =>
          print "Error generating new author, please contact system Administrator";;
          ret VNone
      | Some new_id =>
          reassign book_id new_id current_auth_id
                   current_auth_name current_auth_country orphan
      end
    else
      print "Author ID update aborted, returning to main menu";;
      ret VNone
  else if option_selection =? 0 then
    print "Author ID update aborted, returning to main menu";;
    ret VFalse
  else ret VNone.

Definition affected_line (b : Z * string) : string :=
  ("ID: " ++ str (fst b) ++ ", Title: " ++ snd b)%string.

(** [update_author_name(author_id, current_name)] *)
Definition update_author_name (author_id : Z) (current_name : string)
  : M unit :=
  fetched <- get_affected_books author_id;;
  print "Modifying this author name will affect the following books:";;
  affected_books <- iterable fetched;;
  print_all (map affected_line affected_books);;
  continue_editing <- get_yes_no "Continue editing author name?";;
  if continue_editing then
    new_author_name <- get_valid_string "Please input the new author name";;
    author_name_edited <-
      execute_sqlite_query (UpdateAuthorName new_author_name author_id);;
    if author_name_edited
    then print ("Author name changed from " ++ current_name ++ " to "
                  ++ new_author_name)%string
    else print ("Error changing author name from " ++ current_name ++ " to "
                  ++ new_author_name ++ ", please contact system Admin")%string
  else print "Editing author name Aborted, returning to main menu".

(** [update_author_country(author_id, current_country)] *)
Definition update_author_country (author_id : Z) (current_country : string)
  : M unit :=
  fetched <- get_affected_books author_id;;
  print "Modifying this author name will affect the following books:";;
  affected_books <- iterable fetched;;
  print_all (map affected_line affected_books);;
  continue_editing <- get_yes_no "Continue editing author country?";;
  if continue_editing then
    new_country <- get_valid_string "Please input new author country";;
    country_edited <-
      execute_sqlite_query (UpdateAuthorCountry new_country author_id);;
    if country_edited
    then print ("Author country changed from " ++ current_country ++ " to "
                  ++ new_country)%string
    else print ("Error changing author name from " ++ current_country ++ " to "
                  ++ new_country ++ ", please contact system Admin")%string
  else print "Editing author country Aborted, returning to main menu".

(** [rows[0]] on a fetch result *)
Definition first_row {A} (data : option (list A)) : M A :=
  match data with
  | None => raise TypeError
  | Some [] => raise IndexError
  | Some (r :: _) => ret r
  end.

Definition pad : string := "              ".

(** The card printed for the selected book; [indent] is the margin the
    literal carries in [delete_book] and [search_by_id]. *)
Definition card (indent : string) (r : joined_row) : string :=
  (nl ++ indent ++ "----------" ++ nl
      ++ indent ++ "Book ID: " ++ str (b_id (fst r)) ++ nl
      ++ indent ++ "Title: " ++ b_title (fst r) ++ nl
      ++ indent ++ "Author: " ++ a_name (snd r) ++ nl
      ++ indent ++ "Author ID: " ++ str (a_id (snd r)) ++ nl
      ++ indent ++ "Author Country: " ++ a_country (snd r) ++ nl
      ++ indent ++ "Current Stock: " ++ str_opt (b_qty (fst r)) ++ pad ++ nl
      ++ indent ++ "----------" ++ pad ++ nl)%string.

Definition update_menu : string :=
  (nl ++ "--Options--" ++ nl
      ++ "1. Update Stock Quantity" ++ nl
      ++ "2. Update Title" ++ nl
      ++ "3. Update Author ID" ++ nl
      ++ "4. Update Author Name" ++ nl
      ++ "5. Update Author Country" ++ nl
      ++ "0. Return To Main Menu" ++ nl)%string.

Definition stock_error_msg (book_title : string) : string :=
  ("Error updating " ++ book_title
     ++ " stock, please contact system admin")%string.

(** [update_book()]; the select list is [book.id, book.title, author.id,
    author.name, author.country, book.qty]. *)
Definition update_book : M unit :=
  target_id <- get_existing_id "book";;
  target_books <-
    retrieve_sqlite_query (select_book_join_author_where_id target_id);;
  row <- first_row target_books;;
  let book_id := b_id (fst row) in
  let book_title := b_title (fst row) in
  let author_id := a_id (snd row) in
  let author_name := a_name (snd row) in
  let author_country := a_country (snd row) in
  let current_stock := b_qty (fst row) in
  print "Selected Book:";;
  print (card "" row);;
  print update_menu;;
  edit_selection <- get_valid_option_input 6;;
  if edit_selection =? 1 then
    print "--Updating Stock Quantity";;
    new_quantity <- update_quantity book_id current_stock;;
    if is_true new_quantity
    then print (book_title ++ " stock updated. New stock: "
                  ++ str_value new_quantity)%string
    else print (stock_error_msg book_title)
  else if edit_selection =? 2 then
    print "--Updating Title";;
    update_title book_id book_title
  else if edit_selection =? 3 then
    print "--Updating Author ID--";;
    update_author_id book_id author_id author_name author_country;;
    ret tt
  else if edit_selection =? 4 then
    print "--Updating Author Name--";;
    update_author_name author_id author_name
  else if edit_selection =? 5 then
    print "--Updating Author Country";;
    update_author_country author_id author_country
  else ret tt.

(** ** Deleting a book *)

Definition delete_notice (r : joined_row) : string :=
  ("Deleting this book will also remove Author " ++ a_name (snd r)
     ++ " from " ++ a_country (snd r) ++ " with ID: " ++ str (a_id (snd r))
     ++ " from database")%string.

Definition both_deleted_msg (r : joined_row) : string :=
  ("Book " ++ b_title (fst r) ++ " successfully deleted. Author "
     ++ a_name (snd r) ++ " from " ++ a_country (snd r)
     ++ " successfully deleted")%string.

Definition orphan_created_msg (title : string) : string :=
  ("Book " ++ title
     ++ " Deleted, orphan Author entry created. Please contact system Admin")%string.

Definition book_deleted_msg (title : string) : string :=
  ("Book " ++ title ++ " succesfully deleted")%string.

Definition delete_error_msg (title : string) : string :=
  ("Error Deleting book " ++ title ++ ", please contact system Admin")%string.

(** [delete_book()] *)
Definition delete_book : M unit :=
  target_id <- get_existing_id "book";;
  target_book_list <-
    retrieve_sqlite_query (select_book_join_author_where_id target_id);;
  target_book <- first_row target_book_list;;
  let book_id := b_id (fst target_book) in
  let title := b_title (fst target_book) in
  let author_id := a_id (snd target_book) in
  print "Book to be deleted:";;
  print (card "        " target_book);;
  confirm_delete <- get_yes_no "Is this the book you wish to delete?";;
  if confirm_delete then
    delete_creates_orphan <- update_creates_orphan author_id;;
    continue_deleting <-
      (if delete_creates_orphan then
         print (delete_notice target_book);;
         get_yes_no "Continue deleting?"
       else ret true);;
    if continue_deleting then
      print "Deleting Selected book";;
      delete_successful <- execute_sqlite_query (DeleteBook book_id);;
      if delete_successful then
        if delete_creates_orphan then
          orphan_deleted <- execute_sqlite_query (DeleteAuthor author_id);;
          if orphan_deleted
          then print (both_deleted_msg target_book)
          else print (orphan_created_msg title)
        else print (book_deleted_msg title)
      else print (delete_error_msg title)
    else print "Book delete aborted"
  else print "Book delete aborted".

End Catalogue.

(** ** Viewing and searching *)

(** The card of [view_all_books]; its select list is [book.id,
    book.title, author.name, author.country, book.qty]. *)
Definition view_card (r : joined_row) : string :=
  (nl ++ "----------" ++ nl
      ++ "Book ID: " ++ str (b_id (fst r)) ++ nl
      ++ "Title: " ++ b_title (fst r) ++ nl
      ++ "Author: " ++ a_name (snd r) ++ nl
      ++ "Author Country: " ++ a_country (snd r) ++ nl
      ++ "Current Stock: " ++ str_opt (b_qty (fst r)) ++ pad ++ nl
      ++ "----------" ++ pad ++ nl)%string.

(** [view_all_books()] *)
Definition view_all_books : M unit :=
  fetched <- retrieve_sqlite_query select_book_join_author;;
  book_data <- iterable fetched;;
  print_all (map view_card book_data).

(** [search_by_id()] *)
Definition search_by_id : M unit :=
  target_id <- get_existing_id "book";;
  target_book_list <-
    retrieve_sqlite_query (select_book_join_author_where_id target_id);;
  target_book <- first_row target_book_list;;
  print "-Results-";;
  print (card "    " target_book).

(** The card of [search_by_title]; the author id comes before the
    name, and the literal ends on the margin of its closing quotes. *)
Definition result_card (r : joined_row) : string :=
  let indent := "            " in
  (nl ++ indent ++ "----------" ++ nl
      ++ indent ++ "Book ID: " ++ str (b_id (fst r)) ++ nl
      ++ indent ++ "Title: " ++ b_title (fst r) ++ nl
      ++ indent ++ "Author ID: " ++ str (a_id (snd r)) ++ nl
      ++ indent ++ "Author: " ++ a_name (snd r) ++ nl
      ++ indent ++ "Author Country: " ++ a_country (snd r) ++ nl
      ++ indent ++ "Current Stock: " ++ str_opt (b_qty (fst r)) ++ pad ++ nl
      ++ indent ++ "----------" ++ pad ++ nl
      ++ indent)%string.

(** [search_by_title()] *)
Definition search_by_title (score : string -> string -> Z) : M unit :=
  query_title <- get_valid_string "Please input title to search for ";;
  search_results <- retrieve_similar_titles score query_title "";;
  match search_results with
  | [] => print ("No results for query " ++ query_title ++ " found")%string
  | _ :: _ =>
      print "-Best Results-";;
      print_all (map result_card search_results)
  end.

Definition search_menu : string :=
  (nl ++ "    --Search Options--" ++ nl
      ++ "    1. Search by ID" ++ nl
      ++ "    2. Search by title" ++ nl
      ++ "    0. Return to main menu" ++ nl)%string.

(** [search_book()] *)
Definition search_book (score : string -> string -> Z) : M unit :=
  print search_menu;;
  search_option <- get_valid_option_input 3;;
  if search_option =? 1 then
    print "--Searching by ID";;
    search_by_id
  else if search_option =? 2 then
    print "--Searching by Title";;
    search_by_title score
  else ret tt.

(** ** The main menu *)

Definition main_menu : string :=
  (nl ++ "--Welcome to BookShelf Database Manager---" ++ nl
      ++ "    Select an Option Below:" ++ nl
      ++ "    1. Enter Book" ++ nl
      ++ "    2. Update Book" ++ nl
      ++ "    3. Delete Book" ++ nl
      ++ "    4. Search Book" ++ nl
      ++ "    5. View Details of All Books" ++ nl
      ++ "    0. Exit      " ++ nl)%string.

(** The cases 1 to 5 of the [match menu_selection] of the main loop. *)
Definition menu_case (score : string -> string -> Z) (menu_selection : Z)
  : M unit :=
  if menu_selection =? 1 then
    print "---ENTERING NEW BOOK---";;
    add_book score
  else if menu_selection =? 2 then
    print "---UPDATING BOOK---";;
    update_book score
  else if menu_selection =? 3 then
    print "---DELETE BOOK---";;
    delete_book
  else if menu_selection =? 4 then
    print "---SEARCH---";;
    search_book score
  else if menu_selection =? 5 then
    print "---VIEWING ALL BOOKS---";;
    view_all_books
  else ret tt.

(** The [while True:] loop at the end of the file, run for at most
    [turns] turns: [None] when the turns are used up before the loop
    ends, by the selection 0 or by an exception. *)
Fixpoint main_loop (score : string -> string -> Z) (turns : nat) (s : state)
  : option (result unit * state * list event) :=
  match turns with
  | O => None
  | S turns' =>
      match (print main_menu;; get_valid_option_input 6) s with
      | (Raise e, s1, e1) => Some (Raise e, s1, e1)
      | (Ok menu_selection, s1, e1) =>
          if menu_selection =? 0 then Some (Ok tt, s1, e1)
          else
            match menu_case score menu_selection s1 with
            | (Raise e, s2, e2) => Some (Raise e, s2, e1 ++ e2)
            | (Ok _, s2, e2) =>
                match main_loop score turns' s2 with
                | Some (r, s3, e3) => Some (r, s3, e1 ++ e2 ++ e3)
                | None => None
                end
            end
      end
  end.

(** Every turn reads a line, so one turn more than there are lines is
    enough. *)
Definition main (score : string -> string -> Z) (s : state)
  : option (result unit * state * list event) :=
  main_loop score (S (List.length (stdin s))) s.

(** ** Sequences of catalogue operations

    The three entries of the main menu that write to the tables. *)

Inductive operation := EnterBook | UpdateBookEntry | DeleteBookEntry.

Definition run_operation (score : string -> string -> Z) (o : operation)
  : M unit :=
  match o with
  | EnterBook => add_book score
  | UpdateBookEntry => update_book score
  | DeleteBookEntry => delete_book
  end.

Fixpoint run_operations (score : string -> string -> Z) (ops : list operation)
  : M unit :=
  match ops with
  | [] => ret tt
  | o :: rest => run_operation score o;; run_operations score rest
  end.

(** ** Invariants, traces and summaries of runs *)

(** I1: every book points at an author row. *)
Definition I1 (d : database) : Prop :=
  forall b, In b (book d) -> exists a, In a (author d) /\ a_id a = b_authorID b.

(** I2: every author row is pointed at by a book. *)
Definition I2 (d : database) : Prop :=
  forall a, In a (author d) -> exists b, In b (book d) /\ b_authorID b = a_id a.

(** The primary key of [book], which the engine keeps unique. *)
Definition book_keys (d : database) : Prop := NoDup (map b_id (book d)).

(** The number of books that point at an author. *)
Definition book_count (author_id : Z) (d : database) : nat :=
  List.length (filter (fun b => b_authorID b =? author_id) (book d)).

(** The statements of a run, with the boolean each returned. *)
Fixpoint execs (evs : list event) : list (statement * bool) :=
  match evs with
  | [] => []
  | Exec q ok :: rest => (q, ok) :: execs rest
  | _ :: rest => execs rest
  end.

(** The prompts a run got an answer to. *)
Fixpoint prompts (evs : list event) : list string :=
  match evs with
  | [] => []
  | Input p _ :: rest => p :: prompts rest
  | _ :: rest => prompts rest
  end.

(** Every statement of the run went through. *)
Definition store_ok (evs : list event) : Prop :=
  forall q ok, In (q, ok) (execs evs) -> ok = true.

(** The user answered no at [prompt]. *)
Definition declined (prompt : string) (evs : list event) : Prop :=
  exists l, In (Input prompt l) evs /\ lower (text l) = "n".

(** A computation that leaves the tables alone, sends no statement and
    asks only at prompts in [P]. *)
Definition reads_only {A} (P : string -> Prop) (m : M A) : Prop :=
  forall s r s' evs,
    m s = (r, s', evs) ->
    db s' = db s /\ execs evs = [] /\ Forall P (prompts evs).

(** The prompts of [add_author]. *)
Definition add_author_prompts : list string :=
  ["Please input author name ";
   "Do you wish to use an existing author?  y/n ";
   "Select an option by number ";
   "Please input authors country of origin ";
   valid_id_prompt "author"].

Definition is_insert_author (q : statement) : Prop :=
  match q with
  | InsertAuthor _ _ _ => True
  | _ => False
  end.

(** What a run of [add_author] from the tables [d] comes to: an
    existing author, a new row, or a failed insert. *)
Definition author_step (d : database) (r : result (option Z))
    (d' : database) (evs : list event) : Prop :=
  book d' = book d
  /\ Forall (fun p => In p add_author_prompts) (prompts evs)
  /\ ((author d' = author d /\ execs evs = [] /\ r <> Ok None
       /\ forall id, r = Ok (Some id) -> has_author id d = true)
      \/ (exists id name country,
             execs evs = [(InsertAuthor id name country, true)]
             /\ author d' = author d ++ [Author id name country]
             /\ has_author id d = false
             /\ r = Ok (Some id))
      \/ (exists q,
             execs evs = [(q, false)] /\ is_insert_author q
             /\ d' = d /\ r = Ok None)).

Definition confirm_reassign : string := "Continue with author ID change? y/n ".
Definition confirm_delete : string := "Continue deleting? y/n ".

(** The four ways the two statements of a reassignment can end, from the
    tables [d] in which the update is sent: the update failed; it went
    through and no orphan was due; the orphan was removed; its removal
    failed. *)
Definition reassign_tail (book_id new_id current_auth_id : Z)
    (current_auth_name current_auth_country : string) (orphan : bool)
    (d : database) (tail : list event) (d' : database) : Prop :=
  (tail = [Exec (UpdateBookAuthor new_id book_id) false; QueryFailed;
           Print author_id_error_msg]
   /\ d' = d)
  \/ (orphan = false
      /\ tail = [Exec (UpdateBookAuthor new_id book_id) true;
                 Print "Author ID changed successfully"]
      /\ d' = reassign_book new_id book_id d)
  \/ (orphan = true
      /\ tail = [Exec (UpdateBookAuthor new_id book_id) true;
                 Exec (DeleteAuthor current_auth_id) true;
                 Print (orphan_removed_msg current_auth_name
                                           current_auth_country);
                 Print "Author ID changed successfully"]
      /\ d' = remove_author current_auth_id (reassign_book new_id book_id d))
  \/ (orphan = true
      /\ tail = [Exec (UpdateBookAuthor new_id book_id) true;
                 Exec (DeleteAuthor current_auth_id) false; QueryFailed;
                 Print orphan_not_removed_msg;
                 Print "Author ID changed successfully"]
      /\ d' = reassign_book new_id book_id d).

(** What a run of [update_author_id] from the tables [d] comes to:
    nothing sent; only a failed insert of the new author; or the two
    statements of the reassignment, sent after a part [pre] of the run
    in which the orphan check was made on [d], the confirmation was not
    declined and at most the new author was inserted. *)
Definition reassign_summary (book_id current_auth_id : Z)
    (current_auth_name current_auth_country : string)
    (d : database) (d' : database) (evs : list event) : Prop :=
  (d' = d /\ execs evs = [])
  \/ (d' = d /\ ~ declined confirm_reassign evs
      /\ exists q, execs evs = [(q, false)] /\ is_insert_author q)
  \/ (exists new_id d1 pre tail,
         evs = pre ++ tail
         /\ ~ declined confirm_reassign pre
         /\ book d1 = book d
         /\ has_author new_id d1 = true
         /\ ((author d1 = author d /\ execs pre = [])
             \/ (exists name country,
                    author d1 = author d ++ [Author new_id name country]
                    /\ execs pre = [(InsertAuthor new_id name country, true)]))
         /\ reassign_tail book_id new_id current_auth_id
                          current_auth_name current_auth_country
                          (book_count current_auth_id d <? 2)%nat
                          d1 tail d').

Definition is_insert_book (q : statement) : Prop :=
  match q with
  | InsertBook _ _ _ _ => True
  | _ => False
  end.

(** What a run of [add_book] from the tables [d] comes to, [xs] being
    the statements it sent: none; only a failed insert of the author; or
    an author [aid] that is in the tables [d1] (found there, or just
    inserted), after which the run raised, or inserted the book, or
    failed to. *)
Definition enter_summary (d : database) (r : result unit) (d' : database)
    (xs : list (statement * bool)) : Prop :=
  (d' = d /\ xs = [])
  \/ (d' = d /\ exists q, xs = [(q, false)] /\ is_insert_author q)
  \/ (exists aid d1 pre,
         book d1 = book d
         /\ has_author aid d1 = true
         /\ ((author d1 = author d /\ pre = [])
             \/ (exists name country,
                    author d1 = author d ++ [Author aid name country]
                    /\ pre = [(InsertAuthor aid name country, true)]))
         /\ ((d' = d1 /\ xs = pre /\ exists x, r = Raise x)
             \/ (exists bid title qty,
                    xs = pre ++ [(InsertBook bid title aid qty, true)]
                    /\ apply_statement (InsertBook bid title aid qty) d1
                       = Some d')
             \/ (exists bid title qty,
                    xs = pre ++ [(InsertBook bid title aid qty, false)]
                    /\ d' = d1))).

(** Two states of the tables with the same keys and the same links from
    books to authors. *)
Definition same_links (d d' : database) : Prop :=
  map b_id (book d') = map b_id (book d)
  /\ map b_authorID (book d') = map b_authorID (book d)
  /\ map a_id (author d') = map a_id (author d).

(** A computation that changes neither keys nor links. *)
Definition links_only {A} (m : M A) : Prop :=
  forall s r s' evs, m s = (r, s', evs) -> same_links (db s) (db s').

(** The statements that write a title, a quantity, a name or a country. *)
Definition harmless (q : statement) : Prop :=
  match q with
  | UpdateBookQty _ _ | UpdateBookTitle _ _
  | UpdateAuthorName _ _ | UpdateAuthorCountry _ _ => True
  | _ => False
  end.

Definition writes_quantity (q : statement) : Prop :=
  match q with
  | UpdateBookQty _ _ => True
  | _ => False
  end.

(** A computation all of whose statements are in [Q]. *)
Definition sends {A} (Q : statement -> Prop) (m : M A) : Prop :=
  forall s r s' evs,
    m s = (r, s', evs) -> forall q ok, In (q, ok) (execs evs) -> Q q.

(** The four ways the two statements of a deletion can end. *)
Definition delete_tail (row : joined_row) (orphan : bool)
    (d : database) (tail : list event) (d' : database) : Prop :=
  let book_id := b_id (fst row) in
  let title := b_title (fst row) in
  let author_id := a_id (snd row) in
  (tail = [Print "Deleting Selected book"; Exec (DeleteBook book_id) false;
           QueryFailed; Print (delete_error_msg title)]
   /\ d' = d)
  \/ (orphan = false
      /\ tail = [Print "Deleting Selected book";
                 Exec (DeleteBook book_id) true;
                 Print (book_deleted_msg title)]
      /\ d' = remove_book book_id d)
  \/ (orphan = true
      /\ tail = [Print "Deleting Selected book";
                 Exec (DeleteBook book_id) true;
                 Exec (DeleteAuthor author_id) true;
                 Print (both_deleted_msg row)]
      /\ d' = remove_author author_id (remove_book book_id d))
  \/ (orphan = true
      /\ tail = [Print "Deleting Selected book";
                 Exec (DeleteBook book_id) true;
                 Exec (DeleteAuthor author_id) false; QueryFailed;
                 Print (orphan_created_msg title)]
      /\ d' = remove_book book_id d).

(** What a run of [delete_book] from the tables [d] comes to: nothing
    sent, or the statements of the deletion of a joined row of [d], sent
    after a part [pre] of the run that sent nothing and in which the
    confirmation was not declined. *)
Definition delete_summary (d : database) (r : result unit) (d' : database)
    (evs : list event) : Prop :=
  (d' = d /\ execs evs = [])
  \/ (exists row pre tail,
         evs = pre ++ tail
         /\ execs pre = []
         /\ ~ declined confirm_delete pre
         /\ In row (select_book_join_author d)
         /\ r = Ok tt
         /\ delete_tail row (book_count (a_id (snd row)) d <? 2)%nat
                        d tail d').

(** A list of scores in which none is followed by a greater one. *)
Fixpoint descending (l : list Z) : Prop :=
  match l with
  | [] => True
  | x :: rest => (forall y, In y rest -> y <= x) /\ descending rest
  end.

(** The author primary key, which the engine keeps unique. *)
Definition author_keys (d : database) : Prop := NoDup (map a_id (author d)).

(** A run that read a line, or ended with the lines it started with. *)
Definition consumes {A} (m : M A) : Prop :=
  forall s r s' evs,
    m s = (r, s', evs) ->
    (List.length (stdin s') <= List.length (stdin s))%nat.

(** *** Example data *)

Definition answer (t : string) : line := Line t None.
Definition number (z : Z) : line := Line (str z) (Some z).

(** The catalogue of the cascade examples: one book and its author. *)
Definition one_book : database :=
  Database [Book 3001 "T" 1290 (Some 5)] [Author 1290 "N" "C"].

(** An author row that no book points at. *)
Definition lone_author : database :=
  Database [] [Author 1290 "N" "C"].

(** Six books by one author, under six spellings of one title. *)
Definition six_spellings : list string :=
  ["Dune"; "dune"; "DUNE"; "Dune!"; "Dune?"; "Dune."].

Definition six_books : database :=
  Database
    [Book 3001 "Dune" 1290 (Some 1); Book 3002 "dune" 1290 (Some 1);
     Book 3003 "DUNE" 1290 (Some 1); Book 3004 "Dune!" 1290 (Some 1);
     Book 3005 "Dune?" 1290 (Some 1); Book 3006 "Dune." 1290 (Some 1)]
    [Author 1290 "Frank Herbert" "USA"].

Definition dune_only : database :=
  Database [Book 3001 "Dune" 1290 (Some 1)] [Author 1290 "Frank Herbert" "USA"].

Definition dune_and_emma : database :=
  Database [Book 3001 "Dune" 1290 (Some 1); Book 3002 "Emma" 1775 (Some 2)]
           [Author 1290 "Frank Herbert" "USA"; Author 1775 "Jane Austen" "England"].

(** A session that moves book 3001 to a new author, 2000, and then
    deletes the book. *)
Definition move_then_delete : state :=
  State one_book
        [number 3001; number 3; number 2; answer "y"; answer "M";
         answer "n"; answer "D"; number 2000;
         number 3001; answer "y"; answer "y"]
        [].

(** Deleting book 3001, with both confirmations given. *)
Definition delete_confirmed : state :=
  State one_book [number 3001; answer "y"; answer "y"] [].

(** The same, with the second confirmation refused. *)
Definition delete_declined : state :=
  State one_book [number 3001; answer "y"; answer "n"] [].

(** The same as the first, with the fifth store call, the delete of the
    author, meeting an error. *)
Definition delete_author_fails : state :=
  State one_book [number 3001; answer "y"; answer "y"]
        [false; false; false; false; true].

(** Moving book 3001 to the author it already has. *)
Definition reassign_to_same : state :=
  State one_book [number 3001; number 3; number 1; number 1290; answer "y"] [].

(** Setting the stock of book 3001 to zero. *)
Definition stock_to_zero : state :=
  State one_book [number 3001; number 1; number 0] [].

(** Adding a book whose new author cannot be inserted: the third store
    call of the run, the insert of the author, meets an error. *)
Definition author_insert_fails : state :=
  State lone_author
        [answer "U"; number 3002; answer "M"; answer "n"; answer "D";
         number 2000; number 4]
        [false; false; false; false; true].

(** Moving book 3001 to a new author, 2000. *)
Definition move_to_new_author : state :=
  State one_book
        [number 3001; number 3; number 2; answer "y"; answer "M";
         answer "n"; answer "D"; number 2000]
        [].

(** A whole session: the stock of book 3001 is set to 7, the books are
    listed, book 3002 is deleted together with its author, and the
    session is left. *)
Definition a_session : state :=
  State dune_and_emma
        [number 2; number 3001; number 1; number 7;
         number 5;
         number 3; number 3002; answer "y"; answer "y";
         number 0]
        [].

(** A book whose author row is missing, and the user asking for it. *)
Definition dangling_book : state :=
  State (Database [Book 3001 "T" 1290 (Some 5)] []) [number 3001] [].

(** Renaming book 3001 to a title that resembles no other. *)
Definition rename_to_new_title : state :=
  State dune_and_emma [answer "Dune Messiah"] [].

(** A slip of the finger before the new stock of a book. *)
Definition stock_after_mistake : state :=
  State one_book [answer "seven"; number 7] [].

(** A search by title, for Emma. *)
Definition search_for_emma : state :=
  State dune_and_emma [number 2; answer "Emma"] [].

(** A new author, M from D, under the id 2000. *)
Definition new_author_m : state :=
  State one_book [answer "M"; answer "D"; number 2000] [].

(** Renaming author 1290, with the confirmation given. *)
Definition rename_author : state :=
  State one_book [answer "y"; answer "Frank"] [].

(** Moving book 3001 to a new author, 2000, from the menu of
    [update_author_id] on; the sixth store call, the delete of author
    1290, meets an error. *)
Definition move_delete_fails : state :=
  State one_book
        [number 2; answer "y"; answer "M"; answer "n"; answer "D"; number 2000]
        [false; false; false; false; false; true].

(** Moving book 3001 to the author it already has, with the sixth
    store call, the delete of author 1290, meeting an error. *)
Definition reassign_to_same_delete_fails : state :=
  State one_book [number 3001; number 3; number 1; number 1290; answer "y"]
        [false; false; false; false; false; true].

(** A scorer for the examples that ranks the second title of the
    catalogue above the first: 95 for Emma, 91 for every other title. *)
Definition prefers_emma (query choice : string) : Z :=
  if (choice =? "Emma")%string then 95 else 91.

(** A scorer for the examples: 100 for the query itself, 0 otherwise. *)
Definition same_or_nothing (query choice : string) : Z :=
  if (query =? choice)%string then 100 else 0.

(** A scorer for the examples: 100 for every pair. *)
Definition always_100 (query choice : string) : Z := 100.

(** ** Tactics *)

Ltac inv H := inversion H; subst; clear H.

(** * Properties *)

(** ** Runs of composed computations *)

Lemma bind_inv {A B} (m : M A) (k : A -> M B) s r s' evs :
  bind m k s = (r, s', evs) ->
  (exists a s1 e1 e2,
      m s = (Ok a, s1, e1) /\ k a s1 = (r, s', e2) /\ evs = e1 ++ e2)
  \/ (exists e, m s = (Raise e, s', evs) /\ r = Raise e).
Proof.
  unfold bind. destruct (m s) as [[[a | e] s1] e1].
  - destruct (k a s1) as [[r2 s2] e2] eqn:Hk. intros H. inv H.
    left. exists a, s1, e1, e2. auto.
  - intros H. inv H. right. exists e. auto.
Qed.

Lemma execs_app e1 e2 : execs (e1 ++ e2) = execs e1 ++ execs e2.
Proof.
  induction e1 as [| [] e1 IH]; simpl; auto. now rewrite IH.
Qed.

Lemma prompts_app e1 e2 : prompts (e1 ++ e2) = prompts e1 ++ prompts e2.
Proof.
  induction e1 as [| [] e1 IH]; simpl; auto. now rewrite IH.
Qed.

Lemma In_execs q ok evs : In (q, ok) (execs evs) <-> In (Exec q ok) evs.
Proof.
  induction evs as [| e evs IH]; simpl; [tauto |].
  destruct e; simpl; rewrite IH; split; intros H;
    try (destruct H as [H | H]; [discriminate H || inv H; auto | auto]);
    auto.
Qed.

Lemma In_prompts p l evs : In (Input p l) evs -> In p (prompts evs).
Proof.
  induction evs as [| e evs IH]; simpl; [tauto |].
  intros [H | H].
  - subst e. simpl. auto.
  - destruct e; simpl; auto.
Qed.

Lemma declined_app p e1 e2 :
  declined p (e1 ++ e2) <-> declined p e1 \/ declined p e2.
Proof.
  unfold declined. split.
  - intros (l & Hin & Hl). apply in_app_or in Hin.
    destruct Hin; [left | right]; eauto.
  - intros [(l & Hin & Hl) | (l & Hin & Hl)]; exists l; split; auto;
      apply in_or_app; auto.
Qed.

Lemma declined_asked p evs : declined p evs -> In p (prompts evs).
Proof. intros (l & Hin & _). eapply In_prompts; eauto. Qed.

Lemma store_ok_app e1 e2 : store_ok (e1 ++ e2) <-> store_ok e1 /\ store_ok e2.
Proof.
  unfold store_ok. rewrite execs_app. split.
  - intros H. split; intros q ok Hin; apply (H q ok); apply in_or_app; auto.
  - intros [H1 H2] q ok Hin. apply in_app_or in Hin. destruct Hin; eauto.
Qed.

Lemma store_ok_quiet evs : execs evs = [] -> store_ok evs.
Proof. unfold store_ok. intros -> q ok []. Qed.

(** ** Computations that only read *)

Lemma reads_only_weaken {A} (P Q : string -> Prop) (m : M A) :
  (forall p, P p -> Q p) -> reads_only P m -> reads_only Q m.
Proof.
  intros HPQ Hm s r s' evs H. destruct (Hm _ _ _ _ H) as (Hd & He & Hp).
  repeat split; auto. eapply Forall_impl; eauto.
Qed.

Lemma reads_only_ret {A} P (a : A) : reads_only P (ret a).
Proof. intros s r s' evs H. inv H. simpl. auto. Qed.

Lemma reads_only_raise {A} P e : reads_only P (@raise A e).
Proof. intros s r s' evs H. inv H. simpl. auto. Qed.

Lemma reads_only_print P msg : reads_only P (print msg).
Proof. intros s r s' evs H. inv H. simpl. auto. Qed.

Lemma reads_only_print_all P msgs : reads_only P (print_all msgs).
Proof.
  intros s r s' evs H. inv H. split; auto.
  induction msgs; simpl; auto.
Qed.

Lemma reads_only_bind {A B} P (m : M A) (k : A -> M B) :
  reads_only P m -> (forall a, reads_only P (k a)) -> reads_only P (bind m k).
Proof.
  intros Hm Hk s r s' evs H. apply bind_inv in H.
  destruct H as [(a & s1 & e1 & e2 & H1 & H2 & ->) | (e & H1 & ->)].
  - destruct (Hm _ _ _ _ H1) as (Hd1 & He1 & Hp1).
    destruct (Hk a _ _ _ _ H2) as (Hd2 & He2 & Hp2).
    rewrite execs_app, prompts_app, He1, He2. repeat split.
    + congruence.
    + apply Forall_app. auto.
  - apply (Hm _ _ _ _ H1).
Qed.

Lemma reads_only_retrieve {A} P (rows : database -> list A) :
  reads_only P (retrieve_sqlite_query rows).
Proof.
  intros s r s' evs H. unfold retrieve_sqlite_query, next_fault in H.
  destruct (faults s) as [| [] fs]; inv H; simpl; auto.
Qed.

Lemma reads_only_iterable {A} P (data : option (list A)) :
  reads_only P (iterable data).
Proof.
  destruct data; [apply reads_only_ret | apply reads_only_raise].
Qed.

Lemma reads_only_first_row {A} P (data : option (list A)) :
  reads_only P (first_row data).
Proof.
  destruct data as [[| r rows] |]; simpl;
    auto using reads_only_ret, reads_only_raise.
Qed.

Create HintDb reads.
#[local] Hint Resolve reads_only_ret reads_only_raise reads_only_print
  reads_only_print_all reads_only_retrieve reads_only_iterable
  reads_only_first_row : reads.

(** Breaks a goal [reads_only P m] along the shape of [m]. *)
Ltac reads :=
  repeat first
    [ apply reads_only_bind; [| intros ?]
    | progress eauto with reads
    | match goal with
      | |- reads_only _ (if ?b then _ else _) => destruct b
      | |- reads_only _ (match ?x with _ => _ end) => destruct x
      end ].

Lemma get_valid_option_input_reads n :
  reads_only (fun p => p = "Select an option by number ")
             (get_valid_option_input n).
Proof.
  intros s r s' evs. unfold get_valid_option_input.
  destruct (get_valid_option_input_from n (stdin s)) as [[r0 rest] e0] eqn:E.
  intros H. inv H. split; [reflexivity |].
  revert r rest evs E. generalize (stdin s) as lines.
  induction lines as [| l lines IH]; intros r rest evs E; simpl in E.
  - inv E. simpl. auto.
  - destruct (get_valid_option_input_from n lines) as [[r1 rest1] e1].
    destruct (IH _ _ _ eq_refl) as (He & Hp).
    destruct (int_value l) as [k |];
      [destruct ((0 <=? k) && (k <? n)) |]; inv E; simpl; auto.
Qed.

Lemma get_valid_option_input_range n s k s' evs :
  get_valid_option_input n s = (Ok k, s', evs) -> 0 <= k < n.
Proof.
  unfold get_valid_option_input.
  destruct (get_valid_option_input_from n (stdin s)) as [[r0 rest] e0] eqn:E.
  intros H. inv H.
  revert rest evs E. generalize (stdin s) as lines.
  induction lines as [| l lines IH]; intros rest evs E; simpl in E.
  - inv E.
  - destruct (get_valid_option_input_from n lines) as [[r1 rest1] e1].
    destruct (int_value l) as [k' |];
      [destruct ((0 <=? k') && (k' <? n)) eqn:Hk |].
    + inv E. lia.
    + inv E. eapply IH; eauto.
    + inv E. eapply IH; eauto.
Qed.

Lemma get_yes_no_reads p :
  reads_only (fun q => q = (p ++ " y/n ")%string) (get_yes_no p).
Proof.
  intros s r s' evs. unfold get_yes_no.
  destruct (get_yes_no_from p (stdin s)) as [[r0 rest] e0] eqn:E.
  intros H. inv H. split; [reflexivity |].
  revert r rest evs E. generalize (stdin s) as lines.
  induction lines as [| l lines IH]; intros r rest evs E; simpl in E.
  - inv E. simpl. auto.
  - destruct (get_yes_no_from p lines) as [[r1 rest1] e1].
    destruct (IH _ _ _ eq_refl) as (He & Hp).
    destruct (lower (text l) =? "y")%string;
      [| destruct (lower (text l) =? "")%string;
         [| destruct (lower (text l) =? "n")%string]];
      inv E; simpl; auto.
Qed.

(** A confirmation that came back [True] was not answered with no. *)
Lemma get_yes_no_accepted p s r s' evs :
  get_yes_no p s = (r, s', evs) ->
  r <> Ok false ->
  ~ declined (p ++ " y/n ")%string evs.
Proof.
  unfold get_yes_no.
  destruct (get_yes_no_from p (stdin s)) as [[r0 rest] e0] eqn:E.
  intros H. inv H.
  revert r rest evs E. generalize (stdin s) as lines.
  induction lines as [| l lines IH]; intros r rest evs E Hr; simpl in E.
  - inv E. intros (l & [H | []] & _). discriminate H.
  - destruct (get_yes_no_from p lines) as [[r1 rest1] e1].
    specialize (IH _ _ _ eq_refl).
    destruct (lower (text l) =? "y")%string eqn:Hy.
    { inv E. apply String.eqb_eq in Hy.
      intros (l' & [H | []] & Hl). inv H. rewrite Hy in Hl. discriminate Hl. }
    destruct (lower (text l) =? "")%string eqn:He.
    { inv E. apply String.eqb_eq in He.
      intros (l' & [H | []] & Hl). inv H. rewrite He in Hl. discriminate Hl. }
    destruct (lower (text l) =? "n")%string eqn:Hn.
    { inv E. congruence. }
    inv E. apply String.eqb_neq in Hn.
    intros (l' & [H | [H | H]] & Hl).
    + inv H. contradiction.
    + discriminate H.
    + apply (IH Hr). exists l'. auto.
Qed.

Lemma get_valid_string_reads p :
  reads_only (fun q => q = p) (get_valid_string p).
Proof.
  intros s r s' evs. unfold get_valid_string.
  destruct (get_valid_string_from p (stdin s)) as [[r0 rest] e0] eqn:E.
  intros H. inv H. split; [reflexivity |].
  revert r rest evs E. generalize (stdin s) as lines.
  induction lines as [| l lines IH]; intros r rest evs E; simpl in E.
  - inv E. simpl. auto.
  - destruct (get_valid_string_from p lines) as [[r1 rest1] e1].
    destruct (IH _ _ _ eq_refl) as (He & Hp).
    destruct (text l =? "")%string; inv E; simpl; auto.
Qed.

Lemma get_valid_integer_reads p :
  reads_only (fun q => q = p) (get_valid_integer p).
Proof.
  intros s r s' evs. unfold get_valid_integer.
  destruct (get_valid_integer_from p (stdin s)) as [[r0 rest] e0] eqn:E.
  intros H. inv H. split; [reflexivity |].
  revert r rest evs E. generalize (stdin s) as lines.
  induction lines as [| l lines IH]; intros r rest evs E; simpl in E.
  - inv E. simpl. auto.
  - destruct (get_valid_integer_from p lines) as [[r1 rest1] e1].
    destruct (IH _ _ _ eq_refl) as (He & Hp).
    destruct (int_value l); inv E; simpl; auto.
Qed.

Lemma check_id_exists_reads P table id :
  reads_only P (check_id_exists table id).
Proof. unfold check_id_exists. reads. Qed.

Lemma nonempty_filter {A} (f : A -> bool) (l : list A) :
  match filter f l with [] => false | _ :: _ => true end = existsb f l.
Proof.
  induction l as [| x l IH]; simpl; auto.
  destruct (f x); simpl; auto.
Qed.

(** A truthy answer of [check_id_exists] means the row is there. *)
Lemma check_id_exists_author id s b s' evs :
  check_id_exists "author" id s = (Ok b, s', evs) ->
  truthy b = true -> has_author id (db s) = true.
Proof.
  unfold check_id_exists. simpl. intros H Hb.
  unfold bind, retrieve_sqlite_query, next_fault, ret in H.
  destruct (faults s) as [| [] fs]; inv H; try discriminate Hb;
    unfold truthy, select_author_where_id in Hb;
    rewrite nonempty_filter in Hb; unfold has_author;
    simpl; destruct (existsb _ _); auto.
Qed.

Lemma check_id_exists_book id s b s' evs :
  check_id_exists "book" id s = (Ok b, s', evs) ->
  truthy b = true -> has_book id (db s) = true.
Proof.
  unfold check_id_exists. simpl. intros H Hb.
  unfold bind, retrieve_sqlite_query, next_fault, ret in H.
  destruct (faults s) as [| [] fs]; inv H; try discriminate Hb;
    unfold truthy, select_book_where_id in Hb;
    rewrite nonempty_filter in Hb; unfold has_book;
    simpl; destruct (existsb _ _); auto.
Qed.

(** A computation that asks nothing at all. *)
Lemma reads_only_silent {A} (m : M A) s r s' evs :
  reads_only (fun _ => False) m ->
  m s = (r, s', evs) ->
  db s' = db s /\ execs evs = [] /\ prompts evs = [].
Proof.
  intros Hm H. destruct (Hm _ _ _ _ H) as (Hd & He & Hp).
  repeat split; auto.
  destruct (prompts evs); [reflexivity | inv Hp; contradiction].
Qed.

(** Splits the result of one turn of a prompt loop into its cases. *)
Ltac loop_cases H :=
  repeat match type of H with
         | context [match int_value ?l with _ => _ end] =>
             destruct (int_value l)
         | context [if ?b then _ else _] => destruct b eqn:?
         | context [let (_, _) := ?f in _] => destruct f as [[? ?] ?] eqn:?
         | context [match ?r with Ok _ => _ | Raise _ => _ end] => destruct r
         end;
  inv H.

Ltac loop_facts IH :=
  repeat match goal with
         | E : check_id_exists _ _ _ = _ |- _ =>
             apply (reads_only_silent _ _ _ _ _
                      (check_id_exists_reads _ _ _)) in E;
             destruct E as (? & ? & ?)
         | E : _ = (_, _, _) |- _ =>
             apply IH in E; destruct E as (? & ? & ?)
         end.

Ltac loop_done :=
  simpl in *;
  repeat (progress (rewrite ?execs_app, ?prompts_app; simpl));
  repeat match goal with
         | H : execs _ = [] |- _ => rewrite H
         | H : prompts _ = [] |- _ => rewrite H
         end;
  simpl; repeat split; try congruence; auto using Forall_app.

Lemma get_valid_id_reads table :
  reads_only (fun q => q = valid_id_prompt table) (get_valid_id table).
Proof.
  unfold get_valid_id. intros s. generalize (stdin s) as lines.
  intros lines. revert s.
  induction lines as [| l lines IH]; intros s r s' evs H.
  - inv H. simpl. auto.
  - unfold get_valid_id_from in H; fold get_valid_id_from in H.
    cbv beta zeta in H.
    loop_cases H; loop_facts IH; loop_done.
Qed.

Lemma get_existing_id_reads table :
  reads_only (fun q => q = existing_id_prompt table) (get_existing_id table).
Proof.
  unfold get_existing_id. intros s. generalize (stdin s) as lines.
  intros lines. revert s.
  induction lines as [| l lines IH]; intros s r s' evs H.
  - inv H. simpl. auto.
  - unfold get_existing_id_from in H; fold get_existing_id_from in H.
    cbv beta zeta in H.
    loop_cases H; loop_facts IH; loop_done.
Qed.

(** [get_existing_id] hands back an id that is in the table. *)
Lemma get_existing_id_author s n s' evs :
  get_existing_id "author" s = (Ok n, s', evs) ->
  has_author n (db s) = true.
Proof.
  unfold get_existing_id. generalize (stdin s) as lines.
  intros lines. revert s evs.
  induction lines as [| l lines IH]; intros s evs H.
  - inv H.
  - unfold get_existing_id_from in H; fold get_existing_id_from in H.
    cbv beta zeta in H.
    loop_cases H;
      try match goal with
          | E : get_existing_id_from _ _ ?s1 = _ |- _ =>
              apply IH in E; try exact E
          end.
    + eapply check_id_exists_author in Heqp; eauto.
    + apply (reads_only_silent _ _ _ _ _ (check_id_exists_reads _ _ _)) in Heqp.
      destruct Heqp as (Hd & _). simpl in Hd. congruence.
Qed.

Lemma get_existing_id_book s n s' evs :
  get_existing_id "book" s = (Ok n, s', evs) ->
  has_book n (db s) = true.
Proof.
  unfold get_existing_id. generalize (stdin s) as lines.
  intros lines. revert s evs.
  induction lines as [| l lines IH]; intros s evs H.
  - inv H.
  - unfold get_existing_id_from in H; fold get_existing_id_from in H.
    cbv beta zeta in H.
    loop_cases H;
      try match goal with
          | E : get_existing_id_from _ _ ?s1 = _ |- _ =>
              apply IH in E; try exact E
          end.
    + eapply check_id_exists_book in Heqp; eauto.
    + apply (reads_only_silent _ _ _ _ _ (check_id_exists_reads _ _ _)) in Heqp.
      destruct Heqp as (Hd & _). simpl in Hd. congruence.
Qed.

Lemma retrieve_similar_titles_reads score P title excluded :
  reads_only P (retrieve_similar_titles score title excluded).
Proof. unfold retrieve_similar_titles. reads. Qed.

Lemma retrieve_similar_authors_reads score P name :
  reads_only P (retrieve_similar_authors score name).
Proof. unfold retrieve_similar_authors. reads. Qed.

Lemma update_creates_orphan_reads P author_id :
  reads_only P (update_creates_orphan author_id).
Proof. unfold update_creates_orphan. reads. Qed.

Lemma get_affected_books_reads P author_id :
  reads_only P (get_affected_books author_id).
Proof. unfold get_affected_books. reads. Qed.

#[local] Hint Resolve check_id_exists_reads retrieve_similar_titles_reads
  retrieve_similar_authors_reads update_creates_orphan_reads
  get_affected_books_reads : reads.

(** The value of the orphan check, and the two ways it can end. *)
Lemma update_creates_orphan_run author_id s r s' evs :
  update_creates_orphan author_id s = (r, s', evs) ->
  (r = Ok (book_count author_id (db s) <? 2)%nat /\ evs = []
   /\ faults s' = tl (faults s) /\ hd false (faults s) = false)
  \/ (r = Raise TypeError /\ evs = [FetchFailed; QueryFailed]
      /\ faults s' = tl (faults s) /\ hd false (faults s) = true).
Proof.
  unfold update_creates_orphan, bind, retrieve_sqlite_query, next_fault,
    iterable, ret, raise, book_count, select_book_id_where_authorID.
  intros H. destruct (faults s) as [| [] fs] eqn:Hf; simpl in H.
  - left. rewrite length_map in H.
    destruct (_ <? 2)%nat; inv H; simpl; auto.
  - right. inv H. simpl. auto.
  - left. rewrite length_map in H.
    destruct (_ <? 2)%nat; inv H; simpl; auto.
Qed.

(** ** Statements *)

Lemma execute_sqlite_query_run q s r s' evs :
  execute_sqlite_query q s = (r, s', evs) ->
  (r = Ok true /\ evs = [Exec q true]
   /\ apply_statement q (db s) = Some (db s'))
  \/ (r = Ok false /\ evs = [Exec q false; QueryFailed] /\ db s' = db s)
  \/ (r = Raise OverflowError /\ evs = [] /\ db s' = db s).
Proof.
  unfold execute_sqlite_query, next_fault. intros H.
  destruct (faults s) as [| [] fs]; simpl in H.
  - destruct (params_fit q); simpl in H.
    + destruct (apply_statement q (db s)) eqn:Hq; inv H; auto.
    + inv H. auto.
  - inv H. auto.
  - destruct (params_fit q); simpl in H.
    + destruct (apply_statement q (db s)) eqn:Hq; inv H; auto.
    + inv H. auto.
Qed.

(** ** Adding an author *)

(** One step of a run: either the first computation returned and the
    continuation ran, or it raised. *)
Tactic Notation "step" hyp(H) "as" ident(a) ident(s1) ident(e1) ident(Hm) :=
  apply bind_inv in H;
  destruct H as [(a & s1 & e1 & ? & Hm & H & ->) | (? & H & ->)];
  cbv beta in H.

Tactic Notation "step" hyp(H) "as" ident(a) ident(s1) ident(e1) ident(Hm)
    "then" ident(rest) :=
  apply bind_inv in H;
  destruct H as [(a & s1 & e1 & rest & Hm & H & ->) | (? & H & ->)];
  cbv beta in H.

Lemma similar_authors_in_table score name s l s' evs :
  retrieve_similar_authors score name s = (Ok l, s', evs) ->
  forall a, In a l -> In a (author (db s)).
Proof.
  unfold retrieve_similar_authors, bind, retrieve_sqlite_query, next_fault,
    iterable, ret, raise, select_all_authors.
  intros H a Ha. destruct (faults s) as [| [] fs]; simpl in H; inv H;
    simpl; apply in_flat_map in Ha; destruct Ha as (t & _ & Ha);
    destruct (75 <=? snd t); try contradiction;
    apply filter_In in Ha; tauto.
Qed.

Lemma has_author_In a d : In a (author d) -> has_author (a_id a) d = true.
Proof.
  intros H. unfold has_author. apply existsb_exists. exists a.
  split; auto. apply Z.eqb_refl.
Qed.

Lemma create_author_run name s r s' evs :
  create_author name s = (r, s', evs) ->
  book (db s') = book (db s)
  /\ Forall (fun p => In p add_author_prompts) (prompts evs)
  /\ ((author (db s') = author (db s) /\ execs evs = []
       /\ exists e, r = Raise e)
      \/ (exists id country,
             execs evs = [(InsertAuthor id name country, true)]
             /\ author (db s') = author (db s) ++ [Author id name country]
             /\ has_author id (db s) = false
             /\ r = Ok (Some id))
      \/ (exists q,
             execs evs = [(q, false)] /\ is_insert_author q
             /\ db s' = db s /\ r = Ok None)).
Proof.
  unfold create_author. intros H.
  assert (Hc : In "Please input authors country of origin " add_author_prompts)
    by (simpl; auto).
  assert (Hi : In (valid_id_prompt "author") add_author_prompts)
    by (simpl; auto 6).
  set (P := fun p => In p add_author_prompts) in *.
  step H as country s1 e1 H1.
  2:{ apply get_valid_string_reads in H. destruct H as (Hd & He & Hp).
      rewrite Hd. repeat split; auto.
      - eapply Forall_impl; [| exact Hp]. intros p ->. exact Hc.
      - left. eauto. }
  apply get_valid_string_reads in H1. destruct H1 as (Hd1 & He1 & Hp1).
  assert (Hp1' : Forall P (prompts e1))
    by (eapply Forall_impl; [| exact Hp1]; intros p ->; exact Hc).
  step H as id s2 e2 H2.
  2:{ apply get_valid_id_reads in H. destruct H as (Hd & He & Hp).
      rewrite prompts_app, execs_app, He1, He, Hd, Hd1. repeat split; auto.
      - apply Forall_app. split; auto.
        eapply Forall_impl; [| exact Hp]. intros p ->. exact Hi.
      - left. eauto. }
  apply get_valid_id_reads in H2. destruct H2 as (Hd2 & He2 & Hp2).
  assert (Hp2' : Forall P (prompts e2))
    by (eapply Forall_impl; [| exact Hp2]; intros p ->; exact Hi).
  assert (Hp12 : forall q ok, Forall P (prompts (e1 ++ e2 ++ [Exec q ok]))).
  { intros q ok. rewrite !prompts_app. simpl. rewrite app_nil_r.
    apply Forall_app. auto. }
  assert (He12 : forall q ok, execs (e1 ++ e2 ++ [Exec q ok]) = [(q, ok)]).
  { intros q ok. rewrite !execs_app, He1, He2. reflexivity. }
  assert (Hp12f : forall q ok,
             Forall P (prompts (e1 ++ e2 ++ [Exec q ok; QueryFailed]))).
  { intros q ok. rewrite !prompts_app. simpl. rewrite app_nil_r.
    apply Forall_app. auto. }
  assert (He12f : forall q ok,
             execs (e1 ++ e2 ++ [Exec q ok; QueryFailed]) = [(q, ok)]).
  { intros q ok. rewrite !execs_app, He1, He2. reflexivity. }
  step H as created s3 e3 H3.
  - apply execute_sqlite_query_run in H3.
    destruct H3 as [(Hr & -> & Hq) | [(Hr & -> & Hq) | (Hr & _)]];
      try discriminate Hr.
    + inv Hr. inv H. simpl in Hq.
      rewrite Hd2, Hd1 in Hq.
      destruct (has_author id (db s)) eqn:Hh; try discriminate Hq.
      injection Hq as Hq. rewrite <- Hq. simpl.
      rewrite He12.
      split; [reflexivity |]. split; [apply Hp12 |].
      right. left. exists id, country. auto.
    + inv Hr. inv H.
      simpl. rewrite He12f, Hq, Hd2, Hd1.
      split; [reflexivity |]. split; [apply Hp12f |].
      right. right. eexists. repeat split; eauto.
  - apply execute_sqlite_query_run in H.
    destruct H as [(Hr & _) | [(Hr & _) | (Hr & -> & Hq)]];
      try discriminate Hr.
    rewrite !prompts_app, !execs_app, He1, He2. simpl.
    rewrite app_nil_r, Hq, Hd2, Hd1.
    split; [reflexivity |]. split; [apply Forall_app; auto |].
    left. eauto.
Qed.

Lemma not_declined (P : string -> Prop) c evs :
  Forall P (prompts evs) -> ~ P c -> ~ declined c evs.
Proof.
  intros HP Hc Hd. apply declined_asked in Hd.
  rewrite Forall_forall in HP. auto.
Qed.

Lemma Forall_prompt (P : string -> Prop) p l :
  P p -> Forall (fun q => q = p) l -> Forall P l.
Proof. intros Hp H. eapply Forall_impl; [| exact H]. intros q ->. exact Hp. Qed.

(** Replaces the run of a read-only computation by what it leaves
    behind. *)
Ltac quiet H :=
  let Hd := fresh "Hd" in
  let He := fresh "He" in
  let Hp := fresh "Hp" in
  first
    [ apply get_valid_string_reads in H
    | apply get_valid_integer_reads in H
    | apply get_yes_no_reads in H
    | apply get_valid_option_input_reads in H
    | apply get_valid_id_reads in H
    | apply get_existing_id_reads in H
    | apply (retrieve_similar_titles_reads _ (fun _ => False)) in H
    | apply (retrieve_similar_authors_reads _ (fun _ => False)) in H
    | apply (update_creates_orphan_reads (fun _ => False)) in H
    | apply (get_affected_books_reads (fun _ => False)) in H
    | apply (reads_only_retrieve (fun _ => False)) in H
    | apply (reads_only_iterable (fun _ => False)) in H
    | apply (reads_only_first_row (fun _ => False)) in H
    | apply (reads_only_print (fun _ => False)) in H
    | apply (reads_only_print_all (fun _ => False)) in H
    | apply (reads_only_ret (fun _ => False)) in H
    | apply (reads_only_raise (fun _ => False)) in H ];
  destruct H as (Hd & He & Hp).

Lemma author_step_prefix d r d' e1 e2 :
  execs e1 = [] ->
  Forall (fun p => In p add_author_prompts) (prompts e1) ->
  author_step d r d' e2 ->
  author_step d r d' (e1 ++ e2).
Proof.
  intros He Hp (Hb & Hp2 & H). unfold author_step.
  rewrite prompts_app, execs_app, He. simpl.
  split; [exact Hb |]. split; [apply Forall_app; auto | exact H].
Qed.

Lemma author_step_raise d x e :
  execs e = [] ->
  Forall (fun p => In p add_author_prompts) (prompts e) ->
  author_step d (Raise x) d e.
Proof.
  intros He Hp. split; [reflexivity |]. split; [exact Hp |]. left.
  repeat split; auto; discriminate.
Qed.

Lemma create_author_step name s r s' evs :
  create_author name s = (r, s', evs) ->
  author_step (db s) r (db s') evs.
Proof.
  intros H. apply create_author_run in H. destruct H as (Hb & Hp & H).
  split; [exact Hb |]. split; [exact Hp |].
  destruct H as [(Ha & He & x & ->) | [(id & c & He & Ha & Hh & ->) | H]].
  - left. repeat split; auto; discriminate.
  - right. left. exists id, name, c. auto.
  - right. right. exact H.
Qed.

Lemma prompts_map_Print msgs : prompts (map Print msgs) = [].
Proof. induction msgs; simpl; auto. Qed.

Lemma execs_map_Print msgs : execs (map Print msgs) = [].
Proof. induction msgs; simpl; auto. Qed.

Lemma add_author_run score s r s' evs :
  add_author score s = (r, s', evs) ->
  author_step (db s) r (db s') evs.
Proof.
  unfold add_author. intros H.
  assert (Hn : In "Please input author name " add_author_prompts)
    by (simpl; auto).
  assert (Hu : In "Do you wish to use an existing author?  y/n "
                  add_author_prompts) by (simpl; auto).
  assert (Ho : In "Select an option by number " add_author_prompts)
    by (simpl; auto).
  set (P := fun p => In p add_author_prompts) in *.
  step H as name s1 e1 H1.
  { quiet H1. apply (Forall_prompt P) in Hp; [| exact Hn].
    rewrite <- Hd. apply author_step_prefix; auto.
    step H as similar s2 e2 H2.
    { pose proof (similar_authors_in_table _ _ _ _ _ _ H2) as Hin.
      quiet H2. rewrite <- Hd0. apply author_step_prefix; auto.
      { eapply Forall_impl; [| exact Hp0]. intros ? []. }
      rewrite <- Hd0 in Hin.
      destruct similar as [| a0 rest]; [now eapply create_author_step; eauto |].
      remember (a0 :: rest) as similar eqn:Hsim. clear Hsim a0 rest.
      step H as u1 s3 e3 H3; [| inv H]. inv H3.
      apply (author_step_prefix _ _ _ [_]); simpl; auto.
      step H as u2 s4 e4 H4; [| inv H]. inv H4.
      apply author_step_prefix;
        [apply execs_map_Print | rewrite prompts_map_Print; auto |].
      step H as use s5 e5 H5.
      { quiet H5. apply (Forall_prompt P) in Hp1; [| exact Hu].
        rewrite <- Hd1. apply author_step_prefix; auto.
        rewrite <- Hd1 in Hin.
        destruct use; [| now eapply create_author_step; eauto].
        step H as idx s6 e6 H6.
        { quiet H6. apply (Forall_prompt P) in Hp2; [| exact Ho].
          rewrite <- Hd2. apply author_step_prefix; auto.
          rewrite <- Hd2 in Hin.
          destruct (nth_error similar (Z.to_nat idx)) as [a |] eqn:Hnth;
            inv H.
          - split; [reflexivity |]. split; [constructor |]. left.
            repeat split; auto; try discriminate.
            intros id Hid. inv Hid. apply has_author_In. apply Hin.
            eapply nth_error_In; eauto.
          - apply author_step_raise; simpl; auto. }
        quiet H. apply (Forall_prompt P) in Hp2; [| exact Ho].
        rewrite <- Hd2. apply author_step_raise; auto. }
      quiet H. apply (Forall_prompt P) in Hp1; [| exact Hu].
      rewrite <- Hd1. apply author_step_raise; auto. }
    quiet H. rewrite <- Hd0. apply author_step_raise; auto.
    eapply Forall_impl; [| exact Hp0]. intros ? []. }
  quiet H. apply (Forall_prompt P) in Hp; [| exact Hn].
  rewrite <- Hd. apply author_step_raise; auto.
Qed.

(** ** Reassigning a book *)

Lemma database_eq d d' : book d' = book d -> author d' = author d -> d' = d.
Proof. destruct d, d'. simpl. intros -> ->. reflexivity. Qed.

Lemma not_declined_nil c : ~ declined c [].
Proof. intros (l & [] & _). Qed.

Lemma not_declined_Print c m e : ~ declined c e -> ~ declined c (Print m :: e).
Proof.
  intros H (l & [Hin | Hin] & Hl); [discriminate Hin |].
  apply H. exists l. auto.
Qed.

Lemma not_declined_app c e1 e2 :
  ~ declined c e1 -> ~ declined c e2 -> ~ declined c (e1 ++ e2).
Proof. rewrite declined_app. tauto. Qed.

Lemma not_declined_no_input c e : prompts e = [] -> ~ declined c e.
Proof. intros H Hd. apply declined_asked in Hd. rewrite H in Hd. inv Hd. Qed.

(** Shows that a part of a run holds no refusal at the prompt [c], from
    what is known of the prompts of that part. *)
Ltac undeclined :=
  match goal with
  | Hp : Forall _ (prompts ?e) |- ~ declined _ ?e =>
      apply (not_declined _ _ _ Hp);
      let Hc := fresh in
      intro Hc; vm_compute in Hc;
      first [ discriminate Hc | contradiction
            | repeat (destruct Hc as [Hc | Hc]; try discriminate Hc) ]
  | |- ~ declined _ [] => apply not_declined_nil
  | |- ~ declined _ (Print _ :: _) => apply not_declined_Print; undeclined
  end.

Lemma reassign_run book_id new_id cur name country orphan s r s' evs :
  reassign book_id new_id cur name country orphan s = (r, s', evs) ->
  reassign_tail book_id new_id cur name country orphan (db s) evs (db s').
Proof.
  unfold reassign, reassign_tail, bind, execute_sqlite_query, next_fault,
    print, ret.
  intros H. destruct s as [d l f].
  destruct f as [| f1 [| f2 fs]]; try destruct f1; try destruct f2;
    destruct orphan; simpl in H; inv H; simpl; auto 10.
Qed.

Lemma reassign_summary_prefix book_id cur name country d d' e1 e2 :
  execs e1 = [] ->
  ~ declined confirm_reassign e1 ->
  reassign_summary book_id cur name country d d' e2 ->
  reassign_summary book_id cur name country d d' (e1 ++ e2).
Proof.
  intros He Hn [(Hd & He2) | [(Hd & Hn2 & q & He2 & Hq) | H]].
  - left. rewrite execs_app, He, He2. auto.
  - right. left. split; [exact Hd |]. split.
    + apply not_declined_app; auto.
    + exists q. rewrite execs_app, He, He2. auto.
  - right. right.
    destruct H as (new_id & d1 & pre & tail & -> & Hn2 & Hb & Hh & Ha & Ht).
    exists new_id, d1, (e1 ++ pre), tail.
    split; [now rewrite app_assoc |].
    split; [apply not_declined_app; auto |].
    repeat split; auto.
    rewrite execs_app, He. exact Ha.
Qed.

Lemma reassign_summary_stop book_id cur name country d e :
  execs e = [] -> reassign_summary book_id cur name country d d e.
Proof. intros He. left. auto. Qed.

(** The reassignment itself, reached with the tables as they were. *)
Lemma reassign_summary_tail book_id new_id cur name country s r s' evs :
  has_author new_id (db s) = true ->
  reassign book_id new_id cur name country
           (book_count cur (db s) <? 2)%nat s = (r, s', evs) ->
  reassign_summary book_id cur name country (db s) (db s') evs.
Proof.
  intros Hh H. apply reassign_run in H. right. right.
  exists new_id, (db s), [], evs. repeat split; auto.
  apply not_declined_nil.
Qed.

Lemma not_add_author_prompt :
  ~ In confirm_reassign add_author_prompts.
Proof.
  intros H. vm_compute in H.
  repeat (destruct H as [H | H]; try discriminate H). exact H.
Qed.

(** The part of both paths between the orphan check and the update. *)
Lemma confirm_reassign_run name country (orphan : bool) s r s' evs :
  (if orphan
   then print (orphan_notice name country);;
        get_yes_no "Continue with author ID change?"
   else ret true) s = (r, s', evs) ->
  db s' = db s /\ execs evs = []
  /\ (r <> Ok false -> ~ declined confirm_reassign evs).
Proof.
  destruct orphan; intros H.
  - step H as u s1 e1 H1; [| inv H]. inv H1.
    pose proof (get_yes_no_accepted _ _ _ _ _ H) as Hacc.
    quiet H. simpl. repeat split; auto.
    intros Hr. apply not_declined_Print. apply Hacc. exact Hr.
  - inv H. repeat split; auto. intros _. apply not_declined_nil.
Qed.

Lemma has_author_same id d d' :
  author d' = author d -> has_author id d' = has_author id d.
Proof. unfold has_author. intros ->. reflexivity. Qed.

Lemma has_author_new id name country d d' :
  author d' = author d ++ [Author id name country] ->
  has_author id d' = true.
Proof.
  unfold has_author. intros ->. rewrite existsb_app. simpl.
  rewrite Z.eqb_refl. apply orb_true_r.
Qed.

Lemma book_count_same id d d' :
  book d' = book d -> book_count id d' = book_count id d.
Proof. unfold book_count. intros ->. reflexivity. Qed.

(** The end shared by both paths of [update_author_id]: the new author
    is known, the confirmation is behind, the update is sent. *)
Lemma reassign_after_author book_id cur name country score sa sb new_opt ea
      (k : option Z -> M value) d r s' er :
  add_author score sa = (Ok new_opt, sb, ea) ->
  db sa = d ->
  (forall new_id, k (Some new_id)
                  = reassign book_id new_id cur name country
                             (book_count cur d <? 2)%nat) ->
  k None = (print "Error generating new author, please contact system Administrator";;
            ret VNone) ->
  k new_opt sb = (r, s', er) ->
  reassign_summary book_id cur name country d (db s') (ea ++ er).
Proof.
  intros Ha Hd Hsome Hnone Hk. apply add_author_run in Ha.
  destruct Ha as (Hb & Hp & Ha). subst d.
  assert (Hn : ~ declined confirm_reassign ea).
  { apply (not_declined _ _ _ Hp). apply not_add_author_prompt. }
  destruct Ha as [(Hau & He & Hr & Hh)
                 | [(id & n & c & He & Hau & Hh & Hr) | (q & He & Hq & Hdb & Hr)]].
  - destruct new_opt as [new_id |]; [| congruence].
    rewrite Hsome in Hk. apply reassign_run in Hk.
    right. right. exists new_id, (db sb), ea, er.
    repeat split; auto.
    rewrite (has_author_same _ _ _ Hau). auto.
  - injection Hr as ->. rewrite Hsome in Hk. apply reassign_run in Hk.
    right. right. exists id, (db sb), ea, er.
    repeat split; auto.
    + eapply has_author_new; eauto.
    + right. exists n, c. auto.
  - injection Hr as ->. rewrite Hnone in Hk.
    step Hk as u s1 e1 H1; [| inv Hk]. inv H1. inv Hk.
    right. left. rewrite Hdb. split; [reflexivity |]. split.
    + apply not_declined_app; auto. simpl. undeclined.
    + exists q. rewrite execs_app, He. auto.
Qed.

Lemma print_inv msg s r s1 e :
  print msg s = (r, s1, e) -> r = Ok tt /\ s1 = s /\ e = [Print msg].
Proof. intros H. inv H. auto. Qed.

Lemma ret_inv {A} (a : A) s r s1 e :
  ret a s = (r, s1, e) -> r = Ok a /\ s1 = s /\ e = [].
Proof. intros H. inv H. auto. Qed.

Ltac printed H := apply print_inv in H; destruct H as (? & -> & ->).
Ltac returned H := apply ret_inv in H; destruct H as (-> & -> & ->).

Lemma update_author_id_run score book_id cur name country s r s' evs :
  update_author_id score book_id cur name country s = (r, s', evs) ->
  reassign_summary book_id cur name country (db s) (db s') evs.
Proof.
  unfold update_author_id. intros H.
  step H as u0 s0 e0 H0; [| inv H]. printed H0.
  apply (reassign_summary_prefix _ _ _ _ _ _ [_]);
    [reflexivity | undeclined |].
  step H as opt s1 e1 H1.
  2:{ quiet H. rewrite Hd. apply reassign_summary_stop; auto. }
  quiet H1. apply reassign_summary_prefix; [auto | undeclined |].
  destruct (opt =? 1).
  { step H as u1 s2 e2 H2; [| inv H]. printed H2.
    apply (reassign_summary_prefix _ _ _ _ _ _ [_]);
      [reflexivity | undeclined |].
    step H as new_id s3 e3 H3.
    2:{ quiet H. replace (db s') with (db s) by congruence.
        apply reassign_summary_stop; auto. }
    pose proof (get_existing_id_author _ _ _ _ H3) as Hex.
    quiet H3. apply reassign_summary_prefix; [auto | undeclined |].
    step H as orphan s4 e4 H4.
    2:{ quiet H. replace (db s') with (db s) by congruence.
        apply reassign_summary_stop; auto. }
    destruct (update_creates_orphan_run _ _ _ _ _ H4)
      as [(Hr & _) | (Hr & _)]; [| discriminate Hr].
    injection Hr as Hr. quiet H4.
    apply reassign_summary_prefix; [auto | undeclined |].
    step H as go s5 e5 H5.
    2:{ apply confirm_reassign_run in H. destruct H as (Hd2 & He2 & _).
        replace (db s') with (db s) by congruence.
        apply reassign_summary_stop; auto. }
    apply confirm_reassign_run in H5. destruct H5 as (Hd2 & He2 & Hn2).
    destruct go.
    - apply reassign_summary_prefix;
        [auto | apply Hn2; discriminate |].
      replace (db s) with (db s5) by congruence.
      eapply reassign_summary_tail with (new_id := new_id).
      + replace (db s5) with (db s1) by congruence. exact Hex.
      + replace (db s5) with (db s3) by congruence. rewrite <- Hr. exact H.
    - step H as u2 s6 e6 H6; [| inv H]. printed H6. returned H.
      replace (db s5) with (db s) by congruence.
      apply reassign_summary_stop. rewrite execs_app, He2. reflexivity. }
  destruct (opt =? 2).
  { step H as u1 s2 e2 H2; [| inv H]. printed H2.
    apply (reassign_summary_prefix _ _ _ _ _ _ [_]);
      [reflexivity | undeclined |].
    step H as orphan s4 e4 H4.
    2:{ quiet H. replace (db s') with (db s) by congruence.
        apply reassign_summary_stop; auto. }
    destruct (update_creates_orphan_run _ _ _ _ _ H4)
      as [(Hr & _) | (Hr & _)]; [| discriminate Hr].
    injection Hr as Hr. quiet H4.
    apply reassign_summary_prefix; [auto | undeclined |].
    step H as go s5 e5 H5.
    2:{ apply confirm_reassign_run in H. destruct H as (Hd2 & He2 & _).
        replace (db s') with (db s) by congruence.
        apply reassign_summary_stop; auto. }
    apply confirm_reassign_run in H5. destruct H5 as (Hd2 & He2 & Hn2).
    destruct go.
    - apply reassign_summary_prefix;
        [auto | apply Hn2; discriminate |].
      step H as u3 s6 e6 H6; [| inv H]. printed H6.
      apply (reassign_summary_prefix _ _ _ _ _ _ [_]);
        [reflexivity | undeclined |].
      step H as new_opt s7 e7 H7.
      + eapply reassign_after_author with
          (k := fun new_opt =>
                  match new_opt with
                  | Some new_id =>
                      reassign book_id new_id cur name country orphan
                  | None =>
                      print "Error generating new author, please contact system Administrator";;
                      ret VNone
                  end); eauto.
        * congruence.
        * intros new_id. rewrite Hr.
          replace (db s1) with (db s) by congruence. reflexivity.
      + apply add_author_run in H. destruct H as (Hb & _ & Ha).
        destruct Ha as [(Hau & Hea & _)
                       | [(id & n & c & _ & _ & _ & Hx) | (q & _ & _ & _ & Hx)]];
          try discriminate Hx.
        replace (db s') with (db s)
          by (symmetry; apply database_eq; congruence).
        apply reassign_summary_stop. exact Hea.
    - step H as u2 s6 e6 H6; [| inv H]. printed H6. returned H.
      replace (db s5) with (db s) by congruence.
      apply reassign_summary_stop. rewrite execs_app, He2. reflexivity. }
  destruct (opt =? 0).
  - step H as u2 s6 e6 H6; [| inv H]. printed H6. returned H.
    rewrite Hd. apply reassign_summary_stop. reflexivity.
  - returned H. rewrite Hd. apply reassign_summary_stop. reflexivity.
Qed.

(** ** Deleting a book *)

Lemma retrieve_run {A} (rows : database -> list A) s r s1 e :
  retrieve_sqlite_query rows s = (r, s1, e) ->
  db s1 = db s /\ execs e = [] /\ prompts e = []
  /\ (r = Ok None \/ r = Ok (Some (rows (db s)))).
Proof.
  unfold retrieve_sqlite_query, next_fault. intros H.
  destruct (faults s) as [| [] fs]; inv H; simpl; auto.
Qed.

Lemma first_row_run {A} (rows : list A) s row s1 e :
  first_row (Some rows) s = (Ok row, s1, e) ->
  In row rows /\ s1 = s /\ e = [].
Proof.
  destruct rows as [| r0 rows]; simpl; intros H; inv H. simpl. auto.
Qed.

Lemma joined_where_id id d row :
  In row (select_book_join_author_where_id id d) ->
  In row (select_book_join_author d) /\ b_id (fst row) = id.
Proof.
  unfold select_book_join_author_where_id. intros H.
  apply filter_In in H. destruct H as (H & Hid). split; auto.
  apply Z.eqb_eq. exact Hid.
Qed.

Lemma delete_summary_prefix d r d' e1 e2 :
  execs e1 = [] ->
  ~ declined confirm_delete e1 ->
  delete_summary d r d' e2 ->
  delete_summary d r d' (e1 ++ e2).
Proof.
  intros He Hn [(Hd & He2) | H].
  - left. rewrite execs_app, He, He2. auto.
  - right. destruct H as (row & pre & tail & -> & Hp & Hn2 & Hrow & Hr & Ht).
    exists row, (e1 ++ pre), tail.
    split; [now rewrite app_assoc |].
    split; [rewrite execs_app, He, Hp; reflexivity |].
    split; [apply not_declined_app; auto |]. auto.
Qed.

Lemma delete_summary_stop d r e : execs e = [] -> delete_summary d r d e.
Proof. intros He. left. auto. Qed.

(** The statements of [delete_book], from the line that announces them. *)
Lemma delete_tail_run row (orphan : bool) s r s' e :
  (print "Deleting Selected book";;
   delete_successful <- execute_sqlite_query (DeleteBook (b_id (fst row)));;
   if delete_successful then
     if orphan then
       orphan_deleted <-
         execute_sqlite_query (DeleteAuthor (a_id (snd row)));;
       if orphan_deleted
       then print (both_deleted_msg row)
       else print (orphan_created_msg (b_title (fst row)))
     else print (book_deleted_msg (b_title (fst row)))
   else print (delete_error_msg (b_title (fst row)))) s = (r, s', e) ->
  r = Ok tt /\ delete_tail row orphan (db s) e (db s').
Proof.
  unfold delete_tail, bind, execute_sqlite_query, next_fault, print, ret.
  intros H. destruct s as [d l f].
  destruct f as [| f1 [| f2 fs]]; try destruct f1; try destruct f2;
    destruct orphan; simpl in H; inv H; simpl; auto 10.
Qed.

(** The confirmation of [delete_book] that comes with the orphan check. *)
Lemma confirm_delete_run row (orphan : bool) s r s' evs :
  (if orphan
   then print (delete_notice row);; get_yes_no "Continue deleting?"
   else ret true) s = (r, s', evs) ->
  db s' = db s /\ execs evs = []
  /\ (r <> Ok false -> ~ declined confirm_delete evs).
Proof.
  destruct orphan; intros H.
  - step H as u s1 e1 H1; [| inv H]. printed H1.
    pose proof (get_yes_no_accepted _ _ _ _ _ H) as Hacc.
    quiet H. simpl. repeat split; auto.
    intros Hr. apply not_declined_Print. apply Hacc. exact Hr.
  - returned H. repeat split; auto. intros _. apply not_declined_nil.
Qed.

Lemma delete_book_run s r s' evs :
  delete_book s = (r, s', evs) ->
  delete_summary (db s) r (db s') evs.
Proof.
  unfold delete_book. intros H.
  step H as target s1 e1 H1.
  2:{ quiet H. rewrite Hd. apply delete_summary_stop; auto. }
  quiet H1. apply delete_summary_prefix; [auto | undeclined |].
  step H as fetched s2 e2 H2.
  2:{ quiet H. replace (db s') with (db s) by congruence.
      apply delete_summary_stop; auto. }
  apply retrieve_run in H2. destruct H2 as (Hd2 & He2 & Hp2 & Hf).
  apply delete_summary_prefix;
    [auto | now apply not_declined_no_input |].
  step H as row s3 e3 H3.
  2:{ quiet H. replace (db s') with (db s) by congruence.
      apply delete_summary_stop; auto. }
  destruct Hf as [Hf | Hf]; injection Hf as ->; [inv H3 |].
  apply first_row_run in H3. destruct H3 as (Hrow & -> & ->).
  apply joined_where_id in Hrow. destruct Hrow as (Hrow & Hid).
  replace (db s1) with (db s) in Hrow by congruence.
  simpl app.
  step H as u1 s4 e4 H4; [| inv H]. printed H4.
  apply (delete_summary_prefix _ _ _ [_]); [reflexivity | undeclined |].
  step H as u2 s5 e5 H5; [| inv H]. printed H5.
  apply (delete_summary_prefix _ _ _ [_]); [reflexivity | undeclined |].
  step H as sure s6 e6 H6.
  2:{ quiet H. replace (db s') with (db s) by congruence.
      apply delete_summary_stop; auto. }
  quiet H6. apply delete_summary_prefix; [auto | undeclined |].
  destruct sure.
  2:{ printed H. replace (db s6) with (db s) by congruence.
      apply delete_summary_stop. reflexivity. }
  step H as orphan s7 e7 H7.
  2:{ quiet H. replace (db s') with (db s) by congruence.
      apply delete_summary_stop; auto. }
  destruct (update_creates_orphan_run _ _ _ _ _ H7)
    as [(Hr & _) | (Hr & _)]; [| discriminate Hr].
  injection Hr as Hr. quiet H7.
  apply delete_summary_prefix; [auto | undeclined |].
  step H as go s8 e8 H8.
  2:{ apply confirm_delete_run in H. destruct H as (Hd8 & He8 & _).
      replace (db s') with (db s) by congruence.
      apply delete_summary_stop; auto. }
  apply confirm_delete_run in H8. destruct H8 as (Hd8 & He8 & Hn8).
  destruct go.
  - apply delete_tail_run in H. destruct H as (-> & Ht).
    right.
    match goal with
    | |- exists _ _ _, ?e8 ++ ?t = _ /\ _ => exists row, e8, t
    end.
    split; [reflexivity |]. split; [exact He8 |].
    split; [apply Hn8; discriminate |]. split; [exact Hrow |].
    split; [reflexivity |].
    replace (db s) with (db s8) by congruence.
    replace (book_count (a_id (snd row)) (db s8) <? 2)%nat with orphan
      by (rewrite Hr; do 2 f_equal; congruence).
    exact Ht.
  - printed H. replace (db s8) with (db s) by congruence.
    apply delete_summary_stop. rewrite execs_app, He8. reflexivity.
Qed.

(** ** The tables after a cascade *)

Lemma joined_In d row :
  In row (select_book_join_author d) ->
  In (fst row) (book d) /\ In (snd row) (author d)
  /\ b_authorID (fst row) = a_id (snd row).
Proof.
  unfold select_book_join_author. intros H.
  apply in_flat_map in H. destruct H as (b & Hb & H).
  apply in_map_iff in H. destruct H as (a & <- & Ha).
  apply filter_In in Ha. destruct Ha as (Ha & Heq).
  simpl. repeat split; auto. apply Z.eqb_eq. exact Heq.
Qed.

(** Rows picked out of a table keep distinct keys. *)
Lemma keys_of_filter (keep : book_row -> bool) (rows : list book_row) :
  NoDup (map b_id rows) -> NoDup (map b_id (filter keep rows)).
Proof.
  induction rows as [| x rows IH]; simpl; intros H; [constructor |].
  inv H. destruct (keep x); simpl; auto.
  constructor; auto. intros Hin. apply H2.
  apply in_map_iff in Hin. destruct Hin as (y & Hy & Hin).
  apply filter_In in Hin. apply in_map_iff. exists y. tauto.
Qed.

Lemma same_key_same_book d b b' :
  book_keys d -> In b (book d) -> In b' (book d) -> b_id b = b_id b' -> b = b'.
Proof.
  unfold book_keys. induction (book d) as [| x l IH]; simpl; intros Hk Hb Hb' He;
    [contradiction |].
  inv Hk. destruct Hb as [-> | Hb], Hb' as [-> | Hb']; auto.
  - exfalso. apply H1. rewrite He. apply in_map. exact Hb'.
  - exfalso. apply H1. rewrite <- He. apply in_map. exact Hb.
Qed.

(** An author with two books or more keeps one when any one book goes. *)
Lemma another_book d aid id :
  book_keys d ->
  (book_count aid d <? 2)%nat = false ->
  exists b, In b (book d) /\ b_authorID b = aid /\ b_id b <> id.
Proof.
  unfold book_keys, book_count. intros Hk Hc.
  apply Nat.ltb_ge in Hc.
  pose proof (keys_of_filter (fun b => b_authorID b =? aid) _ Hk) as Hn.
  assert (Hin : forall b, In b (filter (fun b => b_authorID b =? aid) (book d))
                          -> In b (book d) /\ b_authorID b = aid).
  { intros b Hb. apply filter_In in Hb. destruct Hb as (Hb & He).
    split; auto. apply Z.eqb_eq. exact He. }
  destruct (filter (fun b => b_authorID b =? aid) (book d)) as [| x [| y l]];
    simpl in Hc; try lia.
  destruct (Z.eq_dec (b_id x) id) as [Hx | Hx].
  - exists y. destruct (Hin y) as (Hy1 & Hy2); [simpl; auto |].
    repeat split; auto. intros Hy. inv Hn. apply H1. simpl. left. congruence.
  - exists x. destruct (Hin x) as (Hx1 & Hx2); [simpl; auto |].
    repeat split; auto.
Qed.

Lemma In_reassign_book new_id book_id d b :
  In b (book d) ->
  In (if b_id b =? book_id
      then Book (b_id b) (b_title b) new_id (b_qty b) else b)
     (book (reassign_book new_id book_id d)).
Proof.
  intros H. simpl.
  apply (in_map (fun b => if b_id b =? book_id
                          then Book (b_id b) (b_title b) new_id (b_qty b)
                          else b)) in H.
  exact H.
Qed.

Lemma book_keys_reassign new_id book_id d :
  book_keys d -> book_keys (reassign_book new_id book_id d).
Proof.
  unfold book_keys. simpl. rewrite map_map. intros H.
  erewrite map_ext; [exact H |].
  intros b. simpl. destruct (b_id b =? book_id); reflexivity.
Qed.

Lemma book_keys_remove_book id d : book_keys d -> book_keys (remove_book id d).
Proof. unfold book_keys. simpl. apply keys_of_filter. Qed.

Lemma book_keys_same d d' : book d' = book d -> book_keys d -> book_keys d'.
Proof. unfold book_keys. intros ->. auto. Qed.

(** I2 after the update of the book and, when the check said so, the
    removal of the author it pointed at. *)
Lemma I2_reassign d d1 b0 new_id :
  I2 d -> book_keys d ->
  In b0 (book d) ->
  book d1 = book d ->
  (forall a, In a (author d1) -> In a (author d) \/ a_id a = new_id) ->
  I2 (if (book_count (b_authorID b0) d <? 2)%nat
      then remove_author (b_authorID b0) (reassign_book new_id (b_id b0) d1)
      else reassign_book new_id (b_id b0) d1).
Proof.
  intros HI Hk Hb0 Hbook Hauth.
  assert (Hnew : exists b, In b (book (reassign_book new_id (b_id b0) d1))
                           /\ b_authorID b = new_id).
  { eexists. split.
    - apply In_reassign_book. rewrite Hbook. exact Hb0.
    - rewrite Z.eqb_refl. reflexivity. }
  assert (Hold : forall a, In a (author d) -> a_id a <> new_id ->
                           (a_id a = b_authorID b0 ->
                            (book_count (b_authorID b0) d <? 2)%nat = false) ->
                           exists b, In b (book (reassign_book new_id (b_id b0) d1))
                                     /\ b_authorID b = a_id a).
  { intros a Ha Hne Hcur. destruct (HI a Ha) as (b & Hb & Hba).
    destruct (Z.eq_dec (b_id b) (b_id b0)) as [He | He].
    - assert (b = b0) by (eapply same_key_same_book; eauto). subst b.
      destruct (another_book d (b_authorID b0) (b_id b0) Hk) as (b' & Hb' & Ha' & Hid');
        [auto |].
      exists b'. split; [| congruence].
      replace b' with (if b_id b' =? b_id b0
                       then Book (b_id b') (b_title b') new_id (b_qty b')
                       else b') at 1.
      + apply In_reassign_book. rewrite Hbook. exact Hb'.
      + apply Z.eqb_neq in Hid'. rewrite Hid'. reflexivity.
    - exists b. split; [| exact Hba].
      replace b with (if b_id b =? b_id b0
                      then Book (b_id b) (b_title b) new_id (b_qty b)
                      else b) at 1.
      + apply In_reassign_book. rewrite Hbook. exact Hb.
      + apply Z.eqb_neq in He. rewrite He. reflexivity. }
  destruct (book_count (b_authorID b0) d <? 2)%nat eqn:Hc; intros a Ha.
  - simpl in Ha. apply filter_In in Ha. destruct Ha as (Ha & Hne).
    apply negb_true_iff, Z.eqb_neq in Hne.
    destruct (Z.eq_dec (a_id a) new_id) as [-> | Hn]; [exact Hnew |].
    destruct (Hauth a Ha) as [Ha' | Ha']; [| contradiction].
    apply Hold; auto. intros. contradiction.
  - simpl in Ha.
    destruct (Z.eq_dec (a_id a) new_id) as [-> | Hn]; [exact Hnew |].
    destruct (Hauth a Ha) as [Ha' | Ha']; [| contradiction].
    apply Hold; auto.
Qed.

(** I2 after the deletion of the book and, when the check said so, of
    the author it pointed at. *)
Lemma I2_delete d b0 :
  I2 d -> book_keys d ->
  In b0 (book d) ->
  I2 (if (book_count (b_authorID b0) d <? 2)%nat
      then remove_author (b_authorID b0) (remove_book (b_id b0) d)
      else remove_book (b_id b0) d).
Proof.
  intros HI Hk Hb0.
  assert (Hold : forall a, In a (author d) ->
                           (a_id a = b_authorID b0 ->
                            (book_count (b_authorID b0) d <? 2)%nat = false) ->
                           exists b, In b (book (remove_book (b_id b0) d))
                                     /\ b_authorID b = a_id a).
  { intros a Ha Hcur. destruct (HI a Ha) as (b & Hb & Hba).
    destruct (Z.eq_dec (b_id b) (b_id b0)) as [He | He].
    - assert (b = b0) by (eapply same_key_same_book; eauto). subst b.
      destruct (another_book d (b_authorID b0) (b_id b0) Hk) as (b' & Hb' & Ha' & Hid');
        [auto |].
      exists b'. split; [| congruence].
      simpl. apply filter_In. split; auto.
      apply negb_true_iff, Z.eqb_neq. exact Hid'.
    - exists b. split; [| exact Hba].
      simpl. apply filter_In. split; auto.
      apply negb_true_iff, Z.eqb_neq. exact He. }
  destruct (book_count (b_authorID b0) d <? 2)%nat eqn:Hc; intros a Ha.
  - simpl in Ha. apply filter_In in Ha. destruct Ha as (Ha & Hne).
    apply negb_true_iff, Z.eqb_neq in Hne.
    apply Hold; auto. intros. contradiction.
  - simpl in Ha. apply Hold; auto.
Qed.

Lemma store_ok_failed q evs : store_ok evs -> ~ In (Exec q false) evs.
Proof.
  intros Hok Hin. apply In_execs in Hin. apply Hok in Hin. discriminate Hin.
Qed.

Lemma update_author_id_keeps score b0 name country s r s' evs :
  I2 (db s) -> book_keys (db s) ->
  In b0 (book (db s)) ->
  update_author_id score (b_id b0) (b_authorID b0) name country s
    = (r, s', evs) ->
  store_ok evs ->
  I2 (db s') /\ book_keys (db s').
Proof.
  intros HI Hk Hb0 H Hok. apply update_author_id_run in H.
  destruct H as [(-> & _) | [(-> & _) | H]]; auto.
  destruct H as (new_id & d1 & pre & tail & -> & _ & Hb & Hh & Ha & Ht).
  apply store_ok_app in Hok. destruct Hok as (_ & Hok).
  assert (Hauth : forall a, In a (author d1) ->
                            In a (author (db s)) \/ a_id a = new_id).
  { destruct Ha as [(-> & _) | (n & c & -> & _)]; intros a Hin; auto.
    apply in_app_or in Hin. destruct Hin as [Hin | [<- | []]]; auto. }
  pose proof (I2_reassign _ _ _ _ HI Hk Hb0 Hb Hauth) as HI'.
  assert (Hk1 : book_keys (reassign_book new_id (b_id b0) d1)).
  { apply book_keys_reassign. eapply book_keys_same; eauto. }
  destruct Ht as [(-> & _) | [(Ho & -> & ->) | [(Ho & -> & ->) | (_ & -> & _)]]].
  - exfalso. eapply store_ok_failed; eauto. simpl. eauto.
  - rewrite Ho in HI'. auto.
  - rewrite Ho in HI'. auto.
  - exfalso. eapply store_ok_failed; eauto. simpl. eauto.
Qed.

Lemma delete_book_keeps s r s' evs :
  I2 (db s) -> book_keys (db s) ->
  delete_book s = (r, s', evs) ->
  store_ok evs ->
  I2 (db s') /\ book_keys (db s').
Proof.
  intros HI Hk H Hok. apply delete_book_run in H.
  destruct H as [(-> & _) | H]; auto.
  destruct H as (row & pre & tail & -> & _ & _ & Hrow & _ & Ht).
  apply store_ok_app in Hok. destruct Hok as (_ & Hok).
  apply joined_In in Hrow. destruct Hrow as (Hb0 & _ & Hlink).
  pose proof (I2_delete _ _ HI Hk Hb0) as HI'. rewrite Hlink in HI'.
  pose proof (book_keys_remove_book (b_id (fst row)) _ Hk) as Hk'.
  destruct Ht as [(-> & _) | [(Ho & -> & ->) | [(Ho & -> & ->) | (_ & -> & _)]]].
  - exfalso. eapply store_ok_failed; eauto. simpl. eauto.
  - rewrite Ho in HI'. auto.
  - rewrite Ho in HI'. auto.
  - exfalso. eapply store_ok_failed; eauto. simpl. eauto.
Qed.

(** ** Adding a book *)

Lemma enter_book_run score title s r s' evs :
  enter_book score title s = (r, s', evs) ->
  enter_summary (db s) r (db s') (execs evs).
Proof.
  unfold enter_book. intros H.
  step H as bid s1 e1 H1.
  2:{ quiet H. left. auto. }
  quiet H1. rewrite execs_app, He. simpl.
  step H as new_opt s2 e2 H2 then rest.
  2:{ apply add_author_run in H. destruct H as (Hb & _ & Ha).
      destruct Ha as [(Hau & Hea & _)
                     | [(id & n & c & _ & _ & _ & Hx) | (q & _ & _ & _ & Hx)]];
        try discriminate Hx.
      left. split; [| exact Hea]. apply database_eq; congruence. }
  apply add_author_run in H2. destruct H2 as (Hb & _ & Ha).
  rewrite execs_app. rewrite Hd in *.
  assert (Hend : forall aid pre,
             new_opt = Some aid -> execs e2 = pre ->
             has_author aid (db s2) = true ->
             (author (db s2) = author (db s) /\ pre = []
              \/ (exists name country,
                     author (db s2) = author (db s) ++ [Author aid name country]
                     /\ pre = [(InsertAuthor aid name country, true)])) ->
             enter_summary (db s) r (db s') (pre ++ execs rest)).
  { intros aid pre -> Hpre Hh Hau. right. right. exists aid, (db s2), pre.
    do 3 (split; [assumption |]).
    step H as qty s3 e3 H3.
    2:{ quiet H. left. rewrite He0, app_nil_r. eauto. }
    quiet H3. rewrite execs_app, He0. simpl.
    step H as added s4 e4 H4.
    - apply execute_sqlite_query_run in H4.
      destruct H4 as [(Hr & -> & Hq) | [(Hr & -> & Hq) | (Hr & _)]];
        try discriminate Hr; injection Hr as ->; printed H.
      + right. left. exists bid, title, qty. split; [reflexivity |].
        rewrite <- Hd0. exact Hq.
      + right. right. exists bid, title, qty. split; [reflexivity |].
        congruence.
    - apply execute_sqlite_query_run in H.
      destruct H as [(Hr & _) | [(Hr & _) | (Hr & -> & Hq)]];
        try discriminate Hr.
      left. rewrite app_nil_r. split; [congruence |]. eauto. }
  destruct Ha as [(Hau & Hea & Hr & Hh)
                 | [(id & n & c & Hea & Hau & Hh & Hr) | (q & Hea & Hq & Hdb & Hr)]].
  - destruct new_opt as [aid |]; [| congruence].
    eapply Hend; eauto.
    rewrite (has_author_same _ _ _ Hau). auto.
  - injection Hr as ->.
    eapply Hend; eauto; solve [eapply has_author_new; eauto | right; eauto].
  - injection Hr as ->. printed H. rewrite Hea. simpl.
    right. left. split; [exact Hdb |]. eauto.
Qed.

Lemma add_book_run score s r s' evs :
  add_book score s = (r, s', evs) ->
  enter_summary (db s) r (db s') (execs evs).
Proof.
  unfold add_book. intros H.
  step H as title s1 e1 H1.
  2:{ quiet H. left. auto. }
  quiet H1. rewrite execs_app, He. simpl.
  step H as similar s2 e2 H2.
  2:{ quiet H. left. split; [congruence | auto]. }
  quiet H2. rewrite execs_app, He0. simpl.
  replace (db s) with (db s2) by congruence.
  destruct similar as [| t0 rest]; [now eapply enter_book_run; eauto |].
  remember (t0 :: rest) as titles eqn:Ht. clear Ht t0 rest.
  step H as u1 s3 e3 H3; [| inv H]. printed H3. simpl.
  step H as u2 s4 e4 H4; [| inv H]. quiet H4.
  rewrite execs_app, He1. simpl.
  step H as go s5 e5 H5.
  2:{ quiet H. left. split; [congruence | auto]. }
  quiet H5. rewrite execs_app, He2. simpl.
  replace (db s2) with (db s5) by congruence.
  destruct go; [now eapply enter_book_run; eauto |].
  printed H. left. auto.
Qed.

Lemma NoDup_snoc {A} (l : list A) (x : A) :
  NoDup l -> ~ In x l -> NoDup (l ++ [x]).
Proof.
  induction l as [| y l IH]; simpl; intros Hn Hx.
  - constructor; [auto | constructor].
  - inv Hn. constructor.
    + intros Hin. apply in_app_or in Hin.
      destruct Hin as [Hin | [<- | []]]; auto.
    + apply IH; auto.
Qed.

Lemma add_book_keeps score s s' evs :
  I2 (db s) -> book_keys (db s) ->
  add_book score s = (Ok tt, s', evs) ->
  store_ok evs ->
  I2 (db s') /\ book_keys (db s').
Proof.
  intros HI Hk H Hok. apply add_book_run in H. unfold store_ok in Hok.
  destruct H as [(-> & _) | [(-> & _) | H]]; auto.
  destruct H as (aid & d1 & pre & Hb & Hh & Ha & H).
  destruct H as [(_ & _ & x & Hx)
                | [(bid & t & q & Hxs & Hq) | (bid & t & q & Hxs & _)]].
  - discriminate Hx.
  - simpl in Hq. destruct (has_book bid d1) eqn:Hnew; [discriminate Hq |].
    injection Hq as <-. split.
    + intros a Hin. simpl in Hin.
      assert (Hcase : In a (author (db s)) \/ a_id a = aid).
      { destruct Ha as [(Hau & _) | (n & c & Hau & _)]; rewrite Hau in Hin; auto.
        apply in_app_or in Hin. destruct Hin as [Hin | [<- | []]]; auto. }
      destruct Hcase as [Hold | Hid].
      * destruct (HI a Hold) as (b & Hin' & Hl). exists b. split; auto.
        simpl. apply in_or_app. left. rewrite Hb. exact Hin'.
      * exists (Book bid t aid q). split; auto.
        simpl. apply in_or_app. right. simpl. auto.
    + unfold book_keys in *. simpl. rewrite map_app. simpl.
      rewrite Hb in *. apply NoDup_snoc; auto.
      intros Hin. apply in_map_iff in Hin.
      destruct Hin as (b & He & Hin).
      unfold has_book in Hnew. rewrite Hb in Hnew.
      assert (existsb (fun b => b_id b =? bid) (book (db s)) = true).
      { apply existsb_exists. exists b. split; auto. apply Z.eqb_eq. auto. }
      congruence.
  - exfalso. specialize (Hok (InsertBook bid t aid q) false).
    rewrite Hxs in Hok. discriminate Hok. apply in_or_app. right. simpl. auto.
Qed.

(** ** Statements that leave keys and links alone *)

Lemma same_links_refl d : same_links d d.
Proof. unfold same_links. auto. Qed.

Lemma same_links_trans d1 d2 d3 :
  same_links d1 d2 -> same_links d2 d3 -> same_links d1 d3.
Proof. unfold same_links. intros (? & ? & ?) (? & ? & ?). repeat split; congruence. Qed.

Lemma I2_ids d :
  I2 d <->
  (forall x, In x (map a_id (author d)) -> In x (map b_authorID (book d))).
Proof.
  unfold I2. split.
  - intros H x Hx. apply in_map_iff in Hx. destruct Hx as (a & <- & Ha).
    destruct (H a Ha) as (b & Hb & <-). apply in_map. exact Hb.
  - intros H a Ha. specialize (H (a_id a) (in_map a_id _ _ Ha)).
    apply in_map_iff in H. destruct H as (b & He & Hb). eauto.
Qed.

Lemma same_links_keeps d d' :
  same_links d d' -> I2 d -> book_keys d -> I2 d' /\ book_keys d'.
Proof.
  intros (Hb & Hl & Ha) HI Hk. split.
  - apply I2_ids. rewrite Hl, Ha. apply I2_ids. exact HI.
  - unfold book_keys. rewrite Hb. exact Hk.
Qed.

Lemma links_only_reads {A} P (m : M A) : reads_only P m -> links_only m.
Proof.
  intros Hm s r s' evs H. destruct (Hm _ _ _ _ H) as (Hd & _).
  rewrite Hd. apply same_links_refl.
Qed.

Lemma links_only_bind {A B} (m : M A) (k : A -> M B) :
  links_only m -> (forall a, links_only (k a)) -> links_only (bind m k).
Proof.
  intros Hm Hk s r s' evs H. apply bind_inv in H.
  destruct H as [(a & s1 & e1 & e2 & H1 & H2 & ->) | (e & H1 & ->)].
  - eapply same_links_trans; [eapply Hm | eapply Hk]; eauto.
  - eapply Hm; eauto.
Qed.

Lemma map_map_if {A B} (f : A -> B) (g : A -> A) (p : A -> bool) l :
  (forall x, f (g x) = f x) ->
  map f (map (fun x => if p x then g x else x) l) = map f l.
Proof.
  intros Hfg. rewrite map_map. apply map_ext.
  intros x. destruct (p x); auto.
Qed.

Lemma links_only_execute q : harmless q -> links_only (execute_sqlite_query q).
Proof.
  intros Hq s r s' evs H. apply execute_sqlite_query_run in H.
  destruct H as [(_ & _ & H) | [(_ & _ & ->) | (_ & _ & ->)]];
    try apply same_links_refl.
  destruct q; simpl in Hq; try contradiction; simpl in H;
    injection H as <-; unfold same_links; simpl;
    repeat split; auto; apply map_map_if; reflexivity.
Qed.

#[local] Hint Resolve get_yes_no_reads get_valid_string_reads
  get_valid_integer_reads get_valid_option_input_reads get_valid_id_reads
  get_existing_id_reads : reads.

Create HintDb links.

(** Breaks a goal [links_only m] along the shape of [m]. *)
Ltac links :=
  repeat first
    [ solve [auto with links]
    | apply links_only_bind; [| intros ?]
    | apply links_only_execute; exact I
    | solve [apply (links_only_reads (fun _ => False)); eauto with reads]
    | solve [eapply links_only_reads; eauto with reads]
    | match goal with
      | |- links_only (if ?b then _ else _) => destruct b
      | |- links_only (match ?x with _ => _ end) => destruct x
      end ].

Lemma update_quantity_links book_id current_quant :
  links_only (update_quantity book_id current_quant).
Proof. unfold update_quantity. links. Qed.

Lemma update_title_links score book_id current_title :
  links_only (update_title score book_id current_title).
Proof. unfold update_title. links. Qed.

Lemma update_author_name_links author_id current_name :
  links_only (update_author_name author_id current_name).
Proof. unfold update_author_name. links. Qed.

Lemma update_author_country_links author_id current_country :
  links_only (update_author_country author_id current_country).
Proof. unfold update_author_country. links. Qed.

#[local] Hint Resolve update_quantity_links update_title_links
  update_author_name_links update_author_country_links : links.

(** ** Updating a book *)

Lemma update_book_keeps score s r s' evs :
  I2 (db s) -> book_keys (db s) ->
  update_book score s = (r, s', evs) ->
  store_ok evs ->
  I2 (db s') /\ book_keys (db s').
Proof.
  unfold update_book. intros HI Hk H Hok.
  step H as target s1 e1 H1.
  2:{ quiet H. rewrite Hd. auto. }
  quiet H1. apply store_ok_app in Hok. destruct Hok as (_ & Hok).
  step H as fetched s2 e2 H2.
  2:{ quiet H. replace (db s') with (db s) by congruence. auto. }
  apply retrieve_run in H2. destruct H2 as (Hd2 & He2 & Hp2 & Hf).
  apply store_ok_app in Hok. destruct Hok as (_ & Hok).
  step H as row s3 e3 H3.
  2:{ quiet H. replace (db s') with (db s) by congruence. auto. }
  destruct Hf as [Hf | Hf]; injection Hf as ->; [inv H3 |].
  apply first_row_run in H3. destruct H3 as (Hrow & -> & ->).
  apply joined_where_id in Hrow. destruct Hrow as (Hrow & Hid).
  apply joined_In in Hrow. destruct Hrow as (Hb0 & _ & Hlink).
  simpl app in Hok.
  step H as u1 s4 e4 H4; [| inv H]. printed H4.
  apply store_ok_app in Hok. destruct Hok as (_ & Hok).
  step H as u2 s5 e5 H5; [| inv H]. printed H5.
  apply store_ok_app in Hok. destruct Hok as (_ & Hok).
  step H as u3 s6 e6 H6; [| inv H]. printed H6.
  apply store_ok_app in Hok. destruct Hok as (_ & Hok).
  step H as choice s7 e7 H7 then rest.
  2:{ quiet H. replace (db s') with (db s) by congruence. auto. }
  quiet H7. apply store_ok_app in Hok. destruct Hok as (_ & Hok).
  assert (Hs : db s7 = db s) by congruence.
  rewrite <- Hs in HI, Hk.
  assert (Hlinks : forall k : M unit,
             links_only k -> k s7 = (r, s', rest) ->
             I2 (db s') /\ book_keys (db s')).
  { intros k Lk Hk'. apply Lk in Hk'. eapply same_links_keeps; eauto. }
  destruct (choice =? 1); [eapply Hlinks; [| exact H]; links |].
  destruct (choice =? 2); [eapply Hlinks; [| exact H]; links |].
  destruct (choice =? 3).
  { step H as u4 s8 e8 H8; [| inv H]. printed H8.
    apply store_ok_app in Hok. destruct Hok as (_ & Hok).
    step H as u5 s9 e9 H9.
    - returned H. rewrite app_nil_r in Hok.
      rewrite <- Hlink in H9.
      eapply update_author_id_keeps; eauto. congruence.
    - rewrite <- Hlink in H.
      eapply update_author_id_keeps; eauto. congruence. }
  destruct (choice =? 4); [eapply Hlinks; [| exact H]; links |].
  destruct (choice =? 5); [eapply Hlinks; [| exact H]; links |].
  returned H. auto.
Qed.

(** ** Sequences of operations *)

Lemma run_operation_keeps score o s u s' evs :
  I2 (db s) -> book_keys (db s) ->
  run_operation score o s = (Ok u, s', evs) ->
  store_ok evs ->
  I2 (db s') /\ book_keys (db s').
Proof.
  intros HI Hk H Hok. destruct u. destruct o; simpl in H.
  - eapply add_book_keeps; eauto.
  - eapply update_book_keeps; eauto.
  - eapply delete_book_keeps; eauto.
Qed.

Lemma run_operations_app score ops1 ops2 s s' evs :
  run_operations score (ops1 ++ ops2) s = (Ok tt, s', evs) ->
  exists s1 e1 e2,
    run_operations score ops1 s = (Ok tt, s1, e1)
    /\ run_operations score ops2 s1 = (Ok tt, s', e2)
    /\ evs = e1 ++ e2.
Proof.
  revert s evs. induction ops1 as [| o ops1 IH]; intros s evs H; simpl in H.
  - exists s, [], evs. auto.
  - apply bind_inv in H.
    destruct H as [(u & s1 & e1 & e0 & H1 & H & ->) | (x & _ & Hx)];
      [| discriminate Hx].
    destruct u.
    destruct (IH _ _ H) as (s2 & e2 & e3 & Ha & Hb & ->).
    exists s2, (e1 ++ e2), e3. repeat split; auto.
    + simpl. unfold bind. rewrite H1, Ha. reflexivity.
    + now rewrite app_assoc.
Qed.

Lemma run_operations_keeps score ops s s' evs :
  I2 (db s) -> book_keys (db s) ->
  run_operations score ops s = (Ok tt, s', evs) ->
  store_ok evs ->
  I2 (db s') /\ book_keys (db s').
Proof.
  revert s evs. induction ops as [| o ops IH]; intros s evs HI Hk H Hok;
    simpl in H.
  - inv H. auto.
  - apply bind_inv in H.
    destruct H as [(u & s1 & e1 & e0 & H1 & H & ->) | (x & _ & Hx)];
      [| discriminate Hx].
    apply store_ok_app in Hok. destruct Hok as (Hok1 & Hok2).
    destruct (run_operation_keeps _ _ _ _ _ _ HI Hk H1 Hok1) as (HI1 & Hk1).
    eapply IH; eauto.
Qed.

(** C1 — I2 maintenance.  Take any sequence of Add Book, Update Book
    (which holds the author reassignment) and Delete Book operations,
    started in tables where every author row is referenced by a book.
    If the sequence runs to its end and every statement it sent went
    through, then after each operation of the sequence every author row
    is referenced by at least one book row. *)
Theorem I2_maintained score ops1 ops2 s s' evs :
  I2 (db s) ->
  book_keys (db s) ->
  run_operations score (ops1 ++ ops2) s = (Ok tt, s', evs) ->
  store_ok evs ->
  exists s1 e1,
    run_operations score ops1 s = (Ok tt, s1, e1) /\ I2 (db s1).
Proof.
  intros HI Hk H Hok.
  destruct (run_operations_app _ _ _ _ _ _ H) as (s1 & e1 & e2 & H1 & _ & ->).
  apply store_ok_app in Hok. destruct Hok as (Hok & _).
  exists s1, e1. split; [exact H1 |].
  eapply run_operations_keeps; eauto.
Qed.

Lemma I2_maintained_witness :
  exists s1 e1,
    run_operations always_100 [UpdateBookEntry] move_then_delete
    = (Ok tt, s1, e1)
    /\ I2 (db s1).
Proof.
  eapply (I2_maintained always_100 [UpdateBookEntry] [DeleteBookEntry]
                        move_then_delete).
  - intros a [<- | []]. exists (Book 3001 "T" 1290 (Some 5)).
    simpl. auto.
  - unfold book_keys. simpl. repeat constructor. simpl. tauto.
  - vm_compute. reflexivity.
  - intros q ok Hin. simpl in Hin.
    repeat (destruct Hin as [Hin | Hin]; [inversion Hin; reflexivity |]).
    contradiction.
Defined.

(** ** The orphan check *)

(** C3, as the code has it — [update_creates_orphan] returns true
    exactly when fewer than two books reference the author, that is
    when one book or no book does, and false when two or more do; when
    the fetch fails it raises instead of returning; it changes neither
    table and sends no statement. *)
Theorem update_creates_orphan_spec author_id s r s' evs :
  update_creates_orphan author_id s = (r, s', evs) ->
  db s' = db s
  /\ execs evs = []
  /\ ((hd false (faults s) = true /\ r = Raise TypeError)
      \/ (hd false (faults s) = false
          /\ ((r = Ok true /\ (book_count author_id (db s) < 2)%nat)
              \/ (r = Ok false /\ (2 <= book_count author_id (db s))%nat)))).
Proof.
  intros H.
  destruct (update_creates_orphan_run _ _ _ _ _ H)
    as [(Hr & _ & _ & Hf) | (Hr & _ & _ & Hf)];
    quiet H; split; auto; split; auto.
  right. split; [exact Hf |].
  destruct (book_count author_id (db s) <? 2)%nat eqn:Hc.
  - left. split; auto. apply Nat.ltb_lt. exact Hc.
  - right. split; auto. apply Nat.ltb_ge. exact Hc.
Qed.

Lemma update_creates_orphan_spec_witness :
  db (State one_book [] []) = one_book
  /\ execs [] = []
  /\ ((hd false (faults (State one_book [] [])) = true
       /\ Ok true = Raise TypeError)
      \/ (hd false (faults (State one_book [] [])) = false
          /\ ((Ok true = Ok true /\ (book_count 1290 one_book < 2)%nat)
              \/ (Ok true = Ok false /\ (2 <= book_count 1290 one_book)%nat)))).
Proof.
  apply (update_creates_orphan_spec 1290 (State one_book [] []) (Ok true)
                                    (State one_book [] []) []).
  reflexivity.
Defined.

(** C3, as the specification words it, fails: for an author that no
    book references the check returns true. *)
Lemma update_creates_orphan_true_without_books :
  ~ (forall author_id s r s' evs,
        update_creates_orphan author_id s = (r, s', evs) ->
        (r = Ok true <-> book_count author_id (db s) = 1%nat)).
Proof.
  intros H.
  specialize (H 1290 (State lone_author [] []) (Ok true)
                (State lone_author [] []) [] eq_refl).
  destruct H as (H & _). specialize (H eq_refl). discriminate H.
Qed.

(** ** The cascade *)

Lemma no_exec_in_quiet q ok evs : execs evs = [] -> ~ In (Exec q ok) evs.
Proof. intros He Hin. apply In_execs in Hin. rewrite He in Hin. inv Hin. Qed.

(** C4 — the author row is deleted only after a successful primary
    mutation and a positive orphan check.  Whenever a run of
    [update_author_id] or of [delete_book] sends [DELETE FROM author],
    the author is the book's current one, the orphan check on the
    tables the run started from was true, and the delete comes after
    the statement of the primary mutation (the update of the book's
    author id, the delete of the book), which had returned true. *)
Theorem author_delete_guarded :
  (forall score book_id cur name country s r s' evs a ok,
      update_author_id score book_id cur name country s = (r, s', evs) ->
      In (Exec (DeleteAuthor a) ok) evs ->
      a = cur
      /\ (book_count cur (db s) <? 2)%nat = true
      /\ exists new_id pre post,
          evs = pre ++ Exec (UpdateBookAuthor new_id book_id) true :: post
          /\ In (Exec (DeleteAuthor a) ok) post
          /\ ~ In (Exec (DeleteAuthor a) ok) pre)
  /\ (forall s r s' evs a ok,
         delete_book s = (r, s', evs) ->
         In (Exec (DeleteAuthor a) ok) evs ->
         exists row pre post,
           In row (select_book_join_author (db s))
           /\ a = a_id (snd row)
           /\ (book_count a (db s) <? 2)%nat = true
           /\ evs = pre ++ Exec (DeleteBook (b_id (fst row))) true :: post
           /\ In (Exec (DeleteAuthor a) ok) post
           /\ ~ In (Exec (DeleteAuthor a) ok) pre).
Proof.
  split.
  - intros score book_id cur name country s r s' evs a ok H Hin.
    apply update_author_id_run in H.
    destruct H as [(_ & He) | [(_ & _ & q & He & Hq) | H]].
    + exfalso. eapply no_exec_in_quiet; eauto.
    + exfalso. apply In_execs in Hin. rewrite He in Hin.
      destruct Hin as [Hin | []]. inv Hin. exact Hq.
    + destruct H as (new_id & d1 & pre & tail & -> & _ & _ & _ & Ha & Ht).
      assert (Hpre : ~ In (Exec (DeleteAuthor a) ok) pre).
      { intros Hp. apply In_execs in Hp.
        destruct Ha as [(_ & He) | (n & c & _ & He)]; rewrite He in Hp.
        - inv Hp.
        - destruct Hp as [Hp | []]. discriminate Hp. }
      apply in_app_or in Hin. destruct Hin as [Hin | Hin]; [contradiction |].
      destruct Ht as [(-> & _) | [(_ & -> & _) | [(Ho & -> & _) | (Ho & -> & _)]]];
        simpl in Hin;
        repeat (destruct Hin as [Hin | Hin]; try discriminate Hin);
        try contradiction;
        injection Hin as <- <-;
        (split; [reflexivity |]); (split; [exact Ho |]);
        exists new_id, pre; eexists; (split; [reflexivity |]);
        (split; [simpl; auto | exact Hpre]).
  - intros s r s' evs a ok H Hin.
    apply delete_book_run in H.
    destruct H as [(_ & He) | H].
    + exfalso. eapply no_exec_in_quiet; eauto.
    + destruct H as (row & pre & tail & -> & He & _ & Hrow & _ & Ht).
      apply in_app_or in Hin. destruct Hin as [Hin | Hin].
      { exfalso. eapply no_exec_in_quiet; eauto. }
      exists row, (pre ++ [Print "Deleting Selected book"]).
      destruct Ht as [(-> & _) | [(_ & -> & _) | [(Ho & -> & _) | (Ho & -> & _)]]];
        simpl in Hin;
        repeat (destruct Hin as [Hin | Hin]; try discriminate Hin);
        try contradiction;
        injection Hin as <- <-;
        eexists; (split; [exact Hrow |]); (split; [reflexivity |]);
        (split; [exact Ho |]);
        (split; [rewrite <- app_assoc; reflexivity |]);
        (split; [simpl; auto |]);
        intros Hp; apply in_app_or in Hp;
        (destruct Hp as [Hp | [Hp | []]];
         [eapply no_exec_in_quiet; eauto | discriminate Hp]).
Qed.

Lemma author_delete_guarded_witness :
  exists row pre post,
    In row (select_book_join_author (db delete_confirmed))
    /\ 1290 = a_id (snd row)
    /\ (book_count 1290 (db delete_confirmed) <? 2)%nat = true
    /\ snd (delete_book delete_confirmed)
       = pre ++ Exec (DeleteBook (b_id (fst row))) true :: post
    /\ In (Exec (DeleteAuthor 1290) true) post
    /\ ~ In (Exec (DeleteAuthor 1290) true) pre.
Proof.
  apply (proj2 author_delete_guarded delete_confirmed
               (fst (fst (delete_book delete_confirmed)))
               (snd (fst (delete_book delete_confirmed)))
               (snd (delete_book delete_confirmed)) 1290 true).
  - vm_compute. reflexivity.
  - vm_compute. tauto.
Defined.

(** C5 — declining the cascade confirmation aborts the operation.  If
    in a run of [update_author_id] or of [delete_book] the user answers
    no to the confirmation of the author's removal, the run sends no
    statement at all and both tables are as before: the book is neither
    reassigned nor deleted and the author row is unchanged. *)
Theorem declined_cascade_changes_nothing :
  (forall score book_id cur name country s r s' evs,
      update_author_id score book_id cur name country s = (r, s', evs) ->
      declined confirm_reassign evs ->
      db s' = db s /\ execs evs = [])
  /\ (forall s r s' evs,
         delete_book s = (r, s', evs) ->
         declined confirm_delete evs ->
         db s' = db s /\ execs evs = []).
Proof.
  split.
  - intros score book_id cur name country s r s' evs H Hdec.
    apply update_author_id_run in H.
    destruct H as [H | [(_ & Hn & _) | H]]; [exact H | contradiction |].
    destruct H as (new_id & d1 & pre & tail & -> & Hn & _ & _ & _ & Ht).
    exfalso. apply declined_app in Hdec.
    destruct Hdec as [Hdec | Hdec]; [contradiction |].
    revert Hdec. apply not_declined_no_input.
    destruct Ht as [(-> & _) | [(_ & -> & _) | [(_ & -> & _) | (_ & -> & _)]]];
      reflexivity.
  - intros s r s' evs H Hdec.
    apply delete_book_run in H.
    destruct H as [H | H]; [exact H |].
    destruct H as (row & pre & tail & -> & _ & Hn & _ & _ & Ht).
    exfalso. apply declined_app in Hdec.
    destruct Hdec as [Hdec | Hdec]; [contradiction |].
    revert Hdec. apply not_declined_no_input.
    destruct Ht as [(-> & _) | [(_ & -> & _) | [(_ & -> & _) | (_ & -> & _)]]];
      reflexivity.
Qed.

Lemma declined_cascade_changes_nothing_witness :
  db (snd (fst (delete_book delete_declined))) = db delete_declined
  /\ execs (snd (delete_book delete_declined)) = [].
Proof.
  apply (proj2 declined_cascade_changes_nothing delete_declined
               (fst (fst (delete_book delete_declined)))).
  - vm_compute. reflexivity.
  - exists (answer "n"). split; [vm_compute; tauto | reflexivity].
Defined.

Lemma only_reference d b0 b :
  In b0 (book d) ->
  (book_count (b_authorID b0) d <? 2)%nat = true ->
  In b (book d) -> b_authorID b = b_authorID b0 -> b = b0.
Proof.
  unfold book_count. intros H0 Hc Hb He. apply Nat.ltb_lt in Hc.
  assert (Hf0 : In b0 (filter (fun x => b_authorID x =? b_authorID b0) (book d)))
    by (apply filter_In; split; auto; apply Z.eqb_refl).
  assert (Hf : In b (filter (fun x => b_authorID x =? b_authorID b0) (book d)))
    by (apply filter_In; split; auto; apply Z.eqb_eq; auto).
  destruct (filter (fun x => b_authorID x =? b_authorID b0) (book d))
    as [| x [| y l]]; simpl in *; try lia; try contradiction.
  destruct Hf0 as [<- | []], Hf as [<- | []]. reflexivity.
Qed.

(** After the book that alone pointed at an author is removed, no book
    points at that author. *)
Lemma orphan_after_remove d b0 :
  In b0 (book d) ->
  (book_count (b_authorID b0) d <? 2)%nat = true ->
  book_count (b_authorID b0) (remove_book (b_id b0) d) = 0%nat.
Proof.
  intros H0 Hc. unfold book_count. simpl.
  destruct (filter _ (filter _ (book d))) as [| x l] eqn:Hf; [reflexivity |].
  exfalso.
  assert (Hx : In x (filter (fun b => b_authorID b =? b_authorID b0)
                            (filter (fun b => negb (b_id b =? b_id b0)) (book d))))
    by (rewrite Hf; simpl; auto).
  apply filter_In in Hx. destruct Hx as (Hx & Ha).
  apply filter_In in Hx. destruct Hx as (Hx & Hi).
  apply Z.eqb_eq in Ha. apply negb_true_iff, Z.eqb_neq in Hi.
  apply Hi. f_equal. eapply only_reference; eauto.
Qed.

Lemma warning_not_error title title' :
  orphan_created_msg title <> delete_error_msg title'.
Proof. unfold orphan_created_msg, delete_error_msg. simpl. discriminate. Qed.

Lemma reassign_warning_not_error :
  orphan_not_removed_msg <> author_id_error_msg.
Proof. unfold orphan_not_removed_msg, author_id_error_msg. discriminate. Qed.

(** After the only book of an author is given another author, no book
    points at the first. *)
Lemma orphan_after_reassign d d1 b0 new_id :
  In b0 (book d) -> book d1 = book d ->
  (book_count (b_authorID b0) d <? 2)%nat = true ->
  new_id <> b_authorID b0 ->
  book_count (b_authorID b0) (reassign_book new_id (b_id b0) d1) = 0%nat.
Proof.
  intros H0 Hb Hc Hne. unfold book_count. simpl. rewrite Hb.
  destruct (filter _ (map _ (book d))) as [| x l] eqn:Hf; [reflexivity |].
  exfalso.
  assert (Hx : In x (filter (fun b => b_authorID b =? b_authorID b0)
                       (map (fun b => if b_id b =? b_id b0
                                      then Book (b_id b) (b_title b) new_id
                                                (b_qty b)
                                      else b) (book d))))
    by (rewrite Hf; simpl; auto).
  apply filter_In in Hx. destruct Hx as (Hx & Ha). apply Z.eqb_eq in Ha.
  apply in_map_iff in Hx. destruct Hx as (b1 & <- & Hb1).
  destruct (b_id b1 =? b_id b0) eqn:E.
  - simpl in Ha. contradiction.
  - assert (b1 = b0) by (eapply only_reference; eauto). subst b1.
    rewrite Z.eqb_refl in E. discriminate E.
Qed.

(** C6 — the code breaks it, by the defect of C2.  What holds in every
    run: if in a run of [delete_book] or [update_author_id] the delete
    of the author row returns false, then the statement of the book had
    gone through and its effect is in the tables the run ends with,
    every author row is still there, and after the failure line the
    run prints a message of its own, which is not the message printed
    when the statement of the book fails.  The author kept is an
    orphan after [delete_book], and after [update_author_id] when the
    book was given another author than the one it had.  When the book
    is given the author it already has, the claim fails: the update
    changes nothing, the removal of the orphan is tried and reported as
    failed, and the author kept still has its book, so that no orphan
    exists and I2 holds. *)
Theorem partial_failure_reported :
  (forall s r s' evs a,
      delete_book s = (r, s', evs) ->
      In (Exec (DeleteAuthor a) false) evs ->
      exists row pre,
        In row (select_book_join_author (db s))
        /\ a = a_id (snd row)
        /\ evs = pre ++ [Exec (DeleteBook (b_id (fst row))) true;
                         Exec (DeleteAuthor a) false; QueryFailed;
                         Print (orphan_created_msg (b_title (fst row)))]
        /\ db s' = remove_book (b_id (fst row)) (db s)
        /\ In (snd row) (author (db s'))
        /\ book_count a (db s') = 0%nat
        /\ orphan_created_msg (b_title (fst row))
           <> delete_error_msg (b_title (fst row)))
  /\ (forall score book_id cur name country s r s' evs a,
         update_author_id score book_id cur name country s = (r, s', evs) ->
         In (Exec (DeleteAuthor a) false) evs ->
         exists new_id d1 pre,
           a = cur
           /\ evs = pre ++ [Exec (UpdateBookAuthor new_id book_id) true;
                            Exec (DeleteAuthor cur) false; QueryFailed;
                            Print orphan_not_removed_msg;
                            Print "Author ID changed successfully"]
           /\ book d1 = book (db s)
           /\ db s' = reassign_book new_id book_id d1
           /\ (forall x, In x (author (db s)) -> In x (author (db s')))
           /\ (forall b0,
                  In b0 (book (db s)) ->
                  b_id b0 = book_id -> b_authorID b0 = cur ->
                  new_id <> cur ->
                  book_count cur (db s') = 0%nat)
           /\ orphan_not_removed_msg <> author_id_error_msg)
  /\ (forall score,
         exists evs,
           update_book score reassign_to_same_delete_fails
           = (Ok tt, State one_book [] [], evs)
           /\ execs evs = [(UpdateBookAuthor 1290 3001, true);
                           (DeleteAuthor 1290, false)]
           /\ In (Print orphan_not_removed_msg) evs
           /\ In (Author 1290 "N" "C") (author one_book)
           /\ book_count 1290 one_book = 1%nat
           /\ I2 one_book).
Proof.
  split; [| split].
  - intros s r s' evs a H Hin.
    apply delete_book_run in H.
    destruct H as [(_ & He) | H].
    { exfalso. eapply no_exec_in_quiet; eauto. }
    destruct H as (row & pre & tail & -> & He & _ & Hrow & _ & Ht).
    apply in_app_or in Hin. destruct Hin as [Hin | Hin].
    { exfalso. eapply no_exec_in_quiet; eauto. }
    destruct (joined_In _ _ Hrow) as (Hb0 & Ha0 & Hlink).
    exists row, (pre ++ [Print "Deleting Selected book"]).
    destruct Ht as [(-> & _) | [(_ & -> & _) | [(Ho & -> & _) | (Ho & -> & ->)]]];
      simpl in Hin;
      repeat (destruct Hin as [Hin | Hin]; try discriminate Hin);
      try contradiction.
    injection Hin as <-.
    split; [exact Hrow |]. split; [reflexivity |].
    split; [rewrite <- app_assoc; reflexivity |].
    split; [reflexivity |]. split; [exact Ha0 |].
    split; [| apply warning_not_error].
    rewrite <- Hlink in *. apply orphan_after_remove; auto.
  - intros score book_id cur name country s r s' evs a H Hin.
    apply update_author_id_run in H.
    destruct H as [(_ & He) | [(_ & _ & q & He & Hq) | H]].
    { exfalso. eapply no_exec_in_quiet; eauto. }
    { exfalso. apply In_execs in Hin. rewrite He in Hin.
      destruct Hin as [Hin | []]. inv Hin. exact Hq. }
    destruct H as (new_id & d1 & pre & tail & -> & _ & Hb & _ & Ha & Ht).
    apply in_app_or in Hin. destruct Hin as [Hin | Hin].
    { exfalso. apply In_execs in Hin.
      destruct Ha as [(_ & He) | (n & c & _ & He)]; rewrite He in Hin.
      - inv Hin.
      - destruct Hin as [Hin | []]. discriminate Hin. }
    exists new_id, d1, pre.
    destruct Ht as [(-> & _) | [(_ & -> & _) | [(Ho & -> & _) | (Ho & -> & ->)]]];
      simpl in Hin;
      repeat (destruct Hin as [Hin | Hin]; try discriminate Hin);
      try contradiction.
    injection Hin as <-.
    repeat (split; [reflexivity |]). split; [exact Hb |].
    split; [reflexivity |]. split; [| split; [| apply reassign_warning_not_error]].
    + intros x Hx. simpl.
      destruct Ha as [(-> & _) | (n & c & -> & _)]; auto.
      apply in_or_app. auto.
    + intros b0 Hb0 <- <- Hne.
      apply orphan_after_reassign with (d := db s); auto.
  - intros score. eexists. split; [vm_compute; reflexivity |].
    split; [reflexivity |]. split; [vm_compute; tauto |].
    split; [simpl; auto |]. split; [reflexivity |].
    intros a [<- | []]. exists (Book 3001 "T" 1290 (Some 5)). simpl. auto.
Qed.

Lemma partial_failure_reported_witness :
  (exists row pre,
      In row (select_book_join_author (db delete_author_fails))
      /\ 1290 = a_id (snd row)
      /\ snd (delete_book delete_author_fails)
         = pre ++ [Exec (DeleteBook (b_id (fst row))) true;
                   Exec (DeleteAuthor 1290) false; QueryFailed;
                   Print (orphan_created_msg (b_title (fst row)))]
      /\ db (snd (fst (delete_book delete_author_fails)))
         = remove_book (b_id (fst row)) (db delete_author_fails)
      /\ In (snd row) (author (db (snd (fst (delete_book delete_author_fails)))))
      /\ book_count 1290 (db (snd (fst (delete_book delete_author_fails))))
         = 0%nat
      /\ orphan_created_msg (b_title (fst row))
         <> delete_error_msg (b_title (fst row)))
  /\ (exists new_id d1 pre,
         1290 = 1290
         /\ snd (update_author_id always_100 3001 1290 "N" "C"
                                  move_delete_fails)
            = pre ++ [Exec (UpdateBookAuthor new_id 3001) true;
                      Exec (DeleteAuthor 1290) false; QueryFailed;
                      Print orphan_not_removed_msg;
                      Print "Author ID changed successfully"]
         /\ book d1 = book (db move_delete_fails)
         /\ db (snd (fst (update_author_id always_100 3001 1290 "N" "C"
                                           move_delete_fails)))
            = reassign_book new_id 3001 d1
         /\ (forall x,
                In x (author (db move_delete_fails)) ->
                In x (author (db (snd (fst (update_author_id
                                              always_100 3001 1290 "N" "C"
                                              move_delete_fails))))))
         /\ (forall b0,
                In b0 (book (db move_delete_fails)) ->
                b_id b0 = 3001 -> b_authorID b0 = 1290 ->
                new_id <> 1290 ->
                book_count 1290
                  (db (snd (fst (update_author_id always_100 3001 1290 "N" "C"
                                                  move_delete_fails))))
                = 0%nat)
         /\ orphan_not_removed_msg <> author_id_error_msg)
  /\ book_count 1290
       (db (snd (fst (update_author_id always_100 3001 1290 "N" "C"
                                       move_delete_fails))))
     = 0%nat.
Proof.
  split; [| split].
  - apply (proj1 partial_failure_reported delete_author_fails
                 (fst (fst (delete_book delete_author_fails)))).
    + vm_compute. reflexivity.
    + vm_compute. tauto.
  - apply (proj1 (proj2 partial_failure_reported)
                 always_100 3001 1290 "N" "C" move_delete_fails
                 (fst (fst (update_author_id always_100 3001 1290 "N" "C"
                                             move_delete_fails)))).
    + vm_compute. reflexivity.
    + vm_compute. tauto.
  - vm_compute. reflexivity.
Defined.

(** ** Referential integrity *)

(** C2 — the code breaks it.  Book 3001 is the only book of author
    1290.  Update Book, Update Author ID, existing author, id 1290 (the
    author the book already has), confirmed: every statement goes
    through, the author row is deleted, and book 3001 is left pointing
    at an author id that is in no row of the author table. *)
Theorem reassign_to_same_author_breaks_I1 score :
  exists evs,
    update_book score reassign_to_same
    = (Ok tt, State (Database [Book 3001 "T" 1290 (Some 5)] []) [] [], evs)
    /\ execs evs = [(UpdateBookAuthor 1290 3001, true);
                    (DeleteAuthor 1290, true)]
    /\ I1 (db reassign_to_same)
    /\ I2 (db reassign_to_same)
    /\ ~ I1 (Database [Book 3001 "T" 1290 (Some 5)] []).
Proof.
  eexists. split; [vm_compute; reflexivity |].
  split; [reflexivity |]. repeat split.
  - intros b [<- | []]. exists (Author 1290 "N" "C"). simpl. auto.
  - intros a [<- | []]. exists (Book 3001 "T" 1290 (Some 5)). simpl. auto.
  - intros H. destruct (H (Book 3001 "T" 1290 (Some 5))) as (a & [] & _).
    simpl. auto.
Qed.

(** ** The duplicate detector *)

Lemma extract_ext score score' query choices :
  (forall c, In c choices -> score query c = score' query c) ->
  extract score query choices = extract score' query choices.
Proof.
  intros H. unfold extract. do 2 f_equal.
  apply map_ext_in. intros c Hc. rewrite (H c Hc). reflexivity.
Qed.

Lemma retrieve_similar_titles_ext score score' title excluded s :
  (forall b, In b (book (db s)) ->
             score title (b_title b) = score' title (b_title b)) ->
  retrieve_similar_titles score title excluded s
  = retrieve_similar_titles score' title excluded s.
Proof.
  intros H. unfold retrieve_similar_titles, bind, retrieve_sqlite_query,
    next_fault, iterable, ret, raise.
  destruct (faults s) as [| [] fs]; simpl; auto;
    rewrite (extract_ext score score'); auto;
    intros c Hc; apply in_map_iff in Hc; destruct Hc as (row & <- & Hrow);
    apply filter_In in Hrow; destruct Hrow as (Hrow & _);
    apply joined_In in Hrow; apply H; tauto.
Qed.

(** C7 — the code breaks it.  Six books carry six spellings of one
    title; every one of them scores 100 against the query and none is
    excluded.  The matcher hands back its five best candidates only, so
    five rows are returned and the row of the sixth book is not among
    them. *)
Theorem sixth_similar_title_dropped score :
  (forall t, In t six_spellings -> score "Dune" t = 100) ->
  let sixth :=
    (Book 3006 "Dune." 1290 (Some 1), Author 1290 "Frank Herbert" "USA") in
  exists rows,
    retrieve_similar_titles score "Dune" "" (State six_books [] [])
    = (Ok rows, State six_books [] [], [])
    /\ List.length rows = 5%nat
    /\ In sixth (select_book_join_author six_books)
    /\ b_title (fst sixth) <> ""
    /\ 90 <= score "Dune" (b_title (fst sixth))
    /\ ~ In sixth rows.
Proof.
  intros H sixth.
  rewrite (retrieve_similar_titles_ext score always_100).
  - eexists. split; [vm_compute; reflexivity |].
    split; [reflexivity |]. split; [vm_compute; tauto |].
    split; [discriminate |]. split.
    + rewrite H; [lia | vm_compute; tauto].
    + intros Hin. simpl in Hin.
      repeat (destruct Hin as [Hin | Hin]; [discriminate Hin |]).
      exact Hin.
  - intros b Hb. unfold always_100. apply H.
    simpl in Hb. unfold six_spellings.
    repeat (destruct Hb as [<- | Hb]; [simpl; tauto |]). contradiction.
Qed.

Lemma sixth_similar_title_dropped_witness :
  exists rows,
    retrieve_similar_titles always_100 "Dune" "" (State six_books [] [])
    = (Ok rows, State six_books [] [], [])
    /\ List.length rows = 5%nat
    /\ In (Book 3006 "Dune." 1290 (Some 1), Author 1290 "Frank Herbert" "USA")
          (select_book_join_author six_books)
    /\ "Dune." <> ""
    /\ 90 <= always_100 "Dune" "Dune."
    /\ ~ In (Book 3006 "Dune." 1290 (Some 1),
             Author 1290 "Frank Herbert" "USA") rows.
Proof.
  apply (sixth_similar_title_dropped always_100).
  intros t _. reflexivity.
Defined.

Lemma In_insert_by_score x y l :
  In y (insert_by_score x l) -> y = x \/ In y l.
Proof.
  induction l as [| z l IH]; simpl.
  - intros [<- | []]. auto.
  - destruct (snd z <=? snd x); simpl.
    + intros [<- | [<- | H]]; auto.
    + intros [<- | H]; auto. destruct (IH H); auto.
Qed.

Lemma In_sort_by_score y l : In y (sort_by_score l) -> In y l.
Proof.
  induction l as [| x l IH]; simpl; auto.
  intros H. apply In_insert_by_score in H. destruct H as [-> | H]; auto.
Qed.

Lemma In_firstn {A} (x : A) n l : In x (firstn n l) -> In x l.
Proof.
  revert l. induction n as [| n IH]; intros l; simpl; [intros [] |].
  destruct l as [| y l]; simpl; [intros [] |].
  intros [-> | H]; auto.
Qed.

(** The matcher returns candidates it was given. *)
Lemma extract_In score query choices p :
  In p (extract score query choices) -> In (fst p) choices.
Proof.
  unfold extract. intros H. apply In_firstn in H.
  apply In_sort_by_score in H. apply in_map_iff in H.
  destruct H as (c & <- & Hc). exact Hc.
Qed.

(** C8 — exclusion.  No book whose title equals the excluded title is
    in the result of [retrieve_similar_titles]; and over the catalogue
    that holds the one title "Dune", the query "Dune" with "Dune"
    excluded returns the empty list. *)
Theorem excluded_title_never_returned score title excluded s rows s' evs :
  retrieve_similar_titles score title excluded s = (Ok rows, s', evs) ->
  (forall row, In row rows -> b_title (fst row) <> excluded)
  /\ retrieve_similar_titles score "Dune" "Dune" (State dune_only [] [])
     = (Ok [], State dune_only [] [], []).
Proof.
  intros H. split; [| vm_compute; reflexivity].
  unfold retrieve_similar_titles, bind, retrieve_sqlite_query, next_fault,
    iterable, ret, raise in H.
  intros row Hrow.
  assert (Hgen : forall data,
             In row (flat_map
                       (fun score_tuple =>
                          if 90 <=? snd score_tuple
                          then filter (fun r => (b_title (fst r) =? fst score_tuple)%string)
                                      data
                          else [])
                       (extract score title
                          (map (fun r => b_title (fst r))
                               (filter (fun r => negb (b_title (fst r) =? excluded)%string)
                                       data)))) ->
             b_title (fst row) <> excluded).
  { intros data Hin. apply in_flat_map in Hin.
    destruct Hin as (p & Hp & Hin). apply extract_In in Hp.
    apply in_map_iff in Hp. destruct Hp as (r0 & Hr0 & Hf).
    apply filter_In in Hf. destruct Hf as (_ & Hne).
    apply negb_true_iff, String.eqb_neq in Hne.
    destruct (90 <=? snd p); [| contradiction].
    apply filter_In in Hin. destruct Hin as (_ & Heq).
    apply String.eqb_eq in Heq. congruence. }
  destruct (faults s) as [| [] fs]; simpl in H; inv H; eapply Hgen; eauto.
Qed.

Lemma excluded_title_never_returned_witness :
  (forall row,
      In row [(Book 3001 "Dune" 1290 (Some 1),
               Author 1290 "Frank Herbert" "USA")] ->
      b_title (fst row) <> "Emma")
  /\ retrieve_similar_titles always_100 "Dune" "Dune" (State dune_only [] [])
     = (Ok [], State dune_only [] [], []).
Proof.
  apply (excluded_title_never_returned always_100 "Dune" "Emma"
           (State dune_and_emma [] []) _ (State dune_and_emma [] []) []).
  vm_compute. reflexivity.
Defined.

(** ** Books and their authors at insertion *)

(** C9 — no book is inserted without its author.  In a run of
    [add_book]: if the insert of the author failed, which is when
    [add_author] returns [None], no insert of a book is sent and the
    book table is as before; and every insert of a book that is sent
    carries an author id that is in the author table. *)
Theorem no_book_without_author score s r s' evs :
  add_book score s = (r, s', evs) ->
  (forall q,
      In (Exec q false) evs -> is_insert_author q ->
      book (db s') = book (db s)
      /\ forall q' ok, In (Exec q' ok) evs -> ~ is_insert_book q')
  /\ (forall bid title aid qty ok,
         In (Exec (InsertBook bid title aid qty) ok) evs ->
         has_author aid (db s') = true).
Proof.
  intros H. apply add_book_run in H.
  destruct H as [(-> & He) | [(-> & q0 & He & Hq0) | H]].
  - split.
    + intros q Hin. apply In_execs in Hin. rewrite He in Hin. inv Hin.
    + intros bid t aid qty ok Hin. apply In_execs in Hin.
      rewrite He in Hin. inv Hin.
  - split.
    + intros q Hin Hq. split; [reflexivity |].
      intros q' ok Hin'. apply In_execs in Hin'. rewrite He in Hin'.
      destruct Hin' as [Hin' | []]. inv Hin'.
      destruct q'; simpl in *; tauto.
    + intros bid t aid qty ok Hin. apply In_execs in Hin.
      rewrite He in Hin. destruct Hin as [Hin | []]. inv Hin. contradiction.
  - destruct H as (aid & d1 & pre & Hb & Hh & Ha & H).
    assert (Hpre : forall q ok, In (q, ok) pre -> ok = true /\ is_insert_author q).
    { destruct Ha as [(_ & ->) | (n & c & _ & ->)]; intros q ok Hin.
      - inv Hin.
      - destruct Hin as [Hin | []]. inv Hin. simpl. auto. }
    destruct H as [(-> & Hxs & _)
                  | [(bid & t & qty & Hxs & Hq) | (bid & t & qty & Hxs & ->)]].
    + split.
      * intros q Hin Hq. apply In_execs in Hin. rewrite Hxs in Hin.
        destruct (Hpre _ _ Hin) as (Hf & _). discriminate Hf.
      * intros bid t a qty ok Hin. apply In_execs in Hin. rewrite Hxs in Hin.
        destruct (Hpre _ _ Hin) as (_ & Hf). contradiction.
    + simpl in Hq. destruct (has_book bid d1); [discriminate Hq |].
      injection Hq as <-. split.
      * intros q Hin Hq. apply In_execs in Hin. rewrite Hxs in Hin.
        apply in_app_or in Hin. destruct Hin as [Hin | [Hin | []]].
        -- destruct (Hpre _ _ Hin) as (Hf & _). discriminate Hf.
        -- discriminate Hin.
      * intros bid' t' a qty' ok Hin. apply In_execs in Hin.
        rewrite Hxs in Hin. apply in_app_or in Hin.
        destruct Hin as [Hin | [Hin | []]].
        -- destruct (Hpre _ _ Hin) as (_ & Hf). contradiction.
        -- inv Hin. exact Hh.
    + split.
      * intros q Hin Hq. apply In_execs in Hin. rewrite Hxs in Hin.
        apply in_app_or in Hin. destruct Hin as [Hin | [Hin | []]].
        -- destruct (Hpre _ _ Hin) as (Hf & _). discriminate Hf.
        -- inv Hin. contradiction.
      * intros bid' t' a qty' ok Hin. apply In_execs in Hin.
        rewrite Hxs in Hin. apply in_app_or in Hin.
        destruct Hin as [Hin | [Hin | []]].
        -- destruct (Hpre _ _ Hin) as (_ & Hf). contradiction.
        -- inv Hin. exact Hh.
Qed.

Lemma no_book_without_author_witness :
  (forall q,
      In (Exec q false) (snd (add_book always_100 author_insert_fails)) ->
      is_insert_author q ->
      book (db (snd (fst (add_book always_100 author_insert_fails))))
      = book (db author_insert_fails)
      /\ forall q' ok,
          In (Exec q' ok) (snd (add_book always_100 author_insert_fails)) ->
          ~ is_insert_book q')
  /\ (forall bid title aid qty ok,
         In (Exec (InsertBook bid title aid qty) ok)
            (snd (add_book always_100 author_insert_fails)) ->
         has_author aid (db (snd (fst (add_book always_100 author_insert_fails))))
         = true).
Proof.
  apply (no_book_without_author always_100 author_insert_fails
           (fst (fst (add_book always_100 author_insert_fails)))).
  vm_compute. reflexivity.
Defined.

(** ** The stock quantity *)

Lemma sends_reads {A} P Q (m : M A) : reads_only P m -> sends Q m.
Proof.
  intros Hm s r s' evs H q ok Hin. destruct (Hm _ _ _ _ H) as (_ & He & _).
  rewrite He in Hin. inv Hin.
Qed.

Lemma sends_bind {A B} Q (m : M A) (k : A -> M B) :
  sends Q m -> (forall a, sends Q (k a)) -> sends Q (bind m k).
Proof.
  intros Hm Hk s r s' evs H q ok Hin. apply bind_inv in H.
  destruct H as [(a & s1 & e1 & e2 & H1 & H2 & ->) | (e & H1 & ->)].
  - rewrite execs_app in Hin. apply in_app_or in Hin.
    destruct Hin; [eapply Hm | eapply Hk]; eauto.
  - eapply Hm; eauto.
Qed.

Lemma sends_execute (Q : statement -> Prop) q :
  Q q -> sends Q (execute_sqlite_query q).
Proof.
  intros Hq s r s' evs H q' ok Hin. apply execute_sqlite_query_run in H.
  destruct H as [(_ & -> & _) | [(_ & -> & _) | (_ & -> & _)]];
    simpl in Hin; try contradiction;
    destruct Hin as [Hin | []]; inv Hin; exact Hq.
Qed.

(** Breaks a goal [sends Q m] along the shape of [m]. *)
Ltac sending :=
  repeat first
    [ apply sends_bind; [| intros ?]
    | apply sends_execute; simpl; tauto
    | solve [apply (sends_reads (fun _ => False)); eauto with reads]
    | solve [eapply sends_reads; eauto with reads]
    | match goal with
      | |- sends _ (if ?b then _ else _) => destruct b
      | |- sends _ (match ?x with _ => _ end) => destruct x
      end ].

Lemma update_title_sends score book_id current_title :
  sends (fun q => ~ writes_quantity q)
        (update_title score book_id current_title).
Proof. unfold update_title. sending. Qed.

Lemma update_author_id_sends score book_id cur name country :
  sends (fun q => ~ writes_quantity q)
        (update_author_id score book_id cur name country).
Proof.
  unfold update_author_id, reassign, add_author, create_author. sending.
Qed.

Lemma update_author_name_sends author_id current_name :
  sends (fun q => ~ writes_quantity q)
        (update_author_name author_id current_name).
Proof. unfold update_author_name. sending. Qed.

Lemma update_author_country_sends author_id current_country :
  sends (fun q => ~ writes_quantity q)
        (update_author_country author_id current_country).
Proof. unfold update_author_country. sending. Qed.

(** What [get_valid_integer] read when it returned. *)
Lemma get_valid_integer_from_result p lines v rest evs :
  get_valid_integer_from p lines = (Ok v, rest, evs) ->
  exists bad good z,
    lines = bad ++ good :: rest
    /\ Forall (fun l => int_value l = None) bad
    /\ int_value good = Some z
    /\ v = match bad with [] => Some z | _ :: _ => None end
    /\ (bad = [] -> evs = [Input p good]).
Proof.
  revert v rest evs.
  induction lines as [| l lines IH]; intros v rest evs H; simpl in H;
    [discriminate H |].
  destruct (int_value l) as [z |] eqn:El.
  - inv H. exists [], l, z. simpl. auto.
  - destruct (get_valid_integer_from p lines) as [[r1 rest1] e1].
    destruct r1 as [v1 | e]; inv H.
    destruct (IH _ _ _ eq_refl) as (bad & good & z & -> & Hb & Hg & _).
    exists (l :: bad), good, z. simpl. repeat split; auto.
    intros Hnil. discriminate Hnil.
Qed.

(** An integer comes back only from the first line typed. *)
Lemma get_valid_integer_some p s z s1 e1 :
  get_valid_integer p s = (Ok (Some z), s1, e1) ->
  exists typed,
    int_value typed = Some z
    /\ stdin s = typed :: stdin s1
    /\ e1 = [Input p typed].
Proof.
  unfold get_valid_integer. intros H.
  destruct (get_valid_integer_from p (stdin s)) as [[r rest] e] eqn:E.
  inv H. apply get_valid_integer_from_result in E.
  destruct E as (bad & good & z' & Hs & _ & Hg & Hv & He).
  destruct bad as [| l bad]; [| discriminate Hv].
  injection Hv as ->. exists good. simpl in *. auto.
Qed.

Lemma get_valid_integer_first p s l rest z v s1 e1 :
  get_valid_integer p s = (Ok v, s1, e1) ->
  stdin s = l :: rest -> int_value l = Some z ->
  v = Some z.
Proof.
  unfold get_valid_integer. intros H Hs Hl. rewrite Hs in H. simpl in H.
  rewrite Hl in H. inv H. reflexivity.
Qed.

(** What a run of [update_quantity] comes to: the quantity written is
    the one [get_valid_integer] returned on the input of the run. *)
Lemma update_quantity_run book_id current s r s' evs :
  update_quantity book_id current s = (r, s', evs) ->
  (execs evs = [] /\ db s' = db s /\ exists x, r = Raise x)
  \/ (exists new_quant s1 e1 tail,
         get_valid_integer "Please input the new stock quantity " s
         = (Ok new_quant, s1, e1)
         /\ execs e1 = []
         /\ evs = Print ("Current stock is: " ++ str_opt current)%string
                    :: e1 ++ tail
         /\ ((tail = [Exec (UpdateBookQty new_quant book_id) true]
              /\ r = Ok (of_quantity new_quant)
              /\ apply_statement (UpdateBookQty new_quant book_id) (db s)
                 = Some (db s'))
             \/ (tail = [Exec (UpdateBookQty new_quant book_id) false;
                         QueryFailed]
                 /\ r = Ok VFalse /\ db s' = db s))).
Proof.
  unfold update_quantity. intros H.
  step H as u1 s1 e1 H1; [| inv H]. printed H1.
  step H as new_quant s2 e2 H2.
  2:{ quiet H. left. simpl. eauto. }
  pose proof H2 as Hread. quiet H2.
  step H as updated s3 e3 H3.
  - apply execute_sqlite_query_run in H3.
    destruct H3 as [(Hr & -> & Hq) | [(Hr & -> & Hq) | (Hr & _)]];
      try discriminate Hr; injection Hr as ->; returned H;
      right; exists new_quant, s2, e2;
      eexists; (split; [exact Hread |]); (split; [exact He |]);
      (split; [reflexivity |]).
    + left. split; [reflexivity |].
      split; [reflexivity |]. rewrite <- Hd. exact Hq.
    + right. split; [reflexivity |].
      split; [reflexivity |]. congruence.
  - apply execute_sqlite_query_run in H.
    destruct H as [(Hr & _) | [(Hr & _) | (Hr & -> & Hq)]];
      try discriminate Hr.
    left. simpl. rewrite execs_app, He. simpl.
    split; [reflexivity |]. split; [congruence | eauto].
Qed.

Lemma ends_with_app {A} (a rest t : list A) :
  (exists pre, rest = pre ++ t) -> exists pre, a ++ rest = pre ++ t.
Proof. intros (pre & ->). exists (a ++ pre). now rewrite app_assoc. Qed.

Lemma In_updated_qty qty id d b :
  In b (map (fun b => if b_id b =? id
                      then Book (b_id b) (b_title b) (b_authorID b) qty
                      else b) (book d)) ->
  b_id b = id -> b_qty b = qty.
Proof.
  intros Hin Hid. apply in_map_iff in Hin. destruct Hin as (b' & <- & _).
  destruct (b_id b' =? id) eqn:He; [reflexivity |].
  apply Z.eqb_neq in He. contradiction.
Qed.

(** C10 — a stock of zero is reported as an error.  [update_quantity]
    writes the quantity that [get_valid_integer] returned on the input
    of the run, the integer of the first line typed when that line
    holds one; it returns that quantity when its statement went
    through and [False] when it did not.  The quantity 0 is falsy, so
    in a run of [update_book] in which the update of a book's quantity
    to 0 went through, 0 is what the user typed at the prompt for the
    new stock, the tables hold quantity 0 for that book, and the run
    ends on the message of a failed stock update. *)
Theorem zero_quantity_reported_as_error :
  (forall book_id current s r s' evs,
      update_quantity book_id current s = (r, s', evs) ->
      (execs evs = [] /\ db s' = db s /\ exists x, r = Raise x)
      \/ (exists new_quant s1 e1,
             get_valid_integer "Please input the new stock quantity " s
             = (Ok new_quant, s1, e1)
             /\ (forall l rest z,
                    stdin s = l :: rest -> int_value l = Some z ->
                    new_quant = Some z)
             /\ ((r = Ok (of_quantity new_quant)
                  /\ execs evs = [(UpdateBookQty new_quant book_id, true)]
                  /\ apply_statement (UpdateBookQty new_quant book_id) (db s)
                     = Some (db s'))
                 \/ (r = Ok VFalse
                     /\ execs evs = [(UpdateBookQty new_quant book_id, false)]
                     /\ db s' = db s))))
  /\ is_true (of_quantity (Some 0)) = false
  /\ (forall score s r s' evs bid,
         update_book score s = (r, s', evs) ->
         In (Exec (UpdateBookQty (Some 0) bid) true) evs ->
         exists row typed,
           In row (select_book_join_author (db s))
           /\ b_id (fst row) = bid
           /\ int_value typed = Some 0
           /\ (exists pre,
                  evs = pre ++ [Input "Please input the new stock quantity "
                                      typed;
                                Exec (UpdateBookQty (Some 0) bid) true;
                                Print (stock_error_msg (b_title (fst row)))])
           /\ apply_statement (UpdateBookQty (Some 0) bid) (db s)
              = Some (db s')
           /\ forall b, In b (book (db s')) -> b_id b = bid ->
                        b_qty b = Some 0).
Proof.
  split; [| split; [reflexivity |]].
  - intros book_id current s r s' evs H.
    apply update_quantity_run in H.
    destruct H as [H | (nq & s1 & e1 & tail & Hread & He1 & -> & H)];
      [left; exact H | right].
    exists nq, s1, e1. split; [exact Hread |]. split.
    { intros l rest z Hs Hl. eapply get_valid_integer_first; eauto. }
    destruct H as [(-> & -> & Hq) | (-> & -> & Hd)]; [left | right];
      (split; [reflexivity |]); (split; [| assumption]);
      simpl; rewrite execs_app, He1; reflexivity.
  - intros score s r s' evs bid H Hin. apply In_execs in Hin.
    unfold update_book in H.
    step H as target s1 e1 H1.
    2:{ quiet H. rewrite He in Hin. inv Hin. }
    quiet H1. rewrite execs_app, He in Hin. simpl in Hin.
    step H as fetched s2 e2 H2.
    2:{ quiet H. rewrite He0 in Hin. inv Hin. }
    apply retrieve_run in H2. destruct H2 as (Hd2 & He2 & Hp2 & Hf).
    rewrite execs_app, He2 in Hin. simpl in Hin.
    step H as row s3 e3 H3.
    2:{ quiet H. rewrite He0 in Hin. inv Hin. }
    destruct Hf as [Hf | Hf]; injection Hf as ->; [inv H3 |].
    apply first_row_run in H3. destruct H3 as (Hrow & -> & ->).
    apply joined_where_id in Hrow. destruct Hrow as (Hrow & Hid).
    replace (db s1) with (db s) in Hrow by congruence.
    simpl in Hin.
    step H as u1 s4 e4 H4; [| inv H]. printed H4.
    step H as u2 s5 e5 H5; [| inv H]. printed H5.
    step H as u3 s6 e6 H6; [| inv H]. printed H6.
    simpl in Hin.
    step H as choice s7 e7 H7 then rest.
    2:{ quiet H. rewrite He0 in Hin. inv Hin. }
    quiet H7. rewrite execs_app, He0 in Hin. simpl in Hin.
    assert (Hs : db s7 = db s) by congruence.
    assert (Hother : forall k : M unit,
               sends (fun q => ~ writes_quantity q) k ->
               k s7 = (r, s', rest) -> False).
    { intros k Sk Hk. apply (Sk _ _ _ _ Hk _ _ Hin). exact I. }
    destruct (choice =? 1).
    { step H as u4 s8 e8 H8; [| inv H]. printed H8. simpl in Hin.
      step H as v s9 e9 H9.
      2:{ exfalso. apply update_quantity_run in H.
          destruct H as [(He9 & _)
                        | (nq & sq & eq & tl & _ & _ & _
                           & [(_ & Hr & _) | (_ & Hr & _)])];
            try discriminate Hr.
          rewrite He9 in Hin. inv Hin. }
      apply update_quantity_run in H9.
      destruct H9 as [(_ & _ & x & Hx)
                     | (nq & sq & eq & tl & Hread & Heq & -> & Htl)];
        [discriminate Hx |].
      destruct Htl as [(-> & Hr & Hq) | (-> & Hr & Hq)].
      - injection Hr as ->.
        simpl in Hin. rewrite !execs_app, Heq in Hin. simpl in Hin.
        assert (Hnq : nq = Some 0 /\ b_id (fst row) = bid).
        { destruct (is_true (of_quantity nq)); printed H;
            destruct Hin as [Hin | []]; injection Hin as -> ->; auto. }
        destruct Hnq as (-> & Hbid). simpl in H. printed H.
        apply get_valid_integer_some in Hread.
        destruct Hread as (typed & Htyped & _ & ->).
        exists row, typed. split; [exact Hrow |].
        rewrite <- Hbid. split; [reflexivity |]. split; [exact Htyped |].
        split.
        + do 7 apply ends_with_app. eexists [_; _]. reflexivity.
        + rewrite <- Hs. split; [exact Hq |].
          simpl in Hq. injection Hq as Hq. rewrite <- Hq. simpl.
          intros b. apply In_updated_qty.
      - exfalso. simpl in Hin. rewrite !execs_app, Heq in Hin. simpl in Hin.
        injection Hr as ->. simpl in H. printed H.
        destruct Hin as [Hin | []]. discriminate Hin. }
    exfalso.
    destruct (choice =? 2).
    { refine (Hother _ _ H).
      apply sends_bind; [sending | intros ?; apply update_title_sends]. }
    destruct (choice =? 3).
    { refine (Hother _ _ H).
      apply sends_bind; [sending | intros ?].
      apply sends_bind; [apply update_author_id_sends | intros ?; sending]. }
    destruct (choice =? 4).
    { refine (Hother _ _ H).
      apply sends_bind; [sending | intros ?; apply update_author_name_sends]. }
    destruct (choice =? 5).
    { refine (Hother _ _ H).
      apply sends_bind;
        [sending | intros ?; apply update_author_country_sends]. }
    refine (Hother _ _ H). sending.
Qed.

Lemma zero_quantity_reported_as_error_witness :
  exists row typed,
    In row (select_book_join_author (db stock_to_zero))
    /\ b_id (fst row) = 3001
    /\ int_value typed = Some 0
    /\ (exists pre,
           snd (update_book always_100 stock_to_zero)
           = pre ++ [Input "Please input the new stock quantity " typed;
                     Exec (UpdateBookQty (Some 0) 3001) true;
                     Print (stock_error_msg (b_title (fst row)))])
    /\ apply_statement (UpdateBookQty (Some 0) 3001) (db stock_to_zero)
       = Some (db (snd (fst (update_book always_100 stock_to_zero))))
    /\ forall b,
        In b (book (db (snd (fst (update_book always_100 stock_to_zero))))) ->
        b_id b = 3001 -> b_qty b = Some 0.
Proof.
  apply (proj2 (proj2 zero_quantity_reported_as_error) always_100
               stock_to_zero
               (fst (fst (update_book always_100 stock_to_zero)))).
  - vm_compute. reflexivity.
  - vm_compute. tauto.
Defined.

(** ** The cascade on the specification's example *)

(** Deleting the only book of an author, confirmed twice, empties both
    tables. *)
Example cascade_end_to_end :
  db (snd (fst (delete_book delete_confirmed))) = Database [] [].
Proof. vm_compute. reflexivity. Qed.

(** The same with the second confirmation refused: nothing is deleted. *)
Example cascade_abort :
  db (snd (fst (delete_book delete_declined))) = one_book.
Proof. vm_compute. reflexivity. Qed.

(** * Further properties of the program *)

(** ** The prompts *)

(** X1: [get_valid_integer] loses what is typed after a mistake.  When
    it returns, it has read the lines up to the first one that holds
    an integer.  It returns that integer when it was the first line
    typed; when a line before it was refused, [None] comes back in its
    place, because the value of the retry is dropped. *)
Theorem get_valid_integer_after_mistake prompt s v s' evs :
  get_valid_integer prompt s = (Ok v, s', evs) ->
  db s' = db s
  /\ exists bad good z,
      stdin s = bad ++ good :: stdin s'
      /\ Forall (fun l => int_value l = None) bad
      /\ int_value good = Some z
      /\ v = match bad with [] => Some z | _ :: _ => None end.
Proof.
  unfold get_valid_integer. intros H.
  destruct (get_valid_integer_from prompt (stdin s)) as [[r rest] e] eqn:E.
  inv H. apply get_valid_integer_from_result in E.
  destruct E as (bad & good & z & Hs & Hbad & Hgood & Hv & _).
  split; [reflexivity |]. exists bad, good, z. simpl. auto.
Qed.

Lemma get_valid_integer_after_mistake_witness :
  db (State one_book [] [])
  = db (State one_book [answer "seven"; number 7] [])
  /\ exists bad good z,
      stdin (State one_book [answer "seven"; number 7] [])
      = bad ++ good :: stdin (State one_book [] [])
      /\ Forall (fun l => int_value l = None) bad
      /\ int_value good = Some z
      /\ None = match bad with [] => Some z | _ :: _ => None end.
Proof.
  apply (get_valid_integer_after_mistake
           "Please input stock quantity "
           (State one_book [answer "seven"; number 7] []) None
           (State one_book [] [])
           (snd (get_valid_integer
                   "Please input stock quantity "
                   (State one_book [answer "seven"; number 7] [])))).
  vm_compute. reflexivity.
Defined.

(** What [get_yes_no] read when it answered. *)
Lemma get_yes_no_from_result prompt lines b rest evs :
  get_yes_no_from prompt lines = (Ok b, rest, evs) ->
  exists bad l,
    lines = bad ++ l :: rest
    /\ Forall (fun l => lower (text l) <> "y" /\ lower (text l) <> ""
                        /\ lower (text l) <> "n") bad
    /\ (if b then lower (text l) = "y" \/ lower (text l) = ""
        else lower (text l) = "n").
Proof.
  revert b rest evs.
  induction lines as [| x lines IH]; intros b rest evs H; simpl in H;
    [discriminate H |].
  destruct (lower (text x) =? "y")%string eqn:Hy.
  { inv H. apply String.eqb_eq in Hy. exists [], x. simpl. auto. }
  destruct (lower (text x) =? "")%string eqn:He.
  { inv H. apply String.eqb_eq in He. exists [], x. simpl. auto. }
  destruct (lower (text x) =? "n")%string eqn:Hn.
  { inv H. apply String.eqb_eq in Hn. exists [], x. simpl. auto. }
  destruct (get_yes_no_from prompt lines) as [[r1 rest1] e1].
  inv H. destruct (IH _ _ _ eq_refl) as (bad & l & -> & Hbad & Hl).
  apply String.eqb_neq in Hy, He, Hn.
  exists (x :: bad), l. simpl. repeat split; auto.
Qed.

(** X2: [get_yes_no], when it answers, has read the lines up to the
    first one that, in lower case, is "y", "n" or empty; the lines
    before it were refused.  The answer is yes for "y" and for the
    empty line, no for "n". *)
Theorem get_yes_no_answer prompt s b s' evs :
  get_yes_no prompt s = (Ok b, s', evs) ->
  db s' = db s
  /\ exists bad l,
      stdin s = bad ++ l :: stdin s'
      /\ Forall (fun l => lower (text l) <> "y" /\ lower (text l) <> ""
                          /\ lower (text l) <> "n") bad
      /\ (if b then lower (text l) = "y" \/ lower (text l) = ""
          else lower (text l) = "n").
Proof.
  unfold get_yes_no. intros H.
  destruct (get_yes_no_from prompt (stdin s)) as [[r rest] e] eqn:E.
  inv H. apply get_yes_no_from_result in E.
  destruct E as (bad & l & Hs & Hbad & Hl).
  split; [reflexivity |]. exists bad, l. simpl. auto.
Qed.

Lemma get_yes_no_answer_witness :
  db (State one_book [] [])
  = db (State one_book [answer "maybe"; answer ""] [])
  /\ exists bad l,
      stdin (State one_book [answer "maybe"; answer ""] [])
      = bad ++ l :: stdin (State one_book [] [])
      /\ Forall (fun l => lower (text l) <> "y" /\ lower (text l) <> ""
                          /\ lower (text l) <> "n") bad
      /\ (lower (text l) = "y" \/ lower (text l) = "").
Proof.
  apply (get_yes_no_answer
           "Continue deleting?"
           (State one_book [answer "maybe"; answer ""] []) true
           (State one_book [] [])
           (snd (get_yes_no "Continue deleting?"
                            (State one_book [answer "maybe"; answer ""] [])))).
  vm_compute. reflexivity.
Defined.

Lemma get_valid_string_from_result prompt lines t rest evs :
  get_valid_string_from prompt lines = (Ok t, rest, evs) ->
  t <> ""
  /\ exists bad l,
      lines = bad ++ l :: rest
      /\ Forall (fun l => text l = "") bad
      /\ text l = t.
Proof.
  revert evs. induction lines as [| x lines IH]; intros evs H; simpl in H.
  - discriminate H.
  - destruct (text x =? "")%string eqn:Hx.
    + destruct (get_valid_string_from prompt lines) as [[r1 rest1] e1].
      inv H. destruct (IH _ eq_refl) as (Ht & bad & l & -> & Hbad & Hl).
      split; [exact Ht |]. exists (x :: bad), l.
      apply String.eqb_eq in Hx. repeat split; auto.
    + inv H. apply String.eqb_neq in Hx. split; [exact Hx |].
      exists [], x. repeat split; auto.
Qed.

(** X3: [get_valid_string] never returns the empty string: what it returns
    is the first line typed that is not empty, and the tables are not
    touched. *)
Theorem get_valid_string_nonempty prompt s t s' evs :
  get_valid_string prompt s = (Ok t, s', evs) ->
  t <> ""
  /\ db s' = db s
  /\ exists bad l,
      stdin s = bad ++ l :: stdin s'
      /\ Forall (fun l => text l = "") bad
      /\ text l = t.
Proof.
  unfold get_valid_string. intros H.
  destruct (get_valid_string_from prompt (stdin s)) as [[r rest] e] eqn:E.
  inv H. apply get_valid_string_from_result in E.
  destruct E as (Ht & bad & l & Hs & Hbad & Hl). simpl. eauto 10.
Qed.

Lemma get_valid_string_nonempty_witness :
  "Emma" <> ""
  /\ db (State one_book [] []) = db (State one_book [answer ""; answer "Emma"] [])
  /\ exists bad l,
      stdin (State one_book [answer ""; answer "Emma"] [])
      = bad ++ l :: stdin (State one_book [] [])
      /\ Forall (fun l => text l = "") bad
      /\ text l = "Emma".
Proof.
  apply (get_valid_string_nonempty
           "Please input the title "
           (State one_book [answer ""; answer "Emma"] []) "Emma"
           (State one_book [] [])
           (snd (get_valid_string "Please input the title "
                   (State one_book [answer ""; answer "Emma"] [])))).
  vm_compute. reflexivity.
Defined.

Lemma get_valid_option_input_from_result n lines k rest evs :
  get_valid_option_input_from n lines = (Ok k, rest, evs) ->
  0 <= k < n
  /\ exists bad l,
      lines = bad ++ l :: rest
      /\ int_value l = Some k
      /\ Forall (fun l => forall j, int_value l = Some j -> ~ 0 <= j < n) bad.
Proof.
  revert evs. induction lines as [| x lines IH]; intros evs H; simpl in H.
  - discriminate H.
  - destruct (get_valid_option_input_from n lines) as [[r1 rest1] e1].
    assert (Hretry : forall evs',
               (r1, rest1, evs') = (Ok k, rest, evs) ->
               (forall j, int_value x = Some j -> ~ 0 <= j < n) ->
               0 <= k < n
               /\ exists bad l,
                   x :: lines = bad ++ l :: rest
                   /\ int_value l = Some k
                   /\ Forall (fun l => forall j, int_value l = Some j ->
                                                 ~ 0 <= j < n) bad).
    { intros evs' He Hx. inv He.
      destruct (IH _ eq_refl) as (Hk & bad & l & -> & Hl & Hbad).
      split; [exact Hk |]. exists (x :: bad), l. repeat split; auto. }
    destruct (int_value x) as [j |] eqn:Hj.
    + destruct ((0 <=? j) && (j <? n)) eqn:Hr.
      * inv H. split; [lia |]. exists [], x. repeat split; auto.
      * eapply Hretry; eauto. intros j' Hj'. inv Hj'. lia.
    + eapply Hretry; eauto. intros j' Hj'. discriminate Hj'.
Qed.

(** X4: [get_valid_option_input(range(n))] returns a number of [range(n)]:
    the integer on the first line typed that holds one in the range. *)
Theorem get_valid_option_input_in_range n s k s' evs :
  get_valid_option_input n s = (Ok k, s', evs) ->
  0 <= k < n
  /\ db s' = db s
  /\ exists bad l,
      stdin s = bad ++ l :: stdin s'
      /\ int_value l = Some k
      /\ Forall (fun l => forall j, int_value l = Some j -> ~ 0 <= j < n) bad.
Proof.
  unfold get_valid_option_input. intros H.
  destruct (get_valid_option_input_from n (stdin s)) as [[r rest] e] eqn:E.
  inv H. apply get_valid_option_input_from_result in E.
  destruct E as (Hk & bad & l & Hs & Hl & Hbad). simpl. eauto 10.
Qed.

Lemma get_valid_option_input_in_range_witness :
  0 <= 2 < 3
  /\ db (State one_book [] []) = db (State one_book [number 7; number 2] [])
  /\ exists bad l,
      stdin (State one_book [number 7; number 2] [])
      = bad ++ l :: stdin (State one_book [] [])
      /\ int_value l = Some 2
      /\ Forall (fun l => forall j, int_value l = Some j -> ~ 0 <= j < 3) bad.
Proof.
  apply (get_valid_option_input_in_range
           3 (State one_book [number 7; number 2] []) 2
           (State one_book [] [])
           (snd (get_valid_option_input 3
                   (State one_book [number 7; number 2] [])))).
  vm_compute. reflexivity.
Defined.

(** ** Identifiers *)

(** A falsy answer of [check_id_exists] means the row is not there, or
    the fetch failed. *)
Lemma check_id_exists_author_free id s b s' evs :
  check_id_exists "author" id s = (Ok b, s', evs) ->
  truthy b = false ->
  has_author id (db s) = false \/ In FetchFailed evs.
Proof.
  unfold check_id_exists. simpl. intros H Hb.
  unfold bind, retrieve_sqlite_query, next_fault, ret in H.
  destruct (faults s) as [| [] fs]; inv H; simpl; auto;
    left; unfold truthy, select_author_where_id in Hb;
    rewrite nonempty_filter in Hb; unfold has_author;
    simpl; destruct (existsb _ _); auto.
Qed.

Lemma check_id_exists_book_free id s b s' evs :
  check_id_exists "book" id s = (Ok b, s', evs) ->
  truthy b = false ->
  has_book id (db s) = false \/ In FetchFailed evs.
Proof.
  unfold check_id_exists. simpl. intros H Hb.
  unfold bind, retrieve_sqlite_query, next_fault, ret in H.
  destruct (faults s) as [| [] fs]; inv H; simpl; auto;
    left; unfold truthy, select_book_where_id in Hb;
    rewrite nonempty_filter in Hb; unfold has_book;
    simpl; destruct (existsb _ _); auto.
Qed.

Lemma get_valid_id_four_chars table s n s' evs :
  get_valid_id table s = (Ok n, s', evs) -> four_chars n = true.
Proof.
  unfold get_valid_id. generalize (stdin s) as lines.
  intros lines. revert s evs.
  induction lines as [| l lines IH]; intros s evs H.
  - inv H.
  - unfold get_valid_id_from in H; fold get_valid_id_from in H.
    cbv beta zeta in H.
    loop_cases H;
      try match goal with
          | E : get_valid_id_from _ _ _ = _ |- _ => apply IH in E; exact E
          end.
    apply negb_false_iff. assumption.
Qed.

(** Closes a goal about an id accepted by a prompt loop: by the turn
    that accepted it, or by the turns after a refused line. *)
Ltac id_loop IH free :=
  match goal with
  | C : check_id_exists _ _ _ = (Ok ?b, _, _), T : truthy ?b = false |- _ =>
      destruct (free _ _ _ _ _ C T) as [? | ?];
      [left; assumption | right; simpl; auto]
  | C : check_id_exists _ _ _ = _, E : _ = (Ok _, _, _) |- _ =>
      apply IH in E;
      apply (reads_only_silent _ _ _ _ _ (check_id_exists_reads _ _ _)) in C;
      destruct C as (? & _); simpl in *;
      destruct E as [E | E];
      [left; congruence
      | right; right; apply in_or_app; right; simpl; auto]
  | E : _ = (Ok _, _, _) |- _ =>
      apply IH in E; simpl in *;
      destruct E as [E | E]; [left; exact E | right; simpl; auto]
  end.

Lemma get_valid_id_author_free s n s' evs :
  get_valid_id "author" s = (Ok n, s', evs) ->
  has_author n (db s) = false \/ In FetchFailed evs.
Proof.
  unfold get_valid_id. generalize (stdin s) as lines.
  intros lines. revert s evs.
  induction lines as [| l lines IH]; intros s evs H.
  - inv H.
  - unfold get_valid_id_from in H; fold get_valid_id_from in H.
    cbv beta zeta in H.
    loop_cases H; id_loop IH check_id_exists_author_free.
Qed.

Lemma get_valid_id_book_free s n s' evs :
  get_valid_id "book" s = (Ok n, s', evs) ->
  has_book n (db s) = false \/ In FetchFailed evs.
Proof.
  unfold get_valid_id. generalize (stdin s) as lines.
  intros lines. revert s evs.
  induction lines as [| l lines IH]; intros s evs H.
  - inv H.
  - unfold get_valid_id_from in H; fold get_valid_id_from in H.
    cbv beta zeta in H.
    loop_cases H; id_loop IH check_id_exists_book_free.
Qed.

(** X5: [get_valid_id] hands back an id of four characters that is not a
    key of the table named, unless a fetch of the run failed (a failed
    fetch makes every id look free); the tables are not touched. *)
Theorem get_valid_id_fresh :
  (forall s n s' evs,
      get_valid_id "author" s = (Ok n, s', evs) ->
      four_chars n = true /\ db s' = db s
      /\ (has_author n (db s) = false \/ In FetchFailed evs))
  /\ (forall s n s' evs,
         get_valid_id "book" s = (Ok n, s', evs) ->
         four_chars n = true /\ db s' = db s
         /\ (has_book n (db s) = false \/ In FetchFailed evs)).
Proof.
  split; intros s n s' evs H.
  - split; [eapply get_valid_id_four_chars; eauto |].
    split; [apply (get_valid_id_reads _ _ _ _ _ H) |].
    eapply get_valid_id_author_free; eauto.
  - split; [eapply get_valid_id_four_chars; eauto |].
    split; [apply (get_valid_id_reads _ _ _ _ _ H) |].
    eapply get_valid_id_book_free; eauto.
Qed.

Lemma get_valid_id_fresh_witness :
  four_chars 2000 = true
  /\ db (State one_book [] []) = db (State one_book [number 1290; number 2000] [])
  /\ (has_author 2000 (db (State one_book [number 1290; number 2000] []))
      = false
      \/ In FetchFailed
            (snd (get_valid_id "author"
                    (State one_book [number 1290; number 2000] [])))).
Proof.
  apply (proj1 get_valid_id_fresh
               (State one_book [number 1290; number 2000] []) 2000
               (State one_book [] [])).
  vm_compute. reflexivity.
Defined.

Lemma get_existing_id_four_chars table s n s' evs :
  get_existing_id table s = (Ok n, s', evs) -> four_chars n = true.
Proof.
  unfold get_existing_id. generalize (stdin s) as lines.
  intros lines. revert s evs.
  induction lines as [| l lines IH]; intros s evs H.
  - inv H.
  - unfold get_existing_id_from in H; fold get_existing_id_from in H.
    cbv beta zeta in H.
    loop_cases H;
      try match goal with
          | E : get_existing_id_from _ _ _ = _ |- _ => apply IH in E; exact E
          end.
    apply negb_false_iff. assumption.
Qed.

(** X6: [get_existing_id] hands back an id of four characters that is a key
    of the table named; the tables are not touched. *)
Theorem get_existing_id_present :
  (forall s n s' evs,
      get_existing_id "author" s = (Ok n, s', evs) ->
      four_chars n = true /\ db s' = db s /\ has_author n (db s) = true)
  /\ (forall s n s' evs,
         get_existing_id "book" s = (Ok n, s', evs) ->
         four_chars n = true /\ db s' = db s /\ has_book n (db s) = true).
Proof.
  split; intros s n s' evs H.
  - split; [eapply get_existing_id_four_chars; eauto |].
    split; [apply (get_existing_id_reads _ _ _ _ _ H) |].
    eapply get_existing_id_author; eauto.
  - split; [eapply get_existing_id_four_chars; eauto |].
    split; [apply (get_existing_id_reads _ _ _ _ _ H) |].
    eapply get_existing_id_book; eauto.
Qed.

Lemma get_existing_id_present_witness :
  four_chars 3001 = true
  /\ db (State one_book [] []) = db (State one_book [number 3002; number 3001] [])
  /\ has_book 3001 (db (State one_book [number 3002; number 3001] [])) = true.
Proof.
  apply (proj2 get_existing_id_present
               (State one_book [number 3002; number 3001] []) 3001
               (State one_book [] [])
               (snd (get_existing_id "book"
                       (State one_book [number 3002; number 3001] [])))).
  vm_compute. reflexivity.
Defined.

(** *** Which integers have four characters *)

Lemma of_lu_below (e : Decimal.uint) :
  (DecimalPos.Unsigned.of_lu e < 10 ^ N.of_nat (Decimal.nb_digits e))%N.
Proof.
  induction e; cbn [DecimalPos.Unsigned.of_lu Decimal.nb_digits];
    rewrite ?Nnat.Nat2N.inj_succ, ?N.pow_succ_r'; simpl N.of_nat;
    rewrite ?N.pow_0_r; lia.
Qed.

Lemma digits_of_positive p :
  (N.pos p < 10 ^ N.of_nat (Decimal.nb_digits (Pos.to_uint p)))%N.
Proof.
  rewrite <- (DecimalPos.Unsigned.of_to p) at 1.
  rewrite DecimalPos.Unsigned.of_uint_alt, <- DecimalFacts.nb_digits_rev.
  apply of_lu_below.
Qed.

Lemma length_of_digits (d : Decimal.uint) :
  String.length (NilEmpty.string_of_uint d) = Decimal.nb_digits d.
Proof. induction d; simpl; congruence. Qed.

Lemma length_str_positive p :
  String.length (str (Z.pos p)) = Decimal.nb_digits (Pos.to_uint p).
Proof.
  unfold str. simpl.
  pose proof (DecimalPos.Unsigned.to_uint_nonnil p) as Hn.
  rewrite <- length_of_digits.
  destruct (Pos.to_uint p); try reflexivity. contradiction.
Qed.

Lemma length_str_negative p :
  String.length (str (Z.neg p)) = S (Decimal.nb_digits (Pos.to_uint p)).
Proof.
  unfold str. simpl. f_equal.
  pose proof (DecimalPos.Unsigned.to_uint_nonnil p) as Hn.
  rewrite <- length_of_digits.
  destruct (Pos.to_uint p); try reflexivity. contradiction.
Qed.

Lemma four_chars_small z :
  four_chars z = true -> -10000 < z < 10000.
Proof.
  unfold four_chars. intros H. apply Nat.eqb_eq in H.
  destruct z as [| p | p].
  - lia.
  - rewrite length_str_positive in H.
    pose proof (digits_of_positive p) as Hb. rewrite H in Hb.
    change (10 ^ N.of_nat 4)%N with 10000%N in Hb. lia.
  - rewrite length_str_negative in H. injection H as H.
    pose proof (digits_of_positive p) as Hb. rewrite H in Hb.
    change (10 ^ N.of_nat 3)%N with 1000%N in Hb. lia.
Qed.

Lemma four_chars_table :
  forallb
    (fun k =>
       let z := Z.of_nat k - 10000 in
       Bool.eqb (four_chars z)
                ((1000 <=? z) && (z <=? 9999) || (-999 <=? z) && (z <=? -100)))
    (seq 0 (Z.to_nat 20001))
  = true.
Proof. vm_compute. reflexivity. Qed.

(** X7: The test [len(str(new_id)) != 4] of [get_valid_id] and
    [get_existing_id] lets through the integers from 1000 to 9999 and,
    because the sign counts as a character, those from -999 to -100;
    it refuses every other integer. *)
Theorem four_chars_range z :
  four_chars z = true <-> 1000 <= z <= 9999 \/ -999 <= z <= -100.
Proof.
  assert (Hsmall : -10000 < z < 10000 ->
                   four_chars z
                   = ((1000 <=? z) && (z <=? 9999)
                      || (-999 <=? z) && (z <=? -100))).
  { intros Hz. pose proof four_chars_table as Ht.
    rewrite forallb_forall in Ht.
    specialize (Ht (Z.to_nat (z + 10000))).
    cbv zeta in Ht.
    replace (Z.of_nat (Z.to_nat (z + 10000)) - 10000) with z in Ht by lia.
    apply Bool.eqb_prop. apply Ht. apply in_seq. lia. }
  split.
  - intros H. pose proof (four_chars_small z H) as Hz.
    rewrite (Hsmall Hz) in H. apply orb_true_iff in H.
    rewrite !andb_true_iff, !Z.leb_le in H. lia.
  - intros H. rewrite Hsmall by lia. apply orb_true_iff.
    rewrite !andb_true_iff, !Z.leb_le. lia.
Qed.

(** ** What the duplicate detector returns *)

Lemma In_insert_by_score_iff x y l :
  In y (insert_by_score x l) <-> y = x \/ In y l.
Proof.
  split; [apply In_insert_by_score |].
  induction l as [| z l IH]; simpl.
  - intros [-> | []]. auto.
  - destruct (snd z <=? snd x); simpl; intros [-> | [-> | H]]; auto.
Qed.

Lemma In_sort_by_score_iff y l : In y (sort_by_score l) <-> In y l.
Proof.
  induction l as [| x l IH]; simpl; [tauto |].
  rewrite In_insert_by_score_iff, IH. split; intros [H | H]; auto.
Qed.

Lemma length_insert_by_score x l :
  List.length (insert_by_score x l) = S (List.length l).
Proof.
  induction l as [| z l IH]; simpl; auto.
  destruct (snd z <=? snd x); simpl; auto.
Qed.

Lemma length_sort_by_score l :
  List.length (sort_by_score l) = List.length l.
Proof.
  induction l as [| x l IH]; simpl; auto.
  rewrite length_insert_by_score. congruence.
Qed.

(** Scores in a list sorted for the matcher go down. *)
Lemma insert_by_score_descending x l :
  descending (map snd l) -> descending (map snd (insert_by_score x l)).
Proof.
  induction l as [| z l IH]; simpl.
  - intros _. split; auto. intros y [].
  - intros (Hz & Hl). destruct (snd z <=? snd x) eqn:Hc; simpl.
    + apply Z.leb_le in Hc. split; [| split; auto].
      intros y [<- | Hy]; auto. specialize (Hz y Hy). lia.
    + apply Z.leb_gt in Hc. split; [| apply IH; exact Hl].
      intros y Hy. apply in_map_iff in Hy. destruct Hy as (p & <- & Hp).
      apply In_insert_by_score in Hp. destruct Hp as [-> | Hp]; [lia |].
      apply Hz. apply in_map. exact Hp.
Qed.

Lemma sort_by_score_descending l : descending (map snd (sort_by_score l)).
Proof.
  induction l as [| x l IH]; simpl; auto.
  apply insert_by_score_descending. exact IH.
Qed.

Lemma firstn_descending n l : descending l -> descending (firstn n l).
Proof.
  revert l. induction n as [| n IH]; intros l; simpl; auto.
  destruct l as [| x l]; simpl; auto.
  intros (Hx & Hl). split; auto.
  intros y Hy. apply Hx. eapply In_firstn; eauto.
Qed.

Lemma extract_descending score query choices :
  descending (map snd (extract score query choices)).
Proof.
  unfold extract. rewrite <- firstn_map. apply firstn_descending.
  apply sort_by_score_descending.
Qed.

Lemma extract_score score query choices p :
  In p (extract score query choices) -> snd p = score query (fst p).
Proof.
  unfold extract. intros H. apply In_firstn in H.
  apply In_sort_by_score in H. apply in_map_iff in H.
  destruct H as (c & <- & _). reflexivity.
Qed.

Lemma extract_length score query choices :
  (List.length (extract score query choices) <= default_limit)%nat.
Proof. unfold extract. apply firstn_le_length. Qed.

(** With no more candidates than the limit, none is cut. *)
Lemma extract_all score query choices c :
  (List.length choices <= default_limit)%nat ->
  In c choices ->
  In (c, score query c) (extract score query choices).
Proof.
  intros Hl Hc. unfold extract.
  rewrite firstn_all2
    by (rewrite length_sort_by_score, length_map; exact Hl).
  apply In_sort_by_score_iff.
  apply (in_map (fun c => (c, score query c))). exact Hc.
Qed.

(** The rows picked for the candidates the matcher returned. *)
Lemma In_picked {A} (key : A -> string) (threshold : Z) (data : list A)
      (scored : list (string * Z)) (row : A) :
  In row (flat_map
            (fun score_tuple =>
               if threshold <=? snd score_tuple
               then filter (fun r => (key r =? fst score_tuple)%string) data
               else [])
            scored)
  <-> In row data
      /\ exists p, In p scored /\ threshold <= snd p /\ key row = fst p.
Proof.
  rewrite in_flat_map. split.
  - intros (p & Hp & Hin). destruct (threshold <=? snd p) eqn:Ht;
      [| contradiction].
    apply filter_In in Hin. destruct Hin as (Hin & He).
    apply String.eqb_eq in He. apply Z.leb_le in Ht. eauto.
  - intros (Hin & p & Hp & Ht & He). exists p. split; [exact Hp |].
    apply Z.leb_le in Ht. rewrite Ht. apply filter_In. split; auto.
    apply String.eqb_eq. exact He.
Qed.

Lemma descending_block (v : Z) (blk rest : list Z) :
  (forall x, In x blk -> x = v) ->
  (forall y, In y rest -> y <= v) ->
  descending rest ->
  descending (blk ++ rest).
Proof.
  intros Hb Hr Hd. induction blk as [| x blk IH]; simpl; auto.
  split.
  - intros y Hy. rewrite (Hb x (or_introl eq_refl)).
    apply in_app_or in Hy. destruct Hy as [Hy | Hy]; auto.
    rewrite (Hb y (or_intror Hy)). lia.
  - apply IH. intros y Hy. apply Hb. right. exact Hy.
Qed.

Lemma picked_descending {A} (key : A -> string) (threshold : Z)
      (data : list A) (scored : list (string * Z)) (sc : A -> Z) :
  (forall p row, In p scored -> key row = fst p -> sc row = snd p) ->
  descending (map snd scored) ->
  descending
    (map sc
         (flat_map
            (fun score_tuple =>
               if threshold <=? snd score_tuple
               then filter (fun r => (key r =? fst score_tuple)%string) data
               else [])
            scored)).
Proof.
  induction scored as [| p scored IH]; simpl; auto.
  intros Hsc (Hp & Hd).
  assert (IH' := IH (fun q row Hq => Hsc q row (or_intror Hq)) Hd).
  rewrite map_app.
  assert (Hrest : forall y,
             In y (map sc (flat_map
                             (fun score_tuple =>
                                if threshold <=? snd score_tuple
                                then filter (fun r => (key r =? fst score_tuple)%string)
                                            data
                                else [])
                             scored)) ->
             y <= snd p).
  { intros y Hy. apply in_map_iff in Hy. destruct Hy as (row & <- & Hrow).
    apply In_picked in Hrow. destruct Hrow as (_ & q & Hq & _ & He).
    rewrite (Hsc q row (or_intror Hq) He). apply Hp. apply in_map. exact Hq. }
  destruct (threshold <=? snd p); simpl; [| exact IH'].
  apply descending_block with (v := snd p); auto.
  intros x Hx. apply in_map_iff in Hx. destruct Hx as (r & <- & Hr).
  apply filter_In in Hr. destruct Hr as (_ & He).
  apply String.eqb_eq in He. apply (Hsc p r (or_introl eq_refl) He).
Qed.

Lemma retrieve_similar_titles_result score title excluded s rows s' evs :
  retrieve_similar_titles score title excluded s = (Ok rows, s', evs) ->
  rows
  = flat_map
      (fun score_tuple =>
         if 90 <=? snd score_tuple
         then filter (fun r => (b_title (fst r) =? fst score_tuple)%string)
                     (select_book_join_author (db s))
         else [])
      (extract score title
         (map (fun r => b_title (fst r))
              (filter (fun r => negb (b_title (fst r) =? excluded)%string)
                      (select_book_join_author (db s))))).
Proof.
  unfold retrieve_similar_titles, bind, retrieve_sqlite_query, next_fault,
    iterable, ret, raise.
  intros H. destruct (faults s) as [| [] fs]; simpl in H; inv H; reflexivity.
Qed.

Lemma retrieve_similar_authors_result score name s rows s' evs :
  retrieve_similar_authors score name s = (Ok rows, s', evs) ->
  rows
  = flat_map
      (fun score_tuple =>
         if 75 <=? snd score_tuple
         then filter (fun a => (a_name a =? fst score_tuple)%string)
                     (author (db s))
         else [])
      (extract score name (map a_name (author (db s)))).
Proof.
  unfold retrieve_similar_authors, bind, retrieve_sqlite_query, next_fault,
    iterable, ret, raise, select_all_authors.
  intros H. destruct (faults s) as [| [] fs]; simpl in H; inv H; reflexivity.
Qed.

(** X8: Every row that [retrieve_similar_titles] returns is a row of the
    join of the two tables whose title is not the excluded one and
    scores 90 or more against the query; the rows carry the titles of
    at most five candidates; the tables are not touched. *)
Theorem similar_titles_sound score title excluded s rows s' evs :
  retrieve_similar_titles score title excluded s = (Ok rows, s', evs) ->
  db s' = db s
  /\ execs evs = []
  /\ (forall row,
         In row rows ->
         In row (select_book_join_author (db s))
         /\ b_title (fst row) <> excluded
         /\ 90 <= score title (b_title (fst row)))
  /\ exists titles,
      (List.length titles <= 5)%nat
      /\ forall row, In row rows -> In (b_title (fst row)) titles.
Proof.
  intros H.
  pose proof (retrieve_similar_titles_result _ _ _ _ _ _ _ H) as Hrows.
  destruct (retrieve_similar_titles_reads score (fun _ => False) _ _ _ _ _ _ H)
    as (Hd & He & _).
  split; [exact Hd |]. split; [exact He |]. subst rows. split.
  - intros row Hrow. apply In_picked in Hrow.
    destruct Hrow as (Hin & p & Hp & Ht & Hk). split; [exact Hin |].
    pose proof (extract_score _ _ _ _ Hp) as Hs.
    apply extract_In in Hp. apply in_map_iff in Hp.
    destruct Hp as (r0 & Hr0 & Hf). apply filter_In in Hf.
    destruct Hf as (_ & Hne). apply negb_true_iff, String.eqb_neq in Hne.
    split; [congruence |]. rewrite Hk, <- Hs. exact Ht.
  - eexists (map fst (extract score title _)). split.
    + rewrite length_map. apply extract_length.
    + intros row Hrow. apply In_picked in Hrow.
      destruct Hrow as (_ & p & Hp & _ & Hk). rewrite Hk.
      apply in_map. exact Hp.
Qed.

Lemma similar_titles_sound_witness :
  db (State dune_and_emma [] []) = db (State dune_and_emma [] [])
  /\ execs [] = []
  /\ (forall row,
         In row [(Book 3001 "Dune" 1290 (Some 1),
                  Author 1290 "Frank Herbert" "USA")] ->
         In row (select_book_join_author (db (State dune_and_emma [] [])))
         /\ b_title (fst row) <> "Emma"
         /\ 90 <= always_100 "Dune" (b_title (fst row)))
  /\ exists titles,
      (List.length titles <= 5)%nat
      /\ forall row,
          In row [(Book 3001 "Dune" 1290 (Some 1),
                   Author 1290 "Frank Herbert" "USA")] ->
          In (b_title (fst row)) titles.
Proof.
  apply (similar_titles_sound always_100 "Dune" "Emma"
           (State dune_and_emma [] [])).
  vm_compute. reflexivity.
Defined.

(** X9: The rows that [retrieve_similar_titles] returns come in descending
    order of the score of their title. *)
Theorem similar_titles_descending score title excluded s rows s' evs :
  retrieve_similar_titles score title excluded s = (Ok rows, s', evs) ->
  descending (map (fun row => score title (b_title (fst row))) rows).
Proof.
  intros H. rewrite (retrieve_similar_titles_result _ _ _ _ _ _ _ H).
  apply picked_descending.
  - intros p row Hp Hk. rewrite Hk. symmetry. eapply extract_score; eauto.
  - apply extract_descending.
Qed.

(** X10: When no more than five rows of the join are candidates, that is
    have a title other than the excluded one, [retrieve_similar_titles]
    returns every one of them that scores 90 or more. *)
Theorem similar_titles_complete_up_to_limit
        score title excluded s rows s' evs :
  retrieve_similar_titles score title excluded s = (Ok rows, s', evs) ->
  (List.length
     (filter (fun r => negb (b_title (fst r) =? excluded)%string)
             (select_book_join_author (db s))) <= 5)%nat ->
  forall row,
    In row (select_book_join_author (db s)) ->
    b_title (fst row) <> excluded ->
    90 <= score title (b_title (fst row)) ->
    In row rows.
Proof.
  intros H Hl row Hin Hne Hs.
  rewrite (retrieve_similar_titles_result _ _ _ _ _ _ _ H).
  apply In_picked. split; [exact Hin |].
  exists (b_title (fst row), score title (b_title (fst row))).
  split; [| split; [exact Hs | reflexivity]].
  apply extract_all.
  - rewrite length_map. exact Hl.
  - apply (in_map (fun r => b_title (fst r))). apply filter_In.
    split; [exact Hin |]. apply negb_true_iff, String.eqb_neq. exact Hne.
Qed.

Lemma similar_titles_descending_witness :
  descending
    (map (fun row => prefers_emma "Emma" (b_title (fst row)))
         [(Book 3002 "Emma" 1775 (Some 2), Author 1775 "Jane Austen" "England");
          (Book 3001 "Dune" 1290 (Some 1), Author 1290 "Frank Herbert" "USA")]).
Proof.
  apply (similar_titles_descending prefers_emma "Emma" ""
           (State dune_and_emma [] []) _ (State dune_and_emma [] []) []).
  vm_compute. reflexivity.
Defined.

Lemma similar_titles_complete_up_to_limit_witness :
  In (Book 3001 "Dune" 1290 (Some 1), Author 1290 "Frank Herbert" "USA")
     [(Book 3001 "Dune" 1290 (Some 1), Author 1290 "Frank Herbert" "USA")].
Proof.
  apply (similar_titles_complete_up_to_limit always_100 "Dune" "Emma"
           (State dune_and_emma [] []) _ (State dune_and_emma [] []) []).
  - vm_compute. reflexivity.
  - vm_compute. lia.
  - simpl. auto.
  - simpl. discriminate.
  - unfold always_100. lia.
Defined.

(** X11: [retrieve_similar_authors] returns author rows whose name scores 75
    or more against the query, in descending order of that score; and
    when the table holds no more than five authors it returns every
    such row. *)
Theorem similar_authors_sound_and_complete score name s rows s' evs :
  retrieve_similar_authors score name s = (Ok rows, s', evs) ->
  db s' = db s
  /\ (forall a, In a rows ->
                In a (author (db s)) /\ 75 <= score name (a_name a))
  /\ descending (map (fun a => score name (a_name a)) rows)
  /\ ((List.length (author (db s)) <= 5)%nat ->
      forall a, In a (author (db s)) -> 75 <= score name (a_name a) ->
                In a rows).
Proof.
  intros H.
  pose proof (retrieve_similar_authors_result _ _ _ _ _ _ H) as Hrows.
  destruct (retrieve_similar_authors_reads score (fun _ => False) _ _ _ _ _ H)
    as (Hd & _).
  split; [exact Hd |]. subst rows. split; [| split].
  - intros a Ha. apply In_picked in Ha.
    destruct Ha as (Hin & p & Hp & Ht & Hk). split; [exact Hin |].
    rewrite Hk, <- (extract_score _ _ _ _ Hp). exact Ht.
  - apply picked_descending.
    + intros p a Hp Hk. rewrite Hk. symmetry. eapply extract_score; eauto.
    + apply extract_descending.
  - intros Hl a Hin Hs. apply In_picked. split; [exact Hin |].
    exists (a_name a, score name (a_name a)).
    split; [| split; [exact Hs | reflexivity]].
    apply extract_all.
    + rewrite length_map. exact Hl.
    + apply in_map. exact Hin.
Qed.

Lemma similar_authors_sound_and_complete_witness :
  db (State dune_and_emma [] []) = db (State dune_and_emma [] [])
  /\ (forall a,
         In a [Author 1290 "Frank Herbert" "USA";
               Author 1775 "Jane Austen" "England"] ->
         In a (author (db (State dune_and_emma [] [])))
         /\ 75 <= always_100 "Jane" (a_name a))
  /\ descending
       (map (fun a => always_100 "Jane" (a_name a))
            [Author 1290 "Frank Herbert" "USA";
             Author 1775 "Jane Austen" "England"])
  /\ ((List.length (author (db (State dune_and_emma [] []))) <= 5)%nat ->
      forall a,
        In a (author (db (State dune_and_emma [] []))) ->
        75 <= always_100 "Jane" (a_name a) ->
        In a [Author 1290 "Frank Herbert" "USA";
              Author 1775 "Jane Austen" "England"]).
Proof.
  apply (similar_authors_sound_and_complete always_100 "Jane"
           (State dune_and_emma [] []) _ (State dune_and_emma [] []) []).
  vm_compute. reflexivity.
Defined.

(** ** Referential integrity, operation by operation *)

Lemma I1_ids d :
  I1 d <->
  (forall x, In x (map b_authorID (book d)) -> In x (map a_id (author d))).
Proof.
  unfold I1. split.
  - intros H x Hx. apply in_map_iff in Hx. destruct Hx as (b & <- & Hb).
    destruct (H b Hb) as (a & Ha & <-). apply in_map. exact Ha.
  - intros H b Hb. specialize (H (b_authorID b) (in_map b_authorID _ _ Hb)).
    apply in_map_iff in H. destruct H as (a & He & Ha). eauto.
Qed.

Lemma same_links_keeps_I1 d d' : same_links d d' -> I1 d -> I1 d'.
Proof.
  intros (_ & Hl & Ha) HI. apply I1_ids. rewrite Hl, Ha.
  apply I1_ids. exact HI.
Qed.

Lemma has_author_row id d :
  has_author id d = true -> exists a, In a (author d) /\ a_id a = id.
Proof.
  unfold has_author. intros H. apply existsb_exists in H.
  destruct H as (a & Ha & He). apply Z.eqb_eq in He. eauto.
Qed.

(** More author rows over the same books keep I1. *)
Lemma I1_more_authors d d1 :
  I1 d -> book d1 = book d ->
  (forall a, In a (author d) -> In a (author d1)) ->
  I1 d1.
Proof.
  intros HI Hb Ha b Hin. rewrite Hb in Hin.
  destruct (HI b Hin) as (a & Hin' & He). eauto.
Qed.

(** X12: [add_book] keeps I1 in every run, whatever the store does, and
    removes no row: the tables it ends with hold every book row and
    every author row it started with. *)
Theorem add_book_keeps_I1 score s r s' evs :
  add_book score s = (r, s', evs) ->
  I1 (db s) ->
  I1 (db s')
  /\ (forall b, In b (book (db s)) -> In b (book (db s')))
  /\ (forall a, In a (author (db s)) -> In a (author (db s'))).
Proof.
  intros H HI. apply add_book_run in H.
  destruct H as [(-> & _) | [(-> & _) | H]]; auto.
  destruct H as (aid & d1 & pre & Hb & Hh & Ha & H).
  assert (Hsub : forall a, In a (author (db s)) -> In a (author d1)).
  { destruct Ha as [(-> & _) | (n & c & -> & _)]; auto.
    intros a Hin. apply in_or_app. auto. }
  pose proof (I1_more_authors _ _ HI Hb Hsub) as HI1.
  destruct H as [(-> & _) | [(bid & t & q & _ & Hq) | (bid & t & q & _ & ->)]].
  - rewrite Hb. auto.
  - simpl in Hq. destruct (has_book bid d1); [discriminate Hq |].
    injection Hq as <-. simpl. split; [| split; auto].
    + intros b Hin. simpl in Hin. apply in_app_or in Hin.
      destruct Hin as [Hin | [<- | []]].
      * apply (HI1 b Hin).
      * simpl. destruct (has_author_row _ _ Hh) as (a & Hin & He). eauto.
    + intros b Hin. apply in_or_app. left. rewrite Hb. exact Hin.
  - rewrite Hb. auto.
Qed.

Lemma add_book_keeps_I1_witness :
  I1 (db (snd (fst (add_book always_100 author_insert_fails))))
  /\ (forall b, In b (book (db author_insert_fails)) ->
                In b (book (db (snd (fst (add_book always_100
                                                   author_insert_fails))))))
  /\ (forall a, In a (author (db author_insert_fails)) ->
                In a (author (db (snd (fst (add_book always_100
                                                     author_insert_fails)))))).
Proof.
  apply (add_book_keeps_I1 always_100 author_insert_fails
           (fst (fst (add_book always_100 author_insert_fails)))
           _ (snd (add_book always_100 author_insert_fails))).
  - vm_compute. reflexivity.
  - intros b [].
Defined.

(** I1 after the deletion of a book and, when the check said so, of the
    author it pointed at. *)
Lemma I1_delete d b0 :
  I1 d -> In b0 (book d) ->
  I1 (remove_book (b_id b0) d)
  /\ ((book_count (b_authorID b0) d <? 2)%nat = true ->
      I1 (remove_author (b_authorID b0) (remove_book (b_id b0) d))).
Proof.
  intros HI Hb0. split.
  - intros b Hin. simpl in Hin. apply filter_In in Hin.
    destruct Hin as (Hin & _). apply (HI b Hin).
  - intros Hc b Hin. simpl in Hin. apply filter_In in Hin.
    destruct Hin as (Hin & Hne). apply negb_true_iff, Z.eqb_neq in Hne.
    destruct (HI b Hin) as (a & Ha & He). exists a. split; [| exact He].
    simpl. apply filter_In. split; [exact Ha |].
    apply negb_true_iff, Z.eqb_neq. intros Hcur.
    apply Hne. f_equal. eapply only_reference; eauto. congruence.
Qed.

(** X13: [delete_book] keeps I1 in every run, whatever the store does: the
    author row is removed only when the deleted book was the one book
    that pointed at it. *)
Theorem delete_book_keeps_I1 s r s' evs :
  delete_book s = (r, s', evs) ->
  I1 (db s) ->
  I1 (db s').
Proof.
  intros H HI. apply delete_book_run in H.
  destruct H as [(-> & _) | H]; auto.
  destruct H as (row & pre & tail & -> & _ & _ & Hrow & _ & Ht).
  apply joined_In in Hrow. destruct Hrow as (Hb0 & _ & Hlink).
  destruct (I1_delete _ _ HI Hb0) as (H1 & H2). rewrite Hlink in H2.
  destruct Ht as [(_ & ->) | [(_ & _ & ->) | [(Ho & _ & ->) | (_ & _ & ->)]]];
    auto.
Qed.

Lemma delete_book_keeps_I1_witness :
  I1 (db (snd (fst (delete_book delete_confirmed)))).
Proof.
  apply (delete_book_keeps_I1 delete_confirmed
           (fst (fst (delete_book delete_confirmed)))
           _ (snd (delete_book delete_confirmed))).
  - vm_compute. reflexivity.
  - intros b [<- | []]. exists (Author 1290 "N" "C"). simpl. auto.
Defined.

(** I1 after the update of a book to an author that is in the table
    and, when the check said so, the removal of the author it pointed
    at before. *)
Lemma I1_reassign d d1 b0 new_id :
  I1 d -> In b0 (book d) -> book d1 = book d ->
  (forall a, In a (author d) -> In a (author d1)) ->
  has_author new_id d1 = true ->
  I1 (reassign_book new_id (b_id b0) d1)
  /\ (new_id <> b_authorID b0 ->
      (book_count (b_authorID b0) d <? 2)%nat = true ->
      I1 (remove_author (b_authorID b0) (reassign_book new_id (b_id b0) d1))).
Proof.
  intros HI Hb0 Hbook Hsub Hh.
  destruct (has_author_row _ _ Hh) as (an & Han & Hid).
  split.
  - intros b Hin. simpl in Hin. apply in_map_iff in Hin.
    destruct Hin as (b1 & <- & Hb1). rewrite Hbook in Hb1.
    destruct (b_id b1 =? b_id b0).
    + exists an. simpl. auto.
    + destruct (HI b1 Hb1) as (a & Ha & He). exists a. simpl. auto.
  - intros Hne Hc b Hin. simpl in Hin. apply in_map_iff in Hin.
    destruct Hin as (b1 & <- & Hb1). rewrite Hbook in Hb1.
    destruct (b_id b1 =? b_id b0) eqn:E.
    + exists an. simpl. split; [| exact Hid].
      apply filter_In. split; [exact Han |].
      apply negb_true_iff, Z.eqb_neq. congruence.
    + destruct (HI b1 Hb1) as (a & Ha & He). exists a. split; [| exact He].
      simpl. apply filter_In. split; [auto |].
      apply negb_true_iff, Z.eqb_neq. intros Hcur.
      assert (b1 = b0) by (eapply only_reference; eauto; congruence).
      subst b1. rewrite Z.eqb_refl in E. discriminate E.
Qed.

Lemma update_author_id_keeps_I1 score b0 name country s r s' evs :
  I1 (db s) -> In b0 (book (db s)) ->
  update_author_id score (b_id b0) (b_authorID b0) name country s
    = (r, s', evs) ->
  (forall new_id,
      In (Exec (UpdateBookAuthor new_id (b_id b0)) true) evs ->
      new_id <> b_authorID b0) ->
  I1 (db s').
Proof.
  intros HI Hb0 H Hne. apply update_author_id_run in H.
  destruct H as [(-> & _) | [(-> & _) | H]]; auto.
  destruct H as (new_id & d1 & pre & tail & -> & _ & Hb & Hh & Ha & Ht).
  assert (Hsub : forall a, In a (author (db s)) -> In a (author d1)).
  { destruct Ha as [(-> & _) | (n & c & -> & _)]; auto.
    intros a Hin. apply in_or_app. auto. }
  destruct (I1_reassign _ _ _ _ HI Hb0 Hb Hsub Hh) as (H1 & H2).
  destruct Ht as [(_ & ->) | [(_ & _ & ->) | [(Ho & -> & ->) | (_ & _ & ->)]]];
    auto.
  - apply (I1_more_authors (db s)); auto.
  - apply H2; [| exact Ho]. apply Hne. apply in_or_app. right. simpl. auto.
Qed.

(** X14: [update_book] keeps I1 in every run, whatever the store does,
    provided the run does not send an update that gives a book the
    author id it already has. *)
Theorem update_book_keeps_I1 score s r s' evs :
  I1 (db s) ->
  update_book score s = (r, s', evs) ->
  (forall new_id b,
      In (Exec (UpdateBookAuthor new_id (b_id b)) true) evs ->
      In b (book (db s)) ->
      new_id <> b_authorID b) ->
  I1 (db s').
Proof.
  unfold update_book. intros HI H Hne.
  step H as target s1 e1 H1.
  2:{ quiet H. rewrite Hd. auto. }
  quiet H1.
  step H as fetched s2 e2 H2.
  2:{ quiet H. replace (db s') with (db s) by congruence. auto. }
  apply retrieve_run in H2. destruct H2 as (Hd2 & He2 & Hp2 & Hf).
  step H as row s3 e3 H3.
  2:{ quiet H. replace (db s') with (db s) by congruence. auto. }
  destruct Hf as [Hf | Hf]; injection Hf as ->; [inv H3 |].
  apply first_row_run in H3. destruct H3 as (Hrow & -> & ->).
  apply joined_where_id in Hrow. destruct Hrow as (Hrow & Hid).
  apply joined_In in Hrow. destruct Hrow as (Hb0 & _ & Hlink).
  step H as u1 s4 e4 H4; [| inv H]. printed H4.
  step H as u2 s5 e5 H5; [| inv H]. printed H5.
  step H as u3 s6 e6 H6; [| inv H]. printed H6.
  step H as choice s7 e7 H7 then rest.
  2:{ quiet H. replace (db s') with (db s) by congruence. auto. }
  quiet H7.
  assert (Hs : db s7 = db s) by congruence.
  assert (Hlinks : forall k : M unit,
             links_only k -> k s7 = (r, s', rest) -> I1 (db s')).
  { intros k Lk Hk'. apply Lk in Hk'. rewrite Hs in Hk'.
    eapply same_links_keeps_I1; eauto. }
  destruct (choice =? 1); [eapply Hlinks; [| exact H]; links |].
  destruct (choice =? 2); [eapply Hlinks; [| exact H]; links |].
  destruct (choice =? 3).
  { rewrite <- Hlink in H.
    step H as u4 s8 e8 H8; [| inv H]. printed H8.
    assert (Hbs : In (fst row) (book (db s)))
      by (replace (db s) with (db s1) by congruence; exact Hb0).
    assert (HI7 : I1 (db s7)) by (rewrite Hs; exact HI).
    assert (Hb7 : In (fst row) (book (db s7))) by (rewrite Hs; exact Hbs).
    step H as u5 s9 e9 H9.
    - returned H.
      eapply update_author_id_keeps_I1; try exact H9; auto.
      intros new_id Hin. eapply Hne; [| exact Hbs].
      rewrite ?in_app_iff. simpl. tauto.
    - eapply update_author_id_keeps_I1; try exact H; auto.
      intros new_id Hin. eapply Hne; [| exact Hbs].
      rewrite ?in_app_iff. simpl. tauto. }
  destruct (choice =? 4); [eapply Hlinks; [| exact H]; links |].
  destruct (choice =? 5); [eapply Hlinks; [| exact H]; links |].
  returned H. rewrite Hs. exact HI.
Qed.

Lemma update_book_keeps_I1_witness :
  I1 (db (snd (fst (update_book always_100 move_to_new_author)))).
Proof.
  apply (update_book_keeps_I1 always_100 move_to_new_author
           (fst (fst (update_book always_100 move_to_new_author)))
           _ (snd (update_book always_100 move_to_new_author))).
  - intros b [<- | []]. exists (Author 1290 "N" "C"). simpl. auto.
  - vm_compute. reflexivity.
  - intros new_id b Hin [<- | []]. vm_compute in Hin.
    repeat (destruct Hin as [Hin | Hin]; [try discriminate Hin |]);
      [| contradiction].
    injection Hin as <-. vm_compute. discriminate.
Defined.

(** ** The session *)

(** *** No operation puts lines back on the input *)

Lemma consumes_ret {A} (a : A) : consumes (ret a).
Proof. intros s r s' evs H. inv H. lia. Qed.

Lemma consumes_raise {A} e : consumes (@raise A e).
Proof. intros s r s' evs H. inv H. lia. Qed.

Lemma consumes_print msg : consumes (print msg).
Proof. intros s r s' evs H. inv H. lia. Qed.

Lemma consumes_print_all msgs : consumes (print_all msgs).
Proof. intros s r s' evs H. inv H. lia. Qed.

Lemma consumes_bind {A B} (m : M A) (k : A -> M B) :
  consumes m -> (forall a, consumes (k a)) -> consumes (bind m k).
Proof.
  intros Hm Hk s r s' evs H. apply bind_inv in H.
  destruct H as [(a & s1 & e1 & e2 & H1 & H2 & ->) | (e & H1 & ->)].
  - apply Hm in H1. apply Hk in H2. lia.
  - apply (Hm _ _ _ _ H1).
Qed.

Lemma consumes_retrieve {A} (rows : database -> list A) :
  consumes (retrieve_sqlite_query rows).
Proof.
  intros s r s' evs H. unfold retrieve_sqlite_query, next_fault in H.
  destruct (faults s) as [| [] fs]; inv H; simpl; lia.
Qed.

Lemma consumes_execute q : consumes (execute_sqlite_query q).
Proof.
  intros s r s' evs H. unfold execute_sqlite_query, next_fault in H.
  destruct (faults s) as [| [] fs]; simpl in H;
    try destruct (negb (params_fit q));
    try destruct (apply_statement q (db s));
    inv H; simpl; lia.
Qed.

Lemma consumes_iterable {A} (data : option (list A)) : consumes (iterable data).
Proof. destruct data; [apply consumes_ret | apply consumes_raise]. Qed.

Lemma consumes_first_row {A} (data : option (list A)) :
  consumes (first_row data).
Proof.
  destruct data as [[| r rows] |]; simpl;
    auto using consumes_ret, consumes_raise.
Qed.

Lemma get_valid_option_input_consumes n : consumes (get_valid_option_input n).
Proof.
  intros s r s' evs. unfold get_valid_option_input.
  destruct (get_valid_option_input_from n (stdin s)) as [[r0 rest] e0] eqn:E.
  intros H. inv H. simpl.
  revert r rest evs E. generalize (stdin s) as lines.
  induction lines as [| l lines IH]; intros r rest evs E; simpl in E.
  - inv E. simpl. lia.
  - destruct (get_valid_option_input_from n lines) as [[r1 rest1] e1].
    specialize (IH _ _ _ eq_refl).
    destruct (int_value l) as [k |];
      [destruct ((0 <=? k) && (k <? n)) |]; inv E; simpl; lia.
Qed.

Lemma get_yes_no_consumes p : consumes (get_yes_no p).
Proof.
  intros s r s' evs. unfold get_yes_no.
  destruct (get_yes_no_from p (stdin s)) as [[r0 rest] e0] eqn:E.
  intros H. inv H. simpl.
  revert r rest evs E. generalize (stdin s) as lines.
  induction lines as [| l lines IH]; intros r rest evs E; simpl in E.
  - inv E. simpl. lia.
  - destruct (get_yes_no_from p lines) as [[r1 rest1] e1].
    specialize (IH _ _ _ eq_refl).
    destruct (lower (text l) =? "y")%string;
      [| destruct (lower (text l) =? "")%string;
         [| destruct (lower (text l) =? "n")%string]];
      inv E; simpl; lia.
Qed.

Lemma get_valid_string_consumes p : consumes (get_valid_string p).
Proof.
  intros s r s' evs. unfold get_valid_string.
  destruct (get_valid_string_from p (stdin s)) as [[r0 rest] e0] eqn:E.
  intros H. inv H. simpl.
  revert r rest evs E. generalize (stdin s) as lines.
  induction lines as [| l lines IH]; intros r rest evs E; simpl in E.
  - inv E. simpl. lia.
  - destruct (get_valid_string_from p lines) as [[r1 rest1] e1].
    specialize (IH _ _ _ eq_refl).
    destruct (text l =? "")%string; inv E; simpl; lia.
Qed.

Lemma get_valid_integer_consumes p : consumes (get_valid_integer p).
Proof.
  intros s r s' evs. unfold get_valid_integer.
  destruct (get_valid_integer_from p (stdin s)) as [[r0 rest] e0] eqn:E.
  intros H. inv H. simpl.
  revert r rest evs E. generalize (stdin s) as lines.
  induction lines as [| l lines IH]; intros r rest evs E; simpl in E.
  - inv E. simpl. lia.
  - destruct (get_valid_integer_from p lines) as [[r1 rest1] e1].
    specialize (IH _ _ _ eq_refl).
    destruct (int_value l); inv E; simpl; lia.
Qed.

Create HintDb eats.
#[local] Hint Resolve consumes_ret consumes_raise consumes_print
  consumes_print_all consumes_retrieve consumes_execute consumes_iterable
  consumes_first_row get_valid_option_input_consumes get_yes_no_consumes
  get_valid_string_consumes get_valid_integer_consumes : eats.

(** Breaks a goal [consumes m] along the shape of [m]. *)
Ltac eats :=
  repeat first
    [ apply consumes_bind; [| intros ?]
    | progress eauto with eats
    | match goal with
      | |- consumes (if ?b then _ else _) => destruct b
      | |- consumes (match ?x with _ => _ end) => destruct x
      end ].

Lemma check_id_exists_consumes table id : consumes (check_id_exists table id).
Proof. unfold check_id_exists. eats. Qed.

(** The facts of one turn of an id loop, for [consumes]. *)
Ltac loop_eats IH :=
  repeat match goal with
         | E : check_id_exists _ _ _ = _ |- _ =>
             apply check_id_exists_consumes in E; simpl in E
         | E : _ = (_, _, _) |- _ => apply IH in E
         end;
  simpl; try lia.

Lemma get_valid_id_from_consumes table lines :
  forall s r s' evs,
    get_valid_id_from table lines s = (r, s', evs) ->
    (List.length (stdin s') <= List.length lines)%nat.
Proof.
  induction lines as [| l lines IH]; intros s r s' evs H.
  - inv H. simpl. lia.
  - unfold get_valid_id_from in H; fold get_valid_id_from in H.
    cbv beta zeta in H.
    loop_cases H; loop_eats IH.
Qed.

Lemma get_existing_id_from_consumes table lines :
  forall s r s' evs,
    get_existing_id_from table lines s = (r, s', evs) ->
    (List.length (stdin s') <= List.length lines)%nat.
Proof.
  induction lines as [| l lines IH]; intros s r s' evs H.
  - inv H. simpl. lia.
  - unfold get_existing_id_from in H; fold get_existing_id_from in H.
    cbv beta zeta in H.
    loop_cases H; loop_eats IH.
Qed.

Lemma get_valid_id_consumes table : consumes (get_valid_id table).
Proof.
  intros s r s' evs H. apply get_valid_id_from_consumes in H. exact H.
Qed.

Lemma get_existing_id_consumes table : consumes (get_existing_id table).
Proof.
  intros s r s' evs H. apply get_existing_id_from_consumes in H. exact H.
Qed.

#[local] Hint Resolve check_id_exists_consumes get_valid_id_consumes
  get_existing_id_consumes : eats.

Lemma menu_case_consumes score menu_selection :
  consumes (menu_case score menu_selection).
Proof.
  unfold menu_case, add_book, enter_book, add_author, create_author,
    update_book, update_quantity, update_title, update_author_id, reassign,
    update_author_name, update_author_country, delete_book, search_book,
    search_by_id, search_by_title, view_all_books, retrieve_similar_titles,
    retrieve_similar_authors, update_creates_orphan, get_affected_books.
  eats.
Qed.

(** *** The main loop *)

Lemma main_loop_turn score turns s :
  main_loop score (S turns) s
  = match (print main_menu;; get_valid_option_input 6) s with
    | (Raise e, s1, e1) => Some (Raise e, s1, e1)
    | (Ok menu_selection, s1, e1) =>
        if menu_selection =? 0 then Some (Ok tt, s1, e1)
        else
          match menu_case score menu_selection s1 with
          | (Raise e, s2, e2) => Some (Raise e, s2, e1 ++ e2)
          | (Ok _, s2, e2) =>
              match main_loop score turns s2 with
              | Some (r, s3, e3) => Some (r, s3, e1 ++ e2 ++ e3)
              | None => None
              end
          end
    end.
Proof. reflexivity. Qed.

(** The selection of the main menu reads at least one line. *)
Lemma menu_selection_reads_a_line s k s1 e1 :
  (print main_menu;; get_valid_option_input 6) s = (Ok k, s1, e1) ->
  db s1 = db s
  /\ execs e1 = []
  /\ (List.length (stdin s1) < List.length (stdin s))%nat.
Proof.
  intros H. apply bind_inv in H.
  destruct H as [(u & s0 & e0 & e2 & H0 & H & ->) | (e & _ & Hr)];
    [| discriminate Hr].
  printed H0.
  unfold get_valid_option_input in H.
  destruct (get_valid_option_input_from 6 (stdin s)) as [[r rest] e] eqn:E.
  inv H. pose proof (get_valid_option_input_reads 6 s) as Hr.
  unfold get_valid_option_input in Hr. rewrite E in Hr.
  destruct (Hr _ _ _ eq_refl) as (_ & He & _).
  apply get_valid_option_input_from_result in E.
  destruct E as (_ & bad & l & -> & _). simpl.
  repeat split; auto. rewrite length_app. simpl. lia.
Qed.

Lemma main_loop_enough score turns :
  forall s,
    (List.length (stdin s) < turns)%nat ->
    exists r s' evs, main_loop score turns s = Some (r, s', evs).
Proof.
  induction turns as [| turns IH]; intros s Hlt; [lia |].
  rewrite main_loop_turn.
  destruct ((print main_menu;; get_valid_option_input 6) s)
    as [[[k | e] s1] e1] eqn:E; [| eauto].
  apply menu_selection_reads_a_line in E. destruct E as (_ & _ & Hl).
  destruct (k =? 0); [eauto |].
  destruct (menu_case score k s1) as [[[u | e] s2] e2] eqn:E2; [| eauto].
  apply menu_case_consumes in E2.
  destruct (IH s2) as (r & s3 & e3 & ->); [lia | eauto].
Qed.

(** X15: On every finite input the session comes to an end: the main loop
    stops after at most one turn more than there are lines typed, by
    the selection 0 or by an exception (the [EOFError] of an input that
    ran out among them). *)
Theorem main_terminates score s :
  exists r s' evs, main score s = Some (r, s', evs).
Proof. unfold main. apply main_loop_enough. lia. Qed.

Lemma menu_case_keeps score k s r s' evs :
  I2 (db s) -> book_keys (db s) ->
  menu_case score k s = (r, s', evs) ->
  r = Ok tt ->
  store_ok evs ->
  I2 (db s') /\ book_keys (db s').
Proof.
  unfold menu_case. intros HI Hk H Hr Hok.
  assert (Hquiet : forall m : M unit,
             reads_only (fun _ => True) m -> m s = (r, s', evs) ->
             I2 (db s') /\ book_keys (db s')).
  { intros m Hm Hrun. apply Hm in Hrun. destruct Hrun as (-> & _). auto. }
  destruct (k =? 1).
  { step H as u s1 e1 H1; [| inv H]. printed H1.
    apply store_ok_app in Hok. destruct Hok as (_ & Hok).
    subst r. eapply add_book_keeps; eauto. }
  destruct (k =? 2).
  { step H as u s1 e1 H1; [| inv H]. printed H1.
    apply store_ok_app in Hok. destruct Hok as (_ & Hok).
    eapply update_book_keeps; eauto. }
  destruct (k =? 3).
  { step H as u s1 e1 H1; [| inv H]. printed H1.
    apply store_ok_app in Hok. destruct Hok as (_ & Hok).
    eapply delete_book_keeps; eauto. }
  destruct (k =? 4).
  { apply Hquiet in H; auto.
    unfold search_book, search_by_id, search_by_title. reads;
      try solve [eapply reads_only_weaken; [| eauto with reads]; auto]. }
  destruct (k =? 5).
  { apply Hquiet in H; auto. unfold view_all_books. reads. }
  returned H. auto.
Qed.

Lemma main_loop_keeps score turns :
  forall s s' evs,
    main_loop score turns s = Some (Ok tt, s', evs) ->
    I2 (db s) -> book_keys (db s) ->
    store_ok evs ->
    I2 (db s') /\ book_keys (db s').
Proof.
  induction turns as [| turns IH]; intros s s' evs H HI Hk Hok;
    [discriminate H |].
  rewrite main_loop_turn in H.
  destruct ((print main_menu;; get_valid_option_input 6) s)
    as [[[k | e] s1] e1] eqn:E; [| discriminate H].
  apply menu_selection_reads_a_line in E. destruct E as (Hd & _ & _).
  rewrite <- Hd in HI, Hk.
  destruct (k =? 0).
  { injection H as <- <-. auto. }
  destruct (menu_case score k s1) as [[[u | e] s2] e2] eqn:E2;
    [| discriminate H].
  destruct (main_loop score turns s2) as [[[r3 s3] e3] |] eqn:E3;
    [| discriminate H].
  injection H as -> -> <-.
  apply store_ok_app in Hok. destruct Hok as (_ & Hok).
  apply store_ok_app in Hok. destruct Hok as (Hok2 & Hok3).
  destruct u.
  destruct (menu_case_keeps _ _ _ _ _ _ HI Hk E2 eq_refl Hok2) as (HI2 & Hk2).
  eapply IH; eauto.
Qed.

(** X16: A session that is left by the selection 0 and in which every
    statement went through keeps I2 and the uniqueness of the book
    keys, whatever was entered, updated, deleted, searched or listed on
    the way. *)
Theorem session_keeps_I2 score s s' evs :
  main score s = Some (Ok tt, s', evs) ->
  I2 (db s) -> book_keys (db s) ->
  store_ok evs ->
  I2 (db s') /\ book_keys (db s').
Proof. unfold main. apply main_loop_keeps. Qed.

Lemma session_keeps_I2_witness :
  exists s' evs,
    main always_100 a_session = Some (Ok tt, s', evs)
    /\ I2 (db s') /\ book_keys (db s').
Proof.
  eexists _, _. split; [vm_compute; reflexivity |].
  eapply (session_keeps_I2 always_100 a_session).
  - vm_compute. reflexivity.
  - intros a [<- | [<- | []]];
      [exists (Book 3001 "Dune" 1290 (Some 1))
      | exists (Book 3002 "Emma" 1775 (Some 2))]; simpl; auto.
  - unfold book_keys. simpl. repeat constructor; simpl; intuition discriminate.
  - intros q ok Hin. simpl in Hin.
    repeat (destruct Hin as [Hin | Hin]; [inversion Hin; reflexivity |]).
    contradiction.
Defined.

(** ** A book whose author row is missing *)

Lemma has_book_In b d : In b (book d) -> has_book (b_id b) d = true.
Proof.
  intros H. unfold has_book. apply existsb_exists. exists b.
  split; [exact H | apply Z.eqb_refl].
Qed.

Lemma check_id_exists_book_found id s :
  faults s = [] ->
  has_book id (db s) = true ->
  check_id_exists "book" id s = (Ok (Some true), s, []).
Proof.
  intros Hf Hb. unfold check_id_exists. simpl.
  unfold bind, retrieve_sqlite_query, next_fault, ret. rewrite Hf.
  unfold select_book_where_id, nonempty. unfold has_book in Hb.
  rewrite <- nonempty_filter in Hb.
  destruct (filter _ (book (db s))); [discriminate Hb | reflexivity].
Qed.

(** The first line typed is taken when it holds the id of a book. *)
Lemma get_existing_id_first_line s l rest id :
  stdin s = l :: rest ->
  int_value l = Some id ->
  four_chars id = true ->
  has_book id (db s) = true ->
  faults s = [] ->
  get_existing_id "book" s
  = (Ok id, set_stdin rest s, [Input (existing_id_prompt "book") l]).
Proof.
  intros Hs Hl H4 Hb Hf. unfold get_existing_id. rewrite Hs.
  unfold get_existing_id_from. cbv beta zeta. rewrite Hl, H4. simpl negb.
  cbv iota.
  rewrite check_id_exists_book_found; auto.
Qed.

Lemma join_where_dangling d b :
  In b (book d) -> book_keys d ->
  (forall a, In a (author d) -> a_id a <> b_authorID b) ->
  select_book_join_author_where_id (b_id b) d = [].
Proof.
  intros Hb Hk Hno.
  destruct (select_book_join_author_where_id (b_id b) d) as [| row rows] eqn:E;
    [reflexivity | exfalso].
  assert (Hrow : In row (select_book_join_author_where_id (b_id b) d))
    by (rewrite E; simpl; auto).
  apply joined_where_id in Hrow. destruct Hrow as (Hrow & Hid).
  apply joined_In in Hrow. destruct Hrow as (Hb' & Ha & Hlink).
  assert (fst row = b) by (eapply same_key_same_book; eauto).
  apply (Hno _ Ha). congruence.
Qed.

(** The three steps that [search_by_id], [update_book] and
    [delete_book] start with, on a book without author row. *)
Lemma select_dangling {A} (k : joined_row -> M A) s l rest b :
  stdin s = l :: rest ->
  int_value l = Some (b_id b) ->
  four_chars (b_id b) = true ->
  In b (book (db s)) -> book_keys (db s) ->
  (forall a, In a (author (db s)) -> a_id a <> b_authorID b) ->
  faults s = [] ->
  (target_id <- get_existing_id "book";;
   target_books <-
     retrieve_sqlite_query (select_book_join_author_where_id target_id);;
   row <- first_row target_books;;
   k row) s
  = (Raise IndexError, set_stdin rest s,
     [Input (existing_id_prompt "book") l]).
Proof.
  intros Hs Hl H4 Hb Hk Hno Hf. unfold bind at 1.
  rewrite (get_existing_id_first_line s l rest (b_id b)); auto using has_book_In.
  unfold bind, retrieve_sqlite_query, next_fault. simpl faults. rewrite Hf.
  simpl db. rewrite join_where_dangling; auto.
Qed.

(** X17: When the author row of a book is missing (I1 broken for it),
    asking for the book by its id ends [search_by_id], [update_book]
    and [delete_book] alike with an [IndexError]: the join returns no
    row and [target_book_list[0]] is evaluated without a test. *)
Theorem dangling_book_raises score s l rest b :
  stdin s = l :: rest ->
  int_value l = Some (b_id b) ->
  four_chars (b_id b) = true ->
  In b (book (db s)) -> book_keys (db s) ->
  (forall a, In a (author (db s)) -> a_id a <> b_authorID b) ->
  faults s = [] ->
  search_by_id s
  = (Raise IndexError, set_stdin rest s,
     [Input (existing_id_prompt "book") l])
  /\ update_book score s
     = (Raise IndexError, set_stdin rest s,
        [Input (existing_id_prompt "book") l])
  /\ delete_book s
     = (Raise IndexError, set_stdin rest s,
        [Input (existing_id_prompt "book") l]).
Proof.
  intros Hs Hl H4 Hb Hk Hno Hf.
  split; [| split].
  - unfold search_by_id. apply (select_dangling _ s l rest b); auto.
  - unfold update_book. apply (select_dangling _ s l rest b); auto.
  - unfold delete_book. apply (select_dangling _ s l rest b); auto.
Qed.

Lemma dangling_book_raises_witness :
  search_by_id dangling_book
  = (Raise IndexError, set_stdin [] dangling_book,
     [Input (existing_id_prompt "book") (number 3001)])
  /\ update_book always_100 dangling_book
     = (Raise IndexError, set_stdin [] dangling_book,
        [Input (existing_id_prompt "book") (number 3001)])
  /\ delete_book dangling_book
     = (Raise IndexError, set_stdin [] dangling_book,
        [Input (existing_id_prompt "book") (number 3001)]).
Proof.
  apply (dangling_book_raises always_100 dangling_book (number 3001) []
           (Book 3001 "T" 1290 (Some 5))).
  - reflexivity.
  - reflexivity.
  - vm_compute. reflexivity.
  - simpl. auto.
  - unfold book_keys. simpl. repeat constructor. simpl. tauto.
  - intros a [].
  - reflexivity.
Defined.

(** ** Listing the books *)

(** The author rows that the join finds for a book, when the book
    points at a row and the author keys are unique. *)
Lemma the_author_of authors a :
  NoDup (map a_id authors) -> In a authors ->
  filter (fun x => a_id a =? a_id x) authors = [a].
Proof.
  induction authors as [| a0 authors IH]; simpl; intros Hnd Hin;
    [contradiction |].
  inversion Hnd as [| k ks Hnot Hnd']; subst.
  destruct Hin as [-> | Hin].
  - rewrite Z.eqb_refl. f_equal.
    destruct (filter (fun x => a_id a =? a_id x) authors) as [| x xs] eqn:F;
      [reflexivity | exfalso].
    assert (Hx : In x (filter (fun x => a_id a =? a_id x) authors))
      by (rewrite F; simpl; auto).
    apply filter_In in Hx. destruct Hx as (Hx & He). apply Z.eqb_eq in He.
    apply Hnot. rewrite He. apply in_map. exact Hx.
  - destruct (a_id a =? a_id a0) eqn:E; [| auto].
    exfalso. apply Z.eqb_eq in E. apply Hnot. rewrite <- E.
    apply in_map. exact Hin.
Qed.

Lemma join_one_row_per_book authors books :
  NoDup (map a_id authors) ->
  (forall b, In b books ->
             exists a, In a authors /\ a_id a = b_authorID b) ->
  map fst (select_book_join_author (Database books authors)) = books.
Proof.
  intros Hnd. unfold select_book_join_author. simpl.
  induction books as [| b books IH]; intros Hall; simpl; [reflexivity |].
  destruct (Hall b) as (a & Ha & He); [simpl; auto |].
  rewrite <- He, (the_author_of authors a Hnd Ha). simpl.
  f_equal. apply IH. intros b' Hb'. apply Hall. simpl. auto.
Qed.

(** X18: When every book points at an author row and the author keys are
    unique, [view_all_books] prints exactly one card per book, in the
    order of the book table, each with the author the book points at;
    it changes nothing. *)
Theorem view_all_books_one_card_per_book s s' evs :
  I1 (db s) -> author_keys (db s) ->
  view_all_books s = (Ok tt, s', evs) ->
  db s' = db s
  /\ exists rows,
      evs = map Print (map view_card rows)
      /\ map fst rows = book (db s)
      /\ forall row, In row rows ->
                     In (snd row) (author (db s))
                     /\ a_id (snd row) = b_authorID (fst row).
Proof.
  intros HI Hk H.
  unfold view_all_books, bind, retrieve_sqlite_query, next_fault, iterable,
    ret, raise, print_all in H.
  destruct (faults s) as [| [] fs]; simpl in H; try discriminate H;
    injection H as Hs He; subst s' evs;
    (split; [reflexivity |]);
    exists (select_book_join_author (db s));
    (split; [reflexivity |]);
    (split;
     [ destruct (db s) as [books authors]; apply join_one_row_per_book; auto
     | intros row Hrow; apply joined_In in Hrow;
       destruct Hrow as (_ & Ha & Hl); auto ]).
Qed.

Lemma view_all_books_one_card_per_book_witness :
  db (snd (fst (view_all_books (State dune_and_emma [] []))))
  = db (State dune_and_emma [] [])
  /\ exists rows,
      snd (view_all_books (State dune_and_emma [] []))
      = map Print (map view_card rows)
      /\ map fst rows = book (db (State dune_and_emma [] []))
      /\ forall row, In row rows ->
                     In (snd row) (author (db (State dune_and_emma [] [])))
                     /\ a_id (snd row) = b_authorID (fst row).
Proof.
  apply (view_all_books_one_card_per_book (State dune_and_emma [] [])).
  - intros b [<- | [<- | []]];
      [exists (Author 1290 "Frank Herbert" "USA")
      | exists (Author 1775 "Jane Austen" "England")]; simpl; auto.
  - unfold author_keys. simpl. repeat constructor; simpl; intuition discriminate.
  - vm_compute. reflexivity.
Defined.

(** ** Changing a title *)

Lemma get_valid_string_given p s t s' evs :
  get_valid_string p s = (Ok t, s', evs) -> t <> "".
Proof.
  unfold get_valid_string. intros H.
  destruct (get_valid_string_from p (stdin s)) as [[r rest] e] eqn:E.
  inv H. apply get_valid_string_from_result in E. tauto.
Qed.

Lemma similar_title_row score title excluded s rows s' evs row :
  retrieve_similar_titles score title excluded s = (Ok rows, s', evs) ->
  In row rows ->
  In row (select_book_join_author (db s))
  /\ b_title (fst row) <> excluded
  /\ 90 <= score title (b_title (fst row)).
Proof.
  intros H Hrow.
  rewrite (retrieve_similar_titles_result _ _ _ _ _ _ _ H) in Hrow.
  apply In_picked in Hrow.
  destruct Hrow as (Hin & p & Hp & Ht & Hk). split; [exact Hin |].
  pose proof (extract_score _ _ _ _ Hp) as Hs.
  apply extract_In in Hp. apply in_map_iff in Hp.
  destruct Hp as (r0 & Hr0 & Hf). apply filter_In in Hf.
  destruct Hf as (_ & Hne). apply negb_true_iff, String.eqb_neq in Hne.
  split; [congruence |]. rewrite Hk, <- Hs. exact Ht.
Qed.

(** X19: [update_title] writes a title only when the new title resembles
    the title of another book.  Either the run sends no statement and
    leaves the tables as they were, or the new title [t] typed is not
    empty, some row of the join has a title other than the current one
    that scores 90 or more against [t], and every statement sent is the
    update of this book's title to [t].  A new title that resembles no
    other is thus never written. *)
Theorem title_changed_only_to_similar score book_id current s r s' evs :
  update_title score book_id current s = (r, s', evs) ->
  (db s' = db s /\ execs evs = [])
  \/ (exists t row,
         t <> ""
         /\ In row (select_book_join_author (db s))
         /\ b_title (fst row) <> current
         /\ 90 <= score t (b_title (fst row))
         /\ forall q ok, In (q, ok) (execs evs) -> q = UpdateBookTitle t book_id).
Proof.
  unfold update_title. intros H.
  step H as u s1 e1 H1; [| inv H]. printed H1.
  step H as t s2 e2 H2 then rest2.
  2:{ quiet H. left. simpl. auto. }
  pose proof (get_valid_string_given _ _ _ _ _ H2) as Ht. quiet H2.
  step H as rows s3 e3 H3 then rest3.
  2:{ quiet H. left. rewrite !execs_app, He, He0. simpl.
      split; [congruence | reflexivity]. }
  destruct rows as [| row rows].
  - returned H. quiet H3. left. rewrite !execs_app, He, He0. simpl.
    split; [congruence | reflexivity].
  - right. exists t, row.
    destruct (similar_title_row _ _ _ _ _ _ _ row H3) as (Hin & Hne & Hsc);
      [simpl; auto |].
    quiet H3. rewrite Hd in Hin.
    repeat split; auto.
    intros q ok Hq. rewrite !execs_app, He, He0 in Hq. simpl in Hq.
    match type of H with
    | ?k s3 = _ =>
        assert (Hsend : sends (fun q => q = UpdateBookTitle t book_id) k)
    end.
    { repeat first
        [ apply sends_bind; [| intros ?]
        | apply sends_execute; reflexivity
        | solve [apply (sends_reads (fun _ => False)); eauto with reads]
        | solve [eapply sends_reads; eauto with reads]
        | match goal with
          | |- sends _ (if ?b then _ else _) => destruct b
          end ]. }
    eapply Hsend; eauto.
Qed.

Lemma title_changed_only_to_similar_witness :
  (db (snd (fst (update_title same_or_nothing 3001 "Dune"
                              rename_to_new_title)))
   = db rename_to_new_title
   /\ execs (snd (update_title same_or_nothing 3001 "Dune"
                               rename_to_new_title)) = [])
  \/ (exists t row,
         t <> ""
         /\ In row (select_book_join_author (db rename_to_new_title))
         /\ b_title (fst row) <> "Dune"
         /\ 90 <= same_or_nothing t (b_title (fst row))
         /\ forall q ok,
             In (q, ok) (execs (snd (update_title same_or_nothing 3001 "Dune"
                                                  rename_to_new_title))) ->
             q = UpdateBookTitle t 3001).
Proof.
  apply (title_changed_only_to_similar
           same_or_nothing 3001 "Dune" rename_to_new_title
           (fst (fst (update_title same_or_nothing 3001 "Dune"
                                   rename_to_new_title)))).
  vm_compute. reflexivity.
Defined.

(** ** Deleting a book: what a deletion that went through does *)

Lemma typed_later (done : list event) msg before typed post :
  done ++ Print msg :: before ++ typed :: post
  = (done ++ Print msg :: before) ++ typed :: post.
Proof. rewrite <- app_assoc. reflexivity. Qed.

(** The id that [get_existing_id] hands back is the integer of the last
    line it read. *)
Lemma get_existing_id_typed table s n s' evs :
  get_existing_id table s = (Ok n, s', evs) ->
  exists before typed post,
    evs = before ++ Input (existing_id_prompt table) typed :: post
    /\ execs before = []
    /\ int_value typed = Some n
    /\ prompts post = [] /\ execs post = [].
Proof.
  unfold get_existing_id. generalize (stdin s) as lines.
  intros lines. revert s evs.
  induction lines as [| l lines IH]; intros s evs H.
  - inv H.
  - unfold get_existing_id_from in H; fold get_existing_id_from in H.
    cbv beta zeta in H.
    assert (Hagain : forall s1 done msg,
               execs done = [] ->
               (let '(r, s2, e) := get_existing_id_from table lines s1 in
                (r, s2, done ++ Print msg :: e)) = (Ok n, s', evs) ->
               exists before typed post,
                 evs = before ++ Input (existing_id_prompt table) typed :: post
                 /\ execs before = []
                 /\ int_value typed = Some n
                 /\ prompts post = [] /\ execs post = []).
    { intros s1 done msg Hdone Hrun.
      destruct (get_existing_id_from table lines s1) as [[r2 s2] e2] eqn:E.
      inv Hrun. apply IH in E.
      destruct E as (before & typed & post & -> & Hb & Hty & Hpost).
      exists (done ++ Print msg :: before), typed, post.
      split; [apply typed_later |]. split; [| auto].
      rewrite execs_app, Hdone. simpl. exact Hb. }
    destruct (int_value l) as [z |] eqn:El.
    + destruct (negb (four_chars z)).
      { eapply Hagain; [| exact H]. reflexivity. }
      destruct (check_id_exists table z (set_stdin lines s))
        as [[[o | e] s1] ec] eqn:Ec; [| discriminate H].
      apply (reads_only_silent _ _ _ _ _ (check_id_exists_reads _ _ _)) in Ec.
      destruct Ec as (_ & Hex & Hpr).
      destruct (truthy o).
      * inv H. exists [], l, ec. simpl. auto.
      * eapply Hagain; [| exact H]. simpl. exact Hex.
    + eapply Hagain; [| exact H]. reflexivity.
Qed.

(** What a run of [delete_book] that sent a statement comes to: the
    book is the one whose id is the integer of the last line read
    before the card of the book is shown. *)
Lemma delete_book_chosen s r s' evs :
  delete_book s = (r, s', evs) ->
  execs evs <> [] ->
  exists row typed before mid pre tail,
    evs = before ++ Input (existing_id_prompt "book") typed
            :: mid ++ Print "Book to be deleted:" :: pre ++ tail
    /\ execs before = [] /\ prompts mid = [] /\ execs mid = []
    /\ execs pre = []
    /\ int_value typed = Some (b_id (fst row))
    /\ In row (select_book_join_author (db s))
    /\ r = Ok tt
    /\ delete_tail row (book_count (a_id (snd row)) (db s) <? 2)%nat
                   (db s) tail (db s').
Proof.
  unfold delete_book. intros H Hne.
  step H as target s1 e1 H1.
  2:{ quiet H. contradiction. }
  pose proof (get_existing_id_typed _ _ _ _ _ H1) as Hty.
  destruct Hty as (before & typed & post & -> & Hbefore & Htyped & Hpost & Hxpost).
  quiet H1.
  assert (Hpre : forall rest,
             execs ((before ++ Input (existing_id_prompt "book") typed :: post)
                      ++ rest) = execs rest).
  { intros rest. rewrite execs_app, He. reflexivity. }
  step H as fetched s2 e2 H2.
  2:{ quiet H. exfalso. apply Hne. rewrite Hpre. exact He0. }
  apply retrieve_run in H2. destruct H2 as (Hd2 & He2 & Hp2 & Hf).
  step H as row s3 e3 H3.
  2:{ quiet H. exfalso. apply Hne.
      rewrite Hpre, execs_app, He2, He0. reflexivity. }
  destruct Hf as [Hf | Hf]; injection Hf as ->; [inv H3 |].
  apply first_row_run in H3. destruct H3 as (Hrow & -> & ->).
  apply joined_where_id in Hrow. destruct Hrow as (Hrow & Hid).
  replace (db s1) with (db s) in Hrow by congruence.
  assert (Hquiet : forall rest,
             execs rest = [] ->
             execs ((before ++ Input (existing_id_prompt "book") typed :: post)
                      ++ e2 ++ [] ++ rest) = []).
  { intros rest Hrest. rewrite Hpre, !execs_app, He2, Hrest. reflexivity. }
  step H as u1 s4 e4 H4; [| inv H]. printed H4.
  step H as u2 s5 e5 H5; [| inv H]. printed H5.
  step H as sure s6 e6 H6.
  2:{ quiet H. exfalso. apply Hne. apply Hquiet. simpl. exact He0. }
  quiet H6.
  destruct sure.
  2:{ printed H. exfalso. apply Hne. apply Hquiet. simpl.
      rewrite execs_app, He0. reflexivity. }
  step H as orphan s7 e7 H7.
  2:{ quiet H. exfalso. apply Hne. apply Hquiet. simpl.
      rewrite execs_app, He0, He1. reflexivity. }
  destruct (update_creates_orphan_run _ _ _ _ _ H7)
    as [(Hr & _) | (Hr & _)]; [| discriminate Hr].
  injection Hr as Hr. quiet H7.
  step H as go s8 e8 H8.
  2:{ apply confirm_delete_run in H. destruct H as (Hd8 & He8 & _).
      exfalso. apply Hne. apply Hquiet. simpl.
      rewrite !execs_app, He0, He1, He8. reflexivity. }
  apply confirm_delete_run in H8. destruct H8 as (Hd8 & He8 & Hn8).
  destruct go.
  2:{ printed H. exfalso. apply Hne. apply Hquiet. simpl.
      rewrite !execs_app, He0, He1, He8. reflexivity. }
  apply delete_tail_run in H. destruct H as (-> & Ht).
  match goal with
  | |- context [e8 ++ ?t] =>
      exists row, typed, before, (post ++ e2),
             ([Print (card "        " row)] ++ e6 ++ e7 ++ e8), t
  end.
  split.
  { repeat rewrite <- app_assoc. cbn [app]. repeat rewrite <- app_assoc.
    reflexivity. }
  split; [exact Hbefore |].
  split; [rewrite prompts_app, Hpost, Hp2; reflexivity |].
  split; [rewrite execs_app, Hxpost, He2; reflexivity |].
  split; [simpl; rewrite !execs_app, He0, He1, He8; reflexivity |].
  split; [congruence |]. split; [exact Hrow |]. split; [reflexivity |].
  replace (db s) with (db s8) by congruence.
  replace (book_count (a_id (snd row)) (db s8) <? 2)%nat with orphan
    by (rewrite Hr; do 2 f_equal; congruence).
  exact Ht.
Qed.

(** X20: When [delete_book] sent statements and all of them went
    through, the book deleted is the one the user asked for: its id is
    the integer of the last line read before the card of the book is
    shown, and it is the id of the delete sent.  That book is gone,
    every other book is still there, and the author the book pointed at
    is removed, by a second statement, exactly when fewer than two
    books pointed at it; all other author rows stay. *)
Theorem confirmed_delete_effect s r s' evs :
  delete_book s = (r, s', evs) ->
  store_ok evs ->
  execs evs <> [] ->
  exists row typed before mid after,
    evs = before ++ Input (existing_id_prompt "book") typed
            :: mid ++ Print "Book to be deleted:" :: after
    /\ prompts mid = []
    /\ int_value typed = Some (b_id (fst row))
    /\ In row (select_book_join_author (db s))
    /\ execs evs
       = (DeleteBook (b_id (fst row)), true)
           :: (if (book_count (a_id (snd row)) (db s) <? 2)%nat
               then [(DeleteAuthor (a_id (snd row)), true)] else [])
    /\ r = Ok tt
    /\ db s'
       = (if (book_count (a_id (snd row)) (db s) <? 2)%nat
          then remove_author (a_id (snd row))
                             (remove_book (b_id (fst row)) (db s))
          else remove_book (b_id (fst row)) (db s))
    /\ has_book (b_id (fst row)) (db s') = false.
Proof.
  intros H Hok Hsent. apply delete_book_chosen in H; [| exact Hsent].
  destruct H as (row & typed & before & mid & pre & tail
                 & -> & Hb & Hpm & Hxm & Hxp & Hty & Hrow & -> & Ht).
  assert (Hx : execs (before ++ Input (existing_id_prompt "book") typed
                        :: mid ++ Print "Book to be deleted:" :: pre ++ tail)
               = execs tail).
  { rewrite execs_app. simpl. rewrite !execs_app. simpl.
    rewrite execs_app, Hb, Hxm, Hxp. reflexivity. }
  assert (Hokt : store_ok tail).
  { intros q ok Hin. apply (Hok q ok). rewrite Hx. exact Hin. }
  exists row, typed, before, mid, (pre ++ tail).
  split; [reflexivity |]. split; [exact Hpm |]. split; [exact Hty |].
  split; [exact Hrow |]. rewrite Hx.
  assert (Hgone : forall d,
             has_book (b_id (fst row)) (remove_book (b_id (fst row)) d)
             = false).
  { intros d. unfold has_book. simpl.
    destruct (existsb _ _) eqn:E; [| reflexivity].
    apply existsb_exists in E. destruct E as (b & Hin & Hid).
    apply filter_In in Hin. destruct Hin as (_ & Hne).
    rewrite Hid in Hne. discriminate Hne. }
  destruct Ht as [(-> & _) | [(-> & -> & ->) | [(-> & -> & ->) | (_ & -> & _)]]].
  - exfalso. eapply (store_ok_failed _ _ Hokt). simpl. eauto.
  - repeat split; auto.
  - repeat split; auto. unfold has_book. simpl. apply Hgone.
  - exfalso. eapply (store_ok_failed _ _ Hokt). simpl. eauto.
Qed.

Lemma confirmed_delete_effect_witness :
  exists row typed before mid after,
    snd (delete_book delete_confirmed)
    = before ++ Input (existing_id_prompt "book") typed
        :: mid ++ Print "Book to be deleted:" :: after
    /\ prompts mid = []
    /\ int_value typed = Some (b_id (fst row))
    /\ In row (select_book_join_author (db delete_confirmed))
    /\ execs (snd (delete_book delete_confirmed))
       = (DeleteBook (b_id (fst row)), true)
           :: (if (book_count (a_id (snd row)) (db delete_confirmed) <? 2)%nat
               then [(DeleteAuthor (a_id (snd row)), true)] else [])
    /\ fst (fst (delete_book delete_confirmed)) = Ok tt
    /\ db (snd (fst (delete_book delete_confirmed)))
       = (if (book_count (a_id (snd row)) (db delete_confirmed) <? 2)%nat
          then remove_author (a_id (snd row))
                             (remove_book (b_id (fst row))
                                          (db delete_confirmed))
          else remove_book (b_id (fst row)) (db delete_confirmed))
    /\ has_book (b_id (fst row)) (db (snd (fst (delete_book delete_confirmed))))
       = false.
Proof.
  apply (confirmed_delete_effect delete_confirmed
           (fst (fst (delete_book delete_confirmed)))
           (snd (fst (delete_book delete_confirmed)))
           (snd (delete_book delete_confirmed))).
  - vm_compute. reflexivity.
  - intros q ok Hin. simpl in Hin.
    repeat (destruct Hin as [Hin | Hin]; [inversion Hin; reflexivity |]).
    contradiction.
  - vm_compute. discriminate.
Defined.

(** ** A slip while typing a quantity *)

Lemma update_quantity_stdin book_id current s nq s1 e1 r s' evs :
  get_valid_integer "Please input the new stock quantity " s
  = (Ok nq, s1, e1) ->
  update_quantity book_id current s = (r, s', evs) ->
  stdin s' = stdin s1.
Proof.
  intros Hread H. unfold update_quantity in H.
  step H as u s0 e0 H0; [| inv H]. printed H0.
  step H as nq' s2 e2 H2; [| congruence].
  assert (s2 = s1) by congruence. subst s2.
  assert (Hx : forall q b sa sb ev,
             execute_sqlite_query q sa = (b, sb, ev) -> stdin sb = stdin sa).
  { intros q b sa sb ev Hq. unfold execute_sqlite_query, next_fault in Hq.
    destruct (faults sa) as [| [] fs]; simpl in Hq;
      try destruct (negb (params_fit q));
      try destruct (apply_statement q (db sa));
      inv Hq; reflexivity. }
  step H as done s3 e3 H3.
  - apply Hx in H3. destruct done; returned H; exact H3.
  - apply Hx in H. exact H.
Qed.

(** X21: When the first line typed at the prompt of [update_quantity]
    is not an integer and [update_quantity] returns, the quantity typed
    afterwards was read and lost: the statement sent sets the stock of
    the book to NULL, and the value returned ([None] when the statement
    went through, [False] when it did not) is falsy, which the caller
    reports as an error. *)
Theorem stock_lost_after_mistake book_id current s l rest0 v s' evs :
  update_quantity book_id current s = (Ok v, s', evs) ->
  stdin s = l :: rest0 ->
  int_value l = None ->
  is_true v = false
  /\ (exists more good z,
         stdin s = l :: more ++ good :: stdin s'
         /\ Forall (fun l => int_value l = None) more
         /\ int_value good = Some z)
  /\ exists ok,
      execs evs = [(UpdateBookQty None book_id, ok)]
      /\ if ok
         then v = VNone
              /\ book (db s')
                 = map (fun b => if b_id b =? book_id
                                 then Book (b_id b) (b_title b) (b_authorID b)
                                           None
                                 else b)
                       (book (db s))
              /\ author (db s') = author (db s)
         else v = VFalse /\ db s' = db s.
Proof.
  intros H Hs Hl. pose proof H as Hrun.
  apply update_quantity_run in H.
  destruct H as [(_ & _ & x & Hx) | (nq & s1 & e1 & tail & Hread & He1 & -> & Ht)];
    [discriminate Hx |].
  pose proof (update_quantity_stdin _ _ _ _ _ _ _ _ _ Hread Hrun) as Hrest.
  unfold get_valid_integer in Hread.
  destruct (get_valid_integer_from _ (stdin s)) as [[r0 rest] e] eqn:E.
  injection Hread as -> <- <-. simpl in Hrest.
  apply get_valid_integer_from_result in E.
  destruct E as (bad & good & z & Hlines & Hbad & Hgood & Hv & _).
  rewrite Hs in Hlines.
  destruct bad as [| l' more].
  { simpl in Hlines. injection Hlines as <- _. congruence. }
  simpl in Hlines. injection Hlines as <- Hlines. subst nq.
  assert (Hmore : exists more good z,
             stdin s = l :: more ++ good :: stdin s'
             /\ Forall (fun l => int_value l = None) more
             /\ int_value good = Some z).
  { exists more, good, z. rewrite Hs, Hrest, Hlines.
    inversion Hbad; subst. auto. }
  destruct Ht as [(-> & Hr & Hq) | (-> & Hr & Hd)]; injection Hr as ->.
  - split; [reflexivity |]. split; [exact Hmore |].
    exists true. split; [simpl; rewrite execs_app, He1; reflexivity |].
    simpl in Hq. injection Hq as <-. simpl. auto.
  - split; [reflexivity |]. split; [exact Hmore |].
    exists false. split; [simpl; rewrite execs_app, He1; reflexivity |].
    auto.
Qed.

Lemma stock_lost_after_mistake_witness :
  is_true VNone = false
  /\ (exists more good z,
         stdin stock_after_mistake
         = answer "seven"
             :: more ++ good
             :: stdin (snd (fst (update_quantity 3001 (Some 5)
                                                 stock_after_mistake)))
         /\ Forall (fun l => int_value l = None) more
         /\ int_value good = Some z)
  /\ exists ok,
      execs (snd (update_quantity 3001 (Some 5) stock_after_mistake))
      = [(UpdateBookQty None 3001, ok)]
      /\ if ok
         then VNone = VNone
              /\ book (db (snd (fst (update_quantity 3001 (Some 5)
                                                     stock_after_mistake))))
                 = map (fun b => if b_id b =? 3001
                                 then Book (b_id b) (b_title b) (b_authorID b)
                                           None
                                 else b)
                       (book (db stock_after_mistake))
              /\ author (db (snd (fst (update_quantity 3001 (Some 5)
                                                       stock_after_mistake))))
                 = author (db stock_after_mistake)
         else VNone = VFalse
              /\ db (snd (fst (update_quantity 3001 (Some 5)
                                               stock_after_mistake)))
                 = db stock_after_mistake.
Proof.
  apply (stock_lost_after_mistake 3001 (Some 5) stock_after_mistake
           (answer "seven") [number 7] VNone).
  - vm_compute. reflexivity.
  - reflexivity.
  - reflexivity.
Defined.

(** ** Searching *)

(** X22: [search_book], by id or by title, and [view_all_books] only
    read: whatever is typed and whatever the store does, the tables
    are left as they were and no statement is sent. *)
Theorem browsing_changes_nothing score s r s' evs :
  search_book score s = (r, s', evs) \/ view_all_books s = (r, s', evs) ->
  db s' = db s /\ execs evs = [].
Proof.
  assert (Hs : reads_only (fun _ => True) (search_book score)).
  { unfold search_book, search_by_id, search_by_title. reads;
      try solve [eapply reads_only_weaken; [| eauto with reads]; auto]. }
  assert (Hv : reads_only (fun _ => True) view_all_books).
  { unfold view_all_books. reads. }
  intros [H | H]; [apply Hs in H | apply Hv in H]; tauto.
Qed.

Lemma browsing_changes_nothing_witness :
  db (snd (fst (search_book same_or_nothing search_for_emma)))
  = db search_for_emma
  /\ execs (snd (search_book same_or_nothing search_for_emma)) = [].
Proof.
  apply (browsing_changes_nothing same_or_nothing search_for_emma
           (fst (fst (search_book same_or_nothing search_for_emma)))).
  left. vm_compute. reflexivity.
Defined.

(** ** Choosing or creating an author *)

(** X23: An id that [add_author] returns is the key of a row of the
    author table when it returns; that row was there before, or it is
    the one row added, under an id that was free.  The book table is
    never touched. *)
Theorem add_author_returns_a_row score s id s' evs :
  add_author score s = (Ok (Some id), s', evs) ->
  has_author id (db s') = true
  /\ book (db s') = book (db s)
  /\ ((author (db s') = author (db s) /\ execs evs = [])
      \/ (exists name country,
             author (db s') = author (db s) ++ [Author id name country]
             /\ has_author id (db s) = false
             /\ execs evs = [(InsertAuthor id name country, true)])).
Proof.
  intros H. apply add_author_run in H. destruct H as (Hb & _ & H).
  split; [| split; [exact Hb |]].
  - destruct H as [(Ha & _ & _ & Hid)
                  | [(id' & n & c & _ & Ha & _ & Hr) | (q & _ & _ & _ & Hr)]].
    + unfold has_author. rewrite Ha. apply (Hid id eq_refl).
    + injection Hr as ->. unfold has_author. rewrite Ha.
      rewrite existsb_app. simpl. rewrite Z.eqb_refl.
      apply orb_true_iff. right. reflexivity.
    + discriminate Hr.
  - destruct H as [(Ha & He & _ & _)
                  | [(id' & n & c & He & Ha & Hfree & Hr) | (q & _ & _ & _ & Hr)]].
    + left. auto.
    + injection Hr as ->. right. eauto.
    + discriminate Hr.
Qed.

Lemma add_author_returns_a_row_witness :
  has_author 2000 (db (snd (fst (add_author same_or_nothing new_author_m))))
  = true
  /\ book (db (snd (fst (add_author same_or_nothing new_author_m))))
     = book (db new_author_m)
  /\ ((author (db (snd (fst (add_author same_or_nothing new_author_m))))
       = author (db new_author_m)
       /\ execs (snd (add_author same_or_nothing new_author_m)) = [])
      \/ (exists name country,
             author (db (snd (fst (add_author same_or_nothing new_author_m))))
             = author (db new_author_m) ++ [Author 2000 name country]
             /\ has_author 2000 (db new_author_m) = false
             /\ execs (snd (add_author same_or_nothing new_author_m))
                = [(InsertAuthor 2000 name country, true)])).
Proof.
  apply (add_author_returns_a_row same_or_nothing new_author_m 2000).
  vm_compute. reflexivity.
Defined.

(** ** Renaming an author, changing the country *)

(** X24: [update_author_name] and [update_author_country] write one field of
    one author row.  Either the tables are left as they were, or the
    text typed is not empty and the tables differ from the old ones
    only in the name, respectively the country, of the rows of the
    author table whose id is the one given; no book row changes. *)
Theorem author_field_update_effect author_id current s r s' evs :
  (update_author_name author_id current s = (r, s', evs) ->
   db s' = db s
   \/ exists new_name,
       new_name <> ""
       /\ db s'
          = Database (book (db s))
              (map (fun a => if a_id a =? author_id
                             then Author (a_id a) new_name (a_country a)
                             else a) (author (db s))))
  /\ (update_author_country author_id current s = (r, s', evs) ->
      db s' = db s
      \/ exists new_country,
          new_country <> ""
          /\ db s'
             = Database (book (db s))
                 (map (fun a => if a_id a =? author_id
                                then Author (a_id a) (a_name a) new_country
                                else a) (author (db s)))).
Proof.
  split; intros H.
  - unfold update_author_name in H.
    step H as fetched s1 e1 H1; [| quiet H; auto]. quiet H1.
    step H as u s2 e2 H2; [| inv H]. printed H2.
    step H as affected s3 e3 H3.
    2:{ quiet H. left. congruence. }
    quiet H3.
    step H as u2 s4 e4 H4.
    2:{ quiet H. left. congruence. }
    quiet H4.
    step H as go s5 e5 H5.
    2:{ quiet H. left. congruence. }
    quiet H5.
    assert (Hs : db s5 = db s) by congruence.
    destruct go.
    + step H as new_name s6 e6 H6.
      2:{ quiet H. left. congruence. }
      pose proof (get_valid_string_given _ _ _ _ _ H6) as Hn. quiet H6.
      step H as done s7 e7 H7.
      2:{ apply execute_sqlite_query_run in H.
          destruct H as [(Hr & _) | [(Hr & _) | (_ & _ & Hd')]];
            try discriminate Hr. left. congruence. }
      apply execute_sqlite_query_run in H7.
      assert (Hlast : db s' = db s7).
      { destruct done; printed H; reflexivity. }
      destruct H7 as [(_ & _ & Hap) | [(_ & _ & Hd') | (Hr & _)]];
        [| left; congruence | discriminate Hr].
      right. exists new_name. split; [exact Hn |].
      simpl in Hap. injection Hap as Hap. rewrite Hlast, <- Hap.
      replace (db s6) with (db s) by congruence. reflexivity.
    + printed H. left. exact Hs.
  - unfold update_author_country in H.
    step H as fetched s1 e1 H1; [| quiet H; auto]. quiet H1.
    step H as u s2 e2 H2; [| inv H]. printed H2.
    step H as affected s3 e3 H3.
    2:{ quiet H. left. congruence. }
    quiet H3.
    step H as u2 s4 e4 H4.
    2:{ quiet H. left. congruence. }
    quiet H4.
    step H as go s5 e5 H5.
    2:{ quiet H. left. congruence. }
    quiet H5.
    assert (Hs : db s5 = db s) by congruence.
    destruct go.
    + step H as new_country s6 e6 H6.
      2:{ quiet H. left. congruence. }
      pose proof (get_valid_string_given _ _ _ _ _ H6) as Hn. quiet H6.
      step H as done s7 e7 H7.
      2:{ apply execute_sqlite_query_run in H.
          destruct H as [(Hr & _) | [(Hr & _) | (_ & _ & Hd')]];
            try discriminate Hr. left. congruence. }
      apply execute_sqlite_query_run in H7.
      assert (Hlast : db s' = db s7).
      { destruct done; printed H; reflexivity. }
      destruct H7 as [(_ & _ & Hap) | [(_ & _ & Hd') | (Hr & _)]];
        [| left; congruence | discriminate Hr].
      right. exists new_country. split; [exact Hn |].
      simpl in Hap. injection Hap as Hap. rewrite Hlast, <- Hap.
      replace (db s6) with (db s) by congruence. reflexivity.
    + printed H. left. exact Hs.
Qed.

Lemma author_field_update_effect_witness :
  db (snd (fst (update_author_name 1290 "N" rename_author)))
  = db rename_author
  \/ exists new_name,
      new_name <> ""
      /\ db (snd (fst (update_author_name 1290 "N" rename_author)))
         = Database (book (db rename_author))
             (map (fun a => if a_id a =? 1290
                            then Author (a_id a) new_name (a_country a)
                            else a) (author (db rename_author))).
Proof.
  apply (proj1 (author_field_update_effect
                  1290 "N" rename_author
                  (fst (fst (update_author_name 1290 "N" rename_author)))
                  (snd (fst (update_author_name 1290 "N" rename_author)))
                  (snd (update_author_name 1290 "N" rename_author)))).
  vm_compute. reflexivity.
Defined.
